(** * waybar-system-health: the health-check core, embedded and verified

    The development follows the layout of the repository:
    - [Py]      the Python built-ins the modules rely on (text, [re], [int]);
    - [Base]    [modules/base.py]: [Status], [HealthCheckResult], ignore rules;
    - [Utils]   [modules/utils.py]: [run], [format_command_error] and
                [parse_ignore_file];
    - [Disk], [Smart], [Systemd], [Btrfs], [Journal]: the five check modules;
    - [Main]    [waybar-system-health.py]: the aggregator and its payload;
    - the vocabulary of the properties, then the properties and their proofs.

    Text is a sequence of 8-bit characters classified as Python classifies
    the ASCII range; characters above 127 are ordinary (neither space, digit
    nor letter).  Python floats are read as the rationals they denote, with
    the rounding of each floating-point operation left as a parameter.
    Exceptions are explicit: a function that may raise returns [Exc].  The
    operating system (process spawning, [statvfs]) is an oracle indexed by
    the number of the call, so that repeated calls may answer differently.
    Of a command the oracle says whether its executable was found and what
    the process left; an argument holding a NUL character makes
    [subprocess.run] raise before any process starts, and [run] lets that
    through.  Other ways in which a process may fail to start (no
    permission to execute, an argument list beyond the system's limit) and
    output that cannot be decoded as text are outside the oracle. *)

From Stdlib Require Import ZArith QArith Qround Qabs List String Ascii Bool Lia Permutation
  Sorted.
From Stdlib Require Import DecimalString.
Import ListNotations.

Open Scope string_scope.
Open Scope list_scope.
Open Scope Z_scope.

(** Text concatenation, kept apart from list concatenation. *)
Infix "+++" := String.append (right associativity, at level 60).

(* ===================================================================== *)
(** ** Exceptions and the effect monad *)

(** The exceptions that the modules raise or let through; [OtherError]
    stands for an exception of any other class, with its class name. *)
Inductive exn : Type :=
| ValueError (msg : string)
| IndexError
| KeyError
| OtherError (class_name msg : string).

Inductive Exc (A : Type) : Type :=
| Ok (a : A)
| Raise (e : exn).
Arguments Ok {A} a.
Arguments Raise {A} e.

Definition exc_bind {A B} (x : Exc A) (f : A -> Exc B) : Exc B :=
  match x with
  | Ok a => f a
  | Raise e => Raise e
  end.

(** What [subprocess.run(cmd, text=True, capture_output=True)] does:
    the process ran and left a return code and two captured streams, or
    the executable was not found. *)
Inductive SubprocessOutcome : Type :=
| Completed (returncode : Z) (stdout stderr : string)
| FileNotFoundError.

(** What [shutil.disk_usage(path)] does: a named triple, an [OSError] (two
    of its subclasses are told apart by the disk module), or the
    [ValueError] that a path holding a NUL character gets. *)
Inductive UsageOutcome : Type :=
| Usage (total used free : Z)
| UsageFileNotFound
| UsagePermissionError
| UsageOSError (text : string)
| UsageValueError (text : string).

Record World : Type := mkWorld {
  subprocess_run : nat -> list string -> SubprocessOutcome;
  shutil_disk_usage : nat -> string -> UsageOutcome
}.

(** A computation reads the world, counts its calls, and may raise. *)
Definition M (A : Type) : Type := World -> nat -> Exc (A * nat).

Definition ret {A} (a : A) : M A := fun _ n => Ok (a, n).

Definition bind {A B} (m : M A) (f : A -> M B) : M B :=
  fun w n =>
    match m w n with
    | Ok (a, n') => f a w n'
    | Raise e => Raise e
    end.

Definition raise {A} (e : exn) : M A := fun _ _ => Raise e.

Definition lift {A} (x : Exc A) : M A :=
  fun _ n => match x with Ok a => Ok (a, n) | Raise e => Raise e end.

Declare Scope monad_scope.
Delimit Scope monad_scope with monad.
Notation "x <- m ;; k" := (bind m (fun x => k))
  (at level 61, m at next level, right associativity) : monad_scope.
Notation "' p <- m ;; k" := (bind m (fun x => match x with p => k end))
  (at level 61, p pattern, m at next level, right associativity) : monad_scope.
Notation "x <-! m ;; k" := (exc_bind m (fun x => k))
  (at level 61, m at next level, right associativity) : monad_scope.

Fixpoint mapM {A B} (f : A -> M B) (l : list A) : M (list B) :=
  match l with
  | [] => ret []
  | a :: r => bind (f a) (fun b => bind (mapM f r) (fun bs => ret (b :: bs)))
  end.

(* ===================================================================== *)
(** ** Python built-ins *)

Module Py.

Definition is_empty (s : string) : bool :=
  match s with EmptyString => true | String _ _ => false end.

(** A non-empty string is truthy. *)
Definition truthy (s : string) : bool := negb (is_empty s).

Definition NUL : ascii := ascii_of_nat 0.

(** [chr(0) in s]. *)
Fixpoint has_nul (s : string) : bool :=
  match s with
  | EmptyString => false
  | String c s' => (Ascii.eqb c NUL || has_nul s')%bool
  end.

(** [str.isascii] on one character. *)
Definition isascii (c : ascii) : bool := Nat.ltb (nat_of_ascii c) 128.

Definition char_in (lo hi : nat) (c : ascii) : bool :=
  (Nat.leb lo (nat_of_ascii c) && Nat.leb (nat_of_ascii c) hi)%bool.

(** [str.isspace] on one character: TAB..CR, FS..US and the blank. *)
Definition isspace (c : ascii) : bool :=
  (char_in 9 13 c || char_in 28 32 c)%bool.

Definition isdigit (c : ascii) : bool := char_in 48 57 c.

Definition isupper (c : ascii) : bool := char_in 65 90 c.

Definition isalpha (c : ascii) : bool :=
  (char_in 65 90 c || char_in 97 122 c)%bool.

(** The class [\w]: letters, digits and the underscore. *)
Definition isword (c : ascii) : bool :=
  (isalpha c || isdigit c || Ascii.eqb c "_")%bool.

(** The line boundaries of [str.splitlines]: LF, VT, FF, CR, FS, GS, RS
    (US is a space but not a line boundary). *)
Definition is_linebreak (c : ascii) : bool :=
  (char_in 10 13 c || char_in 28 30 c)%bool.

Definition LF : ascii := ascii_of_nat 10.
Definition CR : ascii := ascii_of_nat 13.

(** The one-character text of a newline. *)
Definition NL : string := String LF EmptyString.

(** [s.splitlines()]; [after_cr] remembers a CR just consumed, so that the
    LF of a CR LF pair ends no second line. *)
Fixpoint splitlines_from (after_cr : bool) (s : string) : list string :=
  match s with
  | EmptyString => []
  | String c s' =>
      if (after_cr && Ascii.eqb c LF)%bool then splitlines_from false s'
      else if is_linebreak c then EmptyString :: splitlines_from (Ascii.eqb c CR) s'
      else match splitlines_from false s' with
           | [] => [String c EmptyString]
           | l :: ls => String c l :: ls
           end
  end.

Definition splitlines (s : string) : list string := splitlines_from false s.

Fixpoint lstrip (s : string) : string :=
  match s with
  | EmptyString => EmptyString
  | String c s' => if isspace c then lstrip s' else s
  end.

Fixpoint rstrip (s : string) : string :=
  match s with
  | EmptyString => EmptyString
  | String c s' =>
      match rstrip s' with
      | EmptyString => if isspace c then EmptyString else String c EmptyString
      | r => String c r
      end
  end.

Definition strip (s : string) : string := rstrip (lstrip s).

(** [s.split()]: the maximal runs of non-space characters. *)
Fixpoint split (s : string) : list string :=
  match s with
  | EmptyString => []
  | String c s' =>
      if isspace c then split s'
      else match s' with
           | EmptyString => [String c EmptyString]
           | String c' _ =>
               if isspace c' then String c EmptyString :: split s'
               else match split s' with
                    | [] => [String c EmptyString]
                    | t :: ts => String c t :: ts
                    end
           end
  end.

Definition lower_char (c : ascii) : ascii :=
  if isupper c then ascii_of_nat (nat_of_ascii c + 32) else c.

Fixpoint lower (s : string) : string :=
  match s with
  | EmptyString => EmptyString
  | String c s' => String (lower_char c) (lower s')
  end.

Definition startswith (s p : string) : bool := String.prefix p s.

(** [needle in hay]. *)
Fixpoint contains (needle hay : string) : bool :=
  match hay with
  | EmptyString => is_empty needle
  | String _ hay' => (String.prefix needle hay || contains needle hay')%bool
  end.

(** [s.split(sep, 1)[0]] for a one-character [sep]. *)
Fixpoint before_char (sep : ascii) (s : string) : string :=
  match s with
  | EmptyString => EmptyString
  | String c s' => if Ascii.eqb c sep then EmptyString else String c (before_char sep s')
  end.

Fixpoint take (n : nat) (s : string) : string :=
  match n, s with
  | S n', String c s' => String c (take n' s')
  | _, _ => EmptyString
  end.

(** [any(k in s for k in keywords)]. *)
Definition any_in (keywords : list string) (s : string) : bool :=
  existsb (fun k => contains k s) keywords.

(** [x in xs] for a list of strings. *)
Definition mem (x : string) (xs : list string) : bool :=
  existsb (String.eqb x) xs.

(** [xs[0]]. *)
Definition index0 {A} (xs : list A) : Exc A :=
  match xs with
  | [] => Raise IndexError
  | x :: _ => Ok x
  end.

(** [f"{n}"] for an integer. *)
Definition str_of_int (n : Z) : string := NilZero.string_of_int (Z.to_int n).

Definition str_of_nat (n : nat) : string := str_of_int (Z.of_nat n).

(** [all(p(c) for c in s)]. *)
Fixpoint all_chars (p : ascii -> bool) (s : string) : bool :=
  match s with
  | EmptyString => true
  | String c s' => (p c && all_chars p s')%bool
  end.

Definition all_digits (s : string) : bool := all_chars isdigit s.

Fixpoint digits_value (acc : Z) (s : string) : Z :=
  match s with
  | EmptyString => acc
  | String c s' => digits_value (10 * acc + (Z.of_nat (nat_of_ascii c) - 48)) s'
  end.

(** [sys.int_info.default_max_str_digits]: the longest decimal text that
    [int] converts (CPython 3.11 and later, and the security releases of
    3.7 to 3.10). *)
Definition int_max_str_digits : nat := 4300.

(** [int(s)] on the texts the modules pass to it.  A non-empty run of
    decimal digits converts, unless it is longer than the interpreter's
    limit; anything else is taken to raise, which is what Python does for
    every text without digits and errs on the side of raising for the
    signed and padded forms Python also accepts. *)
Definition int (s : string) : Exc Z :=
  if (truthy s && all_digits s)%bool then
    if Nat.leb (String.length s) int_max_str_digits then Ok (digits_value 0 s)
    else Raise (ValueError
                  ("Exceeds the limit (4300 digits) for integer string conversion: value has "
                   +++ str_of_nat (String.length s)
                   +++ " digits; use sys.set_int_max_str_digits() to increase the limit"))
  else Raise (ValueError "invalid literal for int() with base 10").

Definition is_nil {A} (xs : list A) : bool :=
  match xs with [] => true | _ :: _ => false end.

(** [xs[-n:]] for a positive [n]. *)
Definition last_n {A} (n : nat) (xs : list A) : list A :=
  skipn (List.length xs - n) xs.

(** *** The [re] module, for the patterns the modules use

    A pattern is a sequence of items: a character class under a greedy
    quantifier, a group bracket, or the end anchor.  Matching backtracks
    in Python's order: a greedy quantifier tries its longest run first. *)
Inductive Item : Type :=
| One (p : ascii -> bool)
| Plus (p : ascii -> bool)
| Star (p : ascii -> bool)
| Opt (p : ascii -> bool)
| GroupStart
| GroupEnd
| Dollar.

Definition lit (c : ascii) : Item := One (Ascii.eqb c).

(** [.] matches anything but a newline. *)
Definition dot (c : ascii) : bool := negb (Ascii.eqb c LF).
Definition nonspace (c : ascii) : bool := negb (isspace c).

Fixpoint greedy {X} (p : ascii -> bool) (k : string -> option X) (s : string) : option X :=
  match s with
  | EmptyString => k EmptyString
  | String c s' =>
      if p c then
        match greedy p k s' with
        | Some x => Some x
        | None => k s
        end
      else k s
  end.

(** [opens] holds the input as it stood at each group still open, [caps]
    the groups closed so far (latest first). *)
Fixpoint rmatch (items : list Item) (s : string) (opens caps : list string)
  : option (list string) :=
  match items with
  | [] => Some (rev caps)
  | One p :: r =>
      match s with
      | String c s' => if p c then rmatch r s' opens caps else None
      | EmptyString => None
      end
  | Plus p :: r =>
      match s with
      | String c s' =>
          if p c then greedy p (fun t => rmatch r t opens caps) s' else None
      | EmptyString => None
      end
  | Star p :: r => greedy p (fun t => rmatch r t opens caps) s
  | Opt p :: r =>
      match s with
      | String c s' =>
          if p c then
            match rmatch r s' opens caps with
            | Some x => Some x
            | None => rmatch r s opens caps
            end
          else rmatch r s opens caps
      | EmptyString => rmatch r s opens caps
      end
  | GroupStart :: r => rmatch r s (s :: opens) caps
  | GroupEnd :: r =>
      match opens with
      | o :: os => rmatch r s os (take (String.length o - String.length s) o :: caps)
      | [] => None
      end
  | Dollar :: r =>
      if (is_empty s || String.eqb s (String LF EmptyString))%bool
      then rmatch r s opens caps else None
  end.

(** [re.match(pattern, s)]: the groups of a match at the start of [s]. *)
Definition re_match (items : list Item) (s : string) : option (list string) :=
  rmatch items s [] [].

(** [re.search(pattern, s)]: the groups of the leftmost match. *)
Fixpoint re_search (items : list Item) (s : string) : option (list string) :=
  match rmatch items s [] [] with
  | Some g => Some g
  | None =>
      match s with
      | EmptyString => None
      | String _ s' => re_search items s'
      end
  end.

End Py.


(* ===================================================================== *)
(** ** modules/base.py *)

Module Base.

Inductive Status : Type := OK | WARN | CRITICAL.

Definition Status_eqb (a b : Status) : bool :=
  match a, b with
  | OK, OK | WARN, WARN | CRITICAL, CRITICAL => true
  | _, _ => false
  end.

(** The table [order] of [Status.worst]. *)
Definition order (s : Status) : Z :=
  match s with
  | OK => 0
  | WARN => 1
  | CRITICAL => 2
  end.

(** [max(xs, key=key)] after its first element: the running maximum is
    replaced only by an element with a strictly larger key. *)
Fixpoint max_from {A} (key : A -> Z) (best : A) (xs : list A) : A :=
  match xs with
  | [] => best
  | x :: r => max_from key (if key best <? key x then x else best) r
  end.

(** [max] of an empty sequence raises [ValueError]. *)
Definition py_max {A} (key : A -> Z) (xs : list A) : Exc A :=
  match xs with
  | [] => Raise (ValueError "max() arg is an empty sequence")
  | x :: r => Ok (max_from key x r)
  end.

Definition worst (statuses : list Status) : Exc Status :=
  py_max order statuses.

(** A compiled pattern, seen through its [search] method: does the pattern
    match somewhere in the text? *)
Record Pattern : Type := mkPattern { search : string -> bool }.

(** The pattern [re.compile(re.escape(needle))]. *)
Definition literal_pattern (needle : string) : Pattern :=
  mkPattern (fun text => Py.contains needle text).

Record IgnoreRules : Type := mkIgnoreRules { patterns : list Pattern }.

Record HealthCheckResult : Type := mkResult {
  status : Status;
  tooltipLines : list string
}.

(** One turn of the loop of [merge] on the buffer [merged_lines]. *)
Definition merge_step (merged_lines : list string) (entry : string * HealthCheckResult)
  : list string :=
  let '(name, result) := entry in
  let merged_lines :=
    match merged_lines with
    | [] => merged_lines
    | _ :: _ => merged_lines ++ [""]
    end in
  let merged_lines := merged_lines ++ [name +++ ":"] in
  merged_lines ++ tooltipLines result.

(** [results] is the dict in its iteration order. *)
Definition merge (results : list (string * HealthCheckResult)) : Exc HealthCheckResult :=
  let merged_lines := fold_left merge_step results [] in
  (st <-! worst (map (fun e => status (snd e)) results) ;;
   Ok (mkResult st merged_lines))%monad.

(** [{Status.OK: ..., Status.WARN: ..., Status.CRITICAL: ...}[status]]. *)
Fixpoint dict_get (d : list (Status * string)) (k : Status) : Exc string :=
  match d with
  | [] => Raise KeyError
  | (k', v) :: r => if Status_eqb k' k then Ok v else dict_get r k
  end.

(** A list comprehension whose element expression may raise. *)
Fixpoint exc_map {A B} (f : A -> Exc B) (l : list A) : Exc (list B) :=
  match l with
  | [] => Ok []
  | a :: r =>
      (b <-! f a ;;
       bs <-! exc_map f r ;;
       Ok (b :: bs))%monad
  end.

(** [HealthCheckModule.__init__]: no rules means an empty set. *)
Definition init_ignore_rules (ignore_rules : option IgnoreRules) : IgnoreRules :=
  match ignore_rules with
  | Some r => r
  | None => mkIgnoreRules []
  end.

Definition is_ignored (ignore_rules : IgnoreRules) (text : string) : bool :=
  existsb (fun r => search r text) (patterns ignore_rules).

(** The merge as the specification words it: for each entry in order, a
    blank separator (not before the first), the header, the entry's lines. *)
Fixpoint spec_merge_lines (first : bool) (results : list (string * HealthCheckResult))
  : list string :=
  match results with
  | [] => []
  | (name, result) :: rest =>
      (if first then [] else [""]) ++ [name +++ ":"] ++ tooltipLines result
        ++ spec_merge_lines false rest
  end.

End Base.

(* ===================================================================== *)
(** ** modules/utils.py *)

Module Utils.

(** [run(cmd)]: the next call of the world's [subprocess.run].  An
    argument that holds a NUL character makes [subprocess.run] raise a
    [ValueError] before it looks for the executable; [run] catches
    [FileNotFoundError] only. *)
Definition run (cmd : list string) : M (Z * string * string) :=
  fun w n =>
    if existsb Py.has_nul cmd then Raise (ValueError "embedded null byte")
    else
      match subprocess_run w n cmd with
      | Completed returncode stdout stderr => Ok ((returncode, stdout, stderr), S n)
      | FileNotFoundError =>
          match Py.index0 cmd with
          | Ok c0 => Ok ((127, "", "Command not found: " +++ c0), S n)
          | Raise e => Raise e
          end
      end.

Definition format_command_error (cmd_name : string) (code : Z) (stdout stderr : string)
  : list string :=
  let lines := [cmd_name +++ " failed with code " +++ Py.str_of_int code] in
  let lines :=
    if Py.truthy (Py.strip stderr)
    then (lines ++ ["stderr:"])
           ++ map (fun ln => "  " +++ ln) (Py.splitlines (Py.strip stderr))
    else lines in
  let lines :=
    if Py.truthy (Py.strip stdout)
    then (lines ++ ["stdout:"])
           ++ map (fun ln => "  " +++ ln) (Py.splitlines (Py.strip stdout))
    else lines in
  lines.

(** [d[k].append(v)], with [d[k] = []] first when [k] is new. *)
Fixpoint dict_append (d : list (string * list Base.Pattern)) (k : string) (v : Base.Pattern)
  : list (string * list Base.Pattern) :=
  match d with
  | [] => [(k, [v])]
  | (k', vs) :: r =>
      if String.eqb k' k then (k', vs ++ [v]) :: r else (k', vs) :: dict_append r k v
  end.

(** The pattern [^(\w+):(.+)$]. *)
Definition rule_pattern : list Py.Item :=
  [ Py.GroupStart; Py.Plus Py.isword; Py.GroupEnd; Py.lit ":";
    Py.GroupStart; Py.Plus Py.dot; Py.GroupEnd; Py.Dollar ].

(** [m.group(i)] for [i >= 1]. *)
Definition match_group (m : list string) (i : nat) : Exc string :=
  match nth_error m (i - 1) with
  | Some g => Ok g
  | None => Raise IndexError
  end.

(** What [re.compile(pattern)] does: the compiled pattern, an [re.error]
    with its text, or an exception of another class (an [OverflowError] for
    a repetition count beyond the engine's limit, for one). *)
Inductive CompileOutcome : Type :=
| Compiled (compiled : Base.Pattern)
| ReError (text : string)
| CompileRaises (e : exn).

Section IgnoreFile.

Variable re_compile : string -> CompileOutcome.

(** The body of the loop of [parse_ignore_file] on line [line_num]: nothing
    for a blank line or a comment, else the module and its compiled
    pattern. *)
Definition ignore_line (known_modules : list string) (line_num : nat) (raw : string)
  : Exc (option (string * Base.Pattern)) :=
  let line := Py.strip raw in
  if (negb (Py.truthy line) || Py.startswith line "#")%bool then Ok None
  else
    match Py.re_match rule_pattern line with
    | None =>
        Raise (ValueError ("Line " +++ Py.str_of_nat line_num +++ ": Invalid format '"
                           +++ line +++ "'. Expected 'module:<regex>'"))
    | Some m =>
        (g1 <-! match_group m 1 ;;
         g2 <-! match_group m 2 ;;
         let module := Py.strip g1 in
         let pattern := Py.strip g2 in
         if negb (Py.mem module known_modules) then
           Raise (ValueError ("Line " +++ Py.str_of_nat line_num +++ ": Unknown module '"
                              +++ module +++ "'. Known modules: "
                              +++ String.concat ", " known_modules))
         else
           match re_compile pattern with
           | Compiled compiled => Ok (Some (module, compiled))
           | ReError e =>
               Raise (ValueError ("Line " +++ Py.str_of_nat line_num
                                  +++ ": Invalid regex pattern '" +++ pattern
                                  +++ "': " +++ e))
           | CompileRaises e => Raise e
           end)%monad
    end.

Fixpoint ignore_loop (known_modules : list string) (lines : list string) (line_num : nat)
    (rules_by_module : list (string * list Base.Pattern))
  : Exc (list (string * list Base.Pattern)) :=
  match lines with
  | [] => Ok rules_by_module
  | raw :: rest =>
      (r <-! ignore_line known_modules line_num raw ;;
       match r with
       | None => ignore_loop known_modules rest (S line_num) rules_by_module
       | Some (module, compiled) =>
           ignore_loop known_modules rest (S line_num)
             (dict_append rules_by_module module compiled)
       end)%monad
  end.

(** [file] is the text of the ignore file, or [None] when there is no
    such file; reading an existing file is taken to succeed. *)
Definition parse_ignore_file (file : option string) (known_modules : list string)
  : Exc (list (string * Base.IgnoreRules)) :=
  match file with
  | None => Ok []
  | Some text =>
      (rules_by_module <-! ignore_loop known_modules (Py.splitlines text) 1 [] ;;
       Ok (map (fun entry => (fst entry, Base.mkIgnoreRules (snd entry))) rules_by_module))%monad
  end.

End IgnoreFile.

End Utils.

(* ===================================================================== *)
(** ** modules/disk.py *)

Module Disk.
Import Base.

Record MountThreshold : Type := mkMountThreshold {
  path : string;
  warn_percent : Q;
  critical_percent : Q
}.

(** [0 <= x <= 100]. *)
Definition in_percent_range (x : Q) : bool :=
  (Qle_bool 0 x && Qle_bool x 100)%bool.

(** [a > b]. *)
Definition Qgt_bool (a b : Q) : bool := negb (Qle_bool a b).

(** The dataclass constructor: the fields are stored, then
    [__post_init__] validates them. *)
Definition MountThreshold_init (path : string) (warn_percent critical_percent : Q)
  : Exc MountThreshold :=
  let self := mkMountThreshold path warn_percent critical_percent in
  if negb (Py.truthy path) then
    Raise (ValueError "mountpoint path must be set")
  else if negb (in_percent_range warn_percent) then
    Raise (ValueError (path +++ ": warn threshold must be between 0 and 100"))
  else if negb (in_percent_range critical_percent) then
    Raise (ValueError (path +++ ": critical threshold must be between 0 and 100"))
  else if Qgt_bool warn_percent critical_percent then
    Raise (ValueError (path +++ ": warn threshold cannot exceed critical threshold"))
  else Ok self.

Record DiskModule : Type := mkDiskModule {
  ignore_rules : IgnoreRules;
  mount_thresholds : list MountThreshold;
  config_error : option string
}.


(** Rounding of a rational to the nearest integer, ties to even. *)
Definition round_half_even (q : Q) : Z :=
  let f := Qfloor q in
  match Qcompare (q - inject_Z f) (1 # 2) with
  | Lt => f
  | Gt => f + 1
  | Eq => if Z.even f then f else f + 1
  end.

(** [f"{q:.1f}"]. *)
Definition format_1f (q : Q) : string :=
  let t := round_half_even (Qabs q * 10) in
  let body := Py.str_of_int (t / 10) +++ "." +++ Py.str_of_int (t mod 10) in
  if Qgt_bool 0 q then "-" +++ body else body.

Definition disk_usage (path : string) : M UsageOutcome :=
  fun w n => Ok (shutil_disk_usage w n path, S n).

Section Floats.

(** The rounding of an exact result to the nearest float. *)
Variable fround : Q -> Q.

Definition used_percent_of (total free : Z) : Q :=
  fround (fround (inject_Z (total - free) / inject_Z total) * 100).

Definition verdict (used_percent : Q) (cfg : MountThreshold) : Status :=
  if Qle_bool (critical_percent cfg) used_percent then CRITICAL
  else if Qle_bool (warn_percent cfg) used_percent then WARN
  else OK.

(** The body of the loop of [check] on the two buffers. *)
Definition check_mount (cfg : MountThreshold) (acc : list string * list Status)
  : M (list string * list Status) :=
  let '(lines, mount_statuses) := acc in
  (usage <- disk_usage (path cfg) ;;
   match usage with
   | UsageValueError exc => raise (ValueError exc)
   | UsageFileNotFound =>
       ret (lines ++ [path cfg +++ ": not found (warn)"], mount_statuses ++ [WARN])
   | UsagePermissionError =>
       ret (lines ++ [path cfg +++ ": permission denied"], mount_statuses ++ [WARN])
   | UsageOSError exc =>
       ret (lines ++ [path cfg +++ ": error reading usage (" +++ exc +++ ")"],
            mount_statuses ++ [WARN])
   | Usage total _ free =>
       if total <=? 0 then
         ret (lines ++ [path cfg +++ ": unable to determine size"], mount_statuses ++ [WARN])
       else
         let used_percent := used_percent_of total free in
         let status := verdict used_percent cfg in
         let mount_statuses := mount_statuses ++ [status] in
         let free_gib := fround (inject_Z free / inject_Z (1024 ^ 3)) in
         let total_gib := fround (inject_Z total / inject_Z (1024 ^ 3)) in
         marker <- lift (dict_get [(OK, "✓"); (WARN, "!"); (CRITICAL, "✗")] status) ;;
         ret (lines ++
                ["[" +++ marker +++ "] " +++ path cfg +++ ": " +++ format_1f used_percent
                 +++ "% used (" +++ format_1f free_gib +++ "/" +++ format_1f total_gib
                 +++ " GiB free) (warn " +++ format_1f (warn_percent cfg)
                 +++ "%, crit " +++ format_1f (critical_percent cfg) +++ "%)"],
              mount_statuses)
   end)%monad.

Fixpoint check_loop (cfgs : list MountThreshold) (acc : list string * list Status)
  : M (list string * list Status) :=
  match cfgs with
  | [] => ret acc
  | cfg :: rest => bind (check_mount cfg acc) (check_loop rest)
  end.

Definition check_mounts (self : DiskModule) : M HealthCheckResult :=
  match mount_thresholds self with
  | [] =>
      ret (mkResult WARN ["Disk usage: no mountpoints configured";
                          "Configure mounts in disk.json (see README)"])
  | _ :: _ =>
      (acc <- check_loop (mount_thresholds self) ([], []) ;;
       let '(lines, mount_statuses) := acc in
       overall_status <- lift (worst mount_statuses) ;;
       ret (mkResult overall_status lines))%monad
  end.

Definition check (self : DiskModule) : M HealthCheckResult :=
  match config_error self with
  | Some e =>
      if Py.truthy e then
        ret (mkResult WARN ["Disk usage: invalid configuration"; "  " +++ e])
      else check_mounts self
  | None => check_mounts self
  end.

End Floats.

End Disk.

(* ===================================================================== *)
(** ** modules/smart.py *)

Module Smart.
Import Base.

Record SmartDevice : Type := mkSmartDevice {
  path : string;
  device_type : option string
}.

Definition SMARTCTL_EXIT_BITS : list (Z * Status * string) :=
  [ (1, WARN, "smartctl: command line did not parse");
    (2, WARN, "smartctl: failed to open device");
    (4, WARN, "smartctl: SMART command failed");
    (8, CRITICAL, "SMART overall-health self-assessment reported failure");
    (16, CRITICAL, "At least one prefailure attribute is below threshold");
    (32, CRITICAL, "At least one usage attribute is below threshold");
    (64, CRITICAL, "SMART self-test log contains errors");
    (128, WARN, "A previous selective self-test is pending completion") ].

(** One turn of the loop of [parse_scan_output]. *)
Definition scan_line (devices : list SmartDevice) (raw : string) : list SmartDevice :=
  let line := Py.strip raw in
  if (negb (Py.truthy line) || Py.startswith line "#")%bool then devices
  else
    let line :=
      if Py.contains "#" line then Py.strip (Py.before_char "#" line) else line in
    if negb (Py.truthy line) then devices
    else
      match Py.split line with
      | [] => devices
      | path :: rest =>
          let device_type :=
            match rest with
            | t1 :: t2 :: _ => if String.eqb t1 "-d" then Some t2 else None
            | _ => None
            end in
          devices ++ [mkSmartDevice path device_type]
      end.

Definition parse_scan_output (output : string) : list SmartDevice :=
  fold_left scan_line (Py.splitlines output) [].

(** [code & bit] is the bitwise and of two's-complement integers. *)
Definition _decode_exit_bits (code : Z) : list (Status * string) :=
  fold_left
    (fun lines entry =>
       let '(bit, status, message) := entry in
       if negb (Z.land code bit =? 0) then lines ++ [(status, message)] else lines)
    SMARTCTL_EXIT_BITS [].

(** [if health_line:] holds for a line that is present and not empty. *)
Definition present (health_line : option string) : option string :=
  match health_line with
  | Some h => if Py.truthy h then Some h else None
  | None => None
  end.

Definition _status_from_exit_and_health (exit_messages : list (Status * string))
    (health_line : option string) : Exc Status :=
  let statuses :=
    match map fst exit_messages with
    | [] => [OK]
    | l => l
    end in
  let statuses :=
    match present health_line with
    | Some h =>
        let summary := Py.lower h in
        if Py.any_in ["fail"; "fault"; "corrupt"] summary then statuses ++ [CRITICAL]
        else if Py.any_in ["unknown"; "n/a"; "not supported"] summary then statuses ++ [WARN]
        else if Py.any_in ["pass"; "ok"; "good"] summary then statuses ++ [OK]
        else statuses ++ [WARN]
    | None => statuses
    end in
  worst statuses.

Fixpoint extract_from_lines (lines : list string) : option string :=
  match lines with
  | [] => None
  | line :: rest =>
      let stripped := Py.strip line in
      if negb (Py.truthy stripped) then extract_from_lines rest
      else
        let line_lower := Py.lower stripped in
        if (Py.contains "smart" line_lower
            && (Py.contains "health" line_lower
                || Py.contains "overall" line_lower
                || Py.contains "self-assessment" line_lower))%bool
        then Some stripped
        else extract_from_lines rest
  end.

Definition _extract_health_line (text : string) : option string :=
  extract_from_lines (Py.splitlines text).

Definition _summarize_health (health_line : option string) (status : Status) : Exc string :=
  match present health_line with
  | Some h => Ok h
  | None =>
      dict_get [(OK, "SMART status OK"); (WARN, "SMART status uncertain");
                (CRITICAL, "SMART reports failure")] status
  end.

(** [a or b] on two optional lines. *)
Definition or_else (a b : option string) : option string :=
  match present a with
  | Some h => Some h
  | None => b
  end.

(** [_check_device] once [run] has answered. *)
Definition check_device_of (device : SmartDevice) (answer : Z * string * string)
  : Exc (Status * list string) :=
  let '(code, out, err) := answer in
  if code =? 127 then
    Ok (WARN, [path device +++ ": smartctl command not found (unexpected during check)"])
  else
    let exit_messages := _decode_exit_bits code in
    let health_line := or_else (_extract_health_line out) (_extract_health_line err) in
    (status <-! _status_from_exit_and_health exit_messages health_line ;;
     summary <-! _summarize_health health_line status ;;
     marker <-! dict_get [(OK, "✓"); (WARN, "!"); (CRITICAL, "✗")] status ;;
     let lines := ["[" +++ marker +++ "] " +++ path device +++ ": " +++ summary] in
     bit_lines <-! exc_map
       (fun m : Status * string =>
          prefix <-! dict_get [(OK, "info"); (WARN, "warn"); (CRITICAL, "crit")] (fst m) ;;
          Ok ("  - (" +++ prefix +++ ") " +++ snd m))
       exit_messages ;;
     let lines := lines ++ bit_lines in
     let lines :=
       if (negb (code =? 0) && Py.is_nil exit_messages
           && (Py.truthy (Py.strip err) || negb (Py.truthy (Py.strip out))))%bool
       then lines ++ Utils.format_command_error "sudo smartctl -a" code out err
       else if (Py.truthy (Py.strip err) && (code =? 0))%bool
       then (lines ++ ["  stderr:"])
              ++ map (fun ln => "    " +++ ln) (Py.splitlines (Py.strip err))
       else lines in
     Ok (status, lines))%monad.

Definition _check_device (device : SmartDevice) : M (Status * list string) :=
  (answer <- Utils.run ["sudo"; "smartctl"; "-a"; path device] ;;
   lift (check_device_of device answer))%monad.

Definition check (ignore_rules : IgnoreRules) : M HealthCheckResult :=
  (answer <- Utils.run ["sudo"; "smartctl"; "--scan-open"] ;;
   let '(scan_code, scan_out, scan_err) := answer in
   if scan_code =? 127 then
     ret (mkResult WARN ["SMART: smartctl command not found";
                         "Install smartmontools to enable SMART health checks."])
   else
     let devices :=
       filter (fun dev => negb (is_ignored ignore_rules (path dev)))
              (parse_scan_output scan_out) in
     match devices with
     | [] =>
         let lines := ["SMART: no devices detected via 'smartctl --scan-open'"] in
         err_line <- lift (Py.index0 (match Py.splitlines (Py.strip scan_err) with
                                      | [] => [""]
                                      | l => l
                                      end)) ;;
         let lines := if Py.truthy err_line then lines ++ ["  " +++ err_line] else lines in
         let lines := lines ++ ["Make sure your sudo permissions are set per the README.md"] in
         ret (mkResult WARN lines)
     | _ :: _ =>
         results <- mapM _check_device devices ;;
         st <- lift (worst (map fst results)) ;;
         ret (mkResult st (List.concat (map snd results)))
     end)%monad.

End Smart.

(* ===================================================================== *)
(** ** modules/systemd.py *)

Module Systemd.
Import Base.

Definition max_tooltip_units : nat := 10.

(** [a or b or c] on texts. *)
Definition first_truthy (a b c : string) : string :=
  if Py.truthy a then a else if Py.truthy b then b else c.

(** [_state_result] once [run] has answered. *)
Definition state_result_of (user : bool) (answer : Z * string * string)
  : Exc HealthCheckResult :=
  let label := if user then " --user" else "" in
  let '(code, out, err) := answer in
  if code =? 127 then Ok (mkResult WARN ["systemctl missing"])
  else
    (first <-! Py.index0
       (Py.splitlines (first_truthy (Py.strip out) (Py.strip err) "unknown")) ;;
     let state := Py.strip first in
     let status :=
       if Py.mem state ["degraded"; "maintenance"; "failed"] then CRITICAL
       else if (Py.mem state ["starting"; "unknown"] || (code >? 0))%bool then WARN
       else OK in
     Ok (mkResult status ["systemd (" +++ label +++ "): " +++ state]))%monad.

Definition systemctl (user : bool) (args : list string) : list string :=
  (["systemctl"] ++ (if user then ["--user"] else [])) ++ args.

Definition _state_result (user : bool) : M HealthCheckResult :=
  (answer <- Utils.run (systemctl user ["is-system-running"]) ;;
   lift (state_result_of user answer))%monad.

(** The loop of [_failed_units_result] over the lines of stdout. *)
Fixpoint collect_units (ignore_rules : IgnoreRules) (lines units : list string)
  : Exc (list string) :=
  match lines with
  | [] => Ok units
  | line :: rest =>
      let line := Py.strip line in
      if negb (Py.truthy line) then collect_units ignore_rules rest units
      else
        (unit <-! Py.index0 (Py.split line) ;;
         if negb (is_ignored ignore_rules unit)
         then collect_units ignore_rules rest (units ++ [unit])
         else collect_units ignore_rules rest units)%monad
  end.

Definition failed_units_result_of (ignore_rules : IgnoreRules) (user : bool)
    (answer : Z * string * string) : Exc HealthCheckResult :=
  let label := if user then " --user" else "" in
  let '(code, out, err) := answer in
  if code =? 127 then Ok (mkResult WARN ["systemctl missing"])
  else if negb (code =? 0) then
    Ok (mkResult WARN
          (Utils.format_command_error ("systemctl" +++ label +++ " --failed") code out err))
  else
    (units <-! collect_units ignore_rules (Py.splitlines out) [] ;;
     match units with
     | _ :: _ =>
         let lines := ["Failed units:"] in
         let lines := lines ++ map (fun u => "  • " +++ u) (firstn max_tooltip_units units) in
         let lines :=
           if Nat.ltb max_tooltip_units (List.length units)
           then lines ++ ["  … (+" +++ Py.str_of_nat (List.length units - max_tooltip_units)
                          +++ " more)"]
           else lines in
         Ok (mkResult CRITICAL lines)
     | [] => Ok (mkResult OK ["Failed units: none"])
     end)%monad.

Definition _failed_units_result (ignore_rules : IgnoreRules) (user : bool)
  : M HealthCheckResult :=
  (answer <- Utils.run (systemctl user ["--failed"; "--no-legend"; "--plain"]) ;;
   lift (failed_units_result_of ignore_rules user answer))%monad.

Definition check (ignore_rules : IgnoreRules) : M HealthCheckResult :=
  (system_state <- _state_result false ;;
   user_state <- _state_result true ;;
   system_failed <- _failed_units_result ignore_rules false ;;
   user_failed <- _failed_units_result ignore_rules true ;;
   lift (merge [ ("## System state", system_state);
                 ("## User state", user_state);
                 ("## Failed (system)", system_failed);
                 ("## Failed (user)", user_failed) ]))%monad.

End Systemd.

(* ===================================================================== *)
(** ** modules/journal.py *)

Module Journal.
Import Base.

Definition max_tooltip_lines : nat := 15.

Definition nonblank (ln : string) : bool := Py.truthy (Py.strip ln).

(** [check] once [run] has answered. *)
Definition check_of (ignore_rules : IgnoreRules) (answer : Z * string * string)
  : Exc HealthCheckResult :=
  let '(code, out, err) := answer in
  if code =? 127 then Ok (mkResult WARN ["journalctl missing"])
  else if (negb (code =? 0) && negb (Py.truthy (Py.strip out)))%bool then
    (note <-! Py.index0
       (Py.splitlines (if Py.truthy (Py.strip err) then Py.strip err
                       else "cannot read journal")) ;;
     Ok (mkResult WARN
           ["Journal errors (err..emerg): (not readable)"; "  " +++ note; "";
            "Tip: add user to systemd-journal group, then re-login."]))%monad
  else
    let lines_all := filter nonblank (Py.splitlines out) in
    let lines_filtered := filter (fun ln => negb (is_ignored ignore_rules ln)) lines_all in
    let count := List.length lines_filtered in
    let recent := Py.last_n max_tooltip_lines lines_filtered in
    if Nat.eqb count 0 then Ok (mkResult OK ["No errors found in journal"])
    else
      let details := ["Journal errors (err..emerg): " +++ Py.str_of_nat count] in
      let details :=
        match recent with
        | _ :: _ =>
            let details := (details ++ [""; "Most recent:"])
                             ++ map (fun ln => "  " +++ ln) recent in
            if Nat.ltb (List.length recent) count
            then details ++ ["  … (+" +++ Py.str_of_nat (count - List.length recent)
                             +++ " more)"]
            else details
        | [] => details
        end in
      Ok (mkResult CRITICAL details).

Definition check (ignore_rules : IgnoreRules) : M HealthCheckResult :=
  (answer <- Utils.run ["journalctl"; "-b"; "-p"; "err..emerg"; "--no-pager";
                        "-o"; "short-iso"] ;;
   lift (check_of ignore_rules answer))%monad.

End Journal.

(* ===================================================================== *)
(** ** modules/btrfs.py *)

Module Btrfs.
Import Base.

Definition max_tooltip_lines : nat := 12.

(** The pattern [^\[.+\]\.(\S+)\s+(\d+)$] (used with [re.match], which
    anchors at the start by itself). *)
Definition counter_pattern : list Py.Item :=
  [ Py.lit "["; Py.Plus Py.dot; Py.lit "]"; Py.lit ".";
    Py.GroupStart; Py.Plus Py.nonspace; Py.GroupEnd;
    Py.Plus Py.isspace;
    Py.GroupStart; Py.Plus Py.isdigit; Py.GroupEnd;
    Py.Dollar ].

(** The pattern [(\w+_errors?):\s*(\d+)]. *)
Definition scrub_pattern : list Py.Item :=
  [ Py.GroupStart; Py.Plus Py.isword;
    Py.lit "_"; Py.lit "e"; Py.lit "r"; Py.lit "r"; Py.lit "o"; Py.lit "r";
    Py.Opt (Ascii.eqb "s"); Py.GroupEnd;
    Py.lit ":"; Py.Star Py.isspace;
    Py.GroupStart; Py.Plus Py.isdigit; Py.GroupEnd ].

(** [m.group(i)] for [i >= 1]. *)
Definition group (m : list string) (i : nat) : Exc string :=
  match nth_error m (i - 1) with
  | Some g => Ok g
  | None => Raise IndexError
  end.

Definition detect_root_fstype : M string :=
  (answer <- Utils.run ["findmnt"; "-n"; "-o"; "FSTYPE"; "/"] ;;
   let '(code, out, _) := answer in
   if ((code =? 0) && Py.truthy (Py.strip out))%bool then ret (Py.strip out)
   else
     answer <- Utils.run ["stat"; "-f"; "-c"; "%T"; "/"] ;;
     let '(code, out, _) := answer in
     if ((code =? 0) && Py.truthy (Py.strip out))%bool then ret (Py.strip out)
     else ret "unknown")%monad.

(** The three variables of the loop of [device_stats]. *)
Record Counters : Type := mkCounters {
  nonzero : nat;
  interesting : list string;
  parse_err : bool
}.

(** One turn of that loop. *)
Definition stats_line (ignore_rules : IgnoreRules) (acc : Counters) (ln : string)
  : Exc Counters :=
  let ln := Py.strip ln in
  if negb (Py.truthy ln) then Ok acc
  else if is_ignored ignore_rules ln then Ok acc
  else
    match Py.re_match counter_pattern ln with
    | Some m =>
        (metric <-! group m 1 ;;
         digits <-! group m 2 ;;
         val <-! Py.int digits ;;
         if negb (val =? 0)
         then Ok (mkCounters (nonzero acc + 1) (interesting acc ++ [ln]) (parse_err acc))
         else Ok acc)%monad
    | None =>
        Ok (mkCounters (nonzero acc)
              (interesting acc ++ ["couldn't parse this line: " +++ ln]) true)
    end.

Fixpoint stats_loop (ignore_rules : IgnoreRules) (lines : list string) (acc : Counters)
  : Exc Counters :=
  match lines with
  | [] => Ok acc
  | ln :: rest => exc_bind (stats_line ignore_rules acc ln) (stats_loop ignore_rules rest)
  end.

(** [device_stats] from the lines of a successful command onwards. *)
Definition device_stats_lines (ignore_rules : IgnoreRules) (lines : list string)
  : Exc HealthCheckResult :=
  (acc <-! stats_loop ignore_rules lines (mkCounters 0 [] false) ;;
   let status :=
     if Nat.ltb 0 (nonzero acc) then CRITICAL
     else if parse_err acc then WARN
     else OK in
   let details := ["non-zero counters: " +++ Py.str_of_nat (nonzero acc)] in
   let details :=
     details ++ map (fun ln => "  " +++ ln) (firstn max_tooltip_lines (interesting acc)) in
   let details := if Nat.eqb (nonzero acc) 0 then details ++ ["  (none)"] else details in
   Ok (mkResult status details))%monad.

(** [device_stats] once [run] has answered. *)
Definition device_stats_of (ignore_rules : IgnoreRules) (answer : Z * string * string)
  : Exc HealthCheckResult :=
  let '(code, out, err) := answer in
  if code =? 127 then Ok (mkResult WARN ["btrfs-progs missing"])
  else if negb (code =? 0) then
    Ok (mkResult WARN (Utils.format_command_error "btrfs device stats" code out err))
  else device_stats_lines ignore_rules (Py.splitlines out).

Definition device_stats (ignore_rules : IgnoreRules) : M HealthCheckResult :=
  (answer <- Utils.run ["btrfs"; "device"; "stats"; "/"] ;;
   lift (device_stats_of ignore_rules answer))%monad.

(** [d[k] = v] on a dict kept in insertion order. *)
Fixpoint dict_set (d : list (string * Z)) (k : string) (v : Z) : list (string * Z) :=
  match d with
  | [] => [(k, v)]
  | (k', v') :: r => if String.eqb k' k then (k', v) :: r else (k', v') :: dict_set r k v
  end.

(** The order of [(key, count)] tuples. *)
Definition item_leb (a b : string * Z) : bool :=
  match String.compare (fst a) (fst b) with
  | Lt => true
  | Gt => false
  | Eq => snd a <=? snd b
  end.

Fixpoint insert_sorted (x : string * Z) (l : list (string * Z)) : list (string * Z) :=
  match l with
  | [] => [x]
  | y :: r => if item_leb x y then x :: l else y :: insert_sorted x r
  end.

Definition sorted (l : list (string * Z)) : list (string * Z) :=
  fold_right insert_sorted [] l.

(** The loop of [scrub_status] that fills [error_counts]. *)
Fixpoint scan_errors (lines : list string) (error_counts : list (string * Z))
  : Exc (list (string * Z)) :=
  match lines with
  | [] => Ok error_counts
  | ln :: rest =>
      match Py.re_search scrub_pattern ln with
      | Some m =>
          (error_type <-! group m 1 ;;
           digits <-! group m 2 ;;
           count <-! Py.int digits ;;
           scan_errors rest (dict_set error_counts error_type count))%monad
      | None => scan_errors rest error_counts
      end
  end.

(** [scrub_status] once [run] has answered. *)
Definition scrub_status_of (ignore_rules : IgnoreRules) (answer : Z * string * string)
  : Exc HealthCheckResult :=
  let '(code, out, err) := answer in
  if code =? 127 then Ok (mkResult WARN ["btrfs-progs missing"])
  else if negb (code =? 0) then
    Ok (mkResult WARN (Utils.format_command_error "btrfs scrub status" code out err))
  else
    let lines := map Py.rstrip (filter (fun ln => Py.truthy (Py.strip ln)) (Py.splitlines out)) in
    let lines := filter (fun ln => negb (is_ignored ignore_rules ln)) lines in
    (error_counts <-! scan_errors lines [] ;;
     let total_errors := fold_left Z.add (map snd error_counts) 0 in
     let status :=
       if total_errors >? 0 then CRITICAL
       else if Py.is_nil error_counts then WARN
       else OK in
     let details :=
       match error_counts with
       | _ :: _ =>
           ["scrub errors: " +++ Py.str_of_int total_errors]
             ++ map (fun item => " - " +++ fst item +++ ": " +++ Py.str_of_int (snd item))
                    (filter (fun item => snd item >? 0) (sorted error_counts))
       | [] => ["unable to parse scrub output"]
       end in
     Ok (mkResult status details))%monad.

Definition scrub_status (ignore_rules : IgnoreRules) : M HealthCheckResult :=
  (answer <- Utils.run ["btrfs"; "scrub"; "status"; "-R"; "/"] ;;
   lift (scrub_status_of ignore_rules answer))%monad.

Definition check (ignore_rules : IgnoreRules) : M HealthCheckResult :=
  (fstype <- detect_root_fstype ;;
   if negb (String.eqb fstype "btrfs") then
     ret (mkResult WARN ["(root is '" +++ fstype +++ "', not btrfs. check your config)"])
   else
     stats <- device_stats ignore_rules ;;
     scrub <- scrub_status ignore_rules ;;
     lift (merge [("## Device stats", stats); ("## Scrub", scrub)]))%monad.

End Btrfs.

(* ===================================================================== *)
(** ** waybar-system-health.py *)

Module Main.
Import Base.

(** [Status.value]. *)
Definition value (s : Status) : string :=
  match s with
  | OK => "ok"
  | WARN => "warn"
  | CRITICAL => "critical"
  end.

(** The object that [main] prints. *)
Record Payload : Type := mkPayload {
  text : string;
  tooltip : string;
  class : string
}.

(** [d.get(k)]. *)
Fixpoint dict_get_opt (d : list (string * IgnoreRules)) (k : string) : option IgnoreRules :=
  match d with
  | [] => None
  | (k', v) :: r => if String.eqb k' k then Some v else dict_get_opt r k
  end.

(** [main] from the merge of the module results onwards. *)
Definition make_payload (results : list (string * HealthCheckResult)) : Exc Payload :=
  (merged <-! merge (map (fun e => ("# " +++ fst e, snd e)) results) ;;
   let text :=
     if Status_eqb (status merged) OK then "✓"
     else
       let non_ok_statuses :=
         map (fun e => fst e +++ ":" +++ value (status (snd e)))
             (filter (fun e => negb (Status_eqb (status (snd e)) OK)) results) in
       "⚠ " +++ String.concat " " non_ok_statuses in
   let tooltip := String.concat Py.NL (tooltipLines merged) in
   Ok (mkPayload text tooltip (value (status merged))))%monad.

Section Program.

Variable re_compile : string -> Utils.CompileOutcome.
Variable fround : Q -> Q.


End Program.

End Main.

(* ===================================================================== *)
(** * Specification vocabulary

    The predicates and worlds in which the properties below are stated. *)

Import Base.
Import Disk.
Import Smart.
Import Systemd.
Import Btrfs.

(** What makes a severity the maximum of a list. *)
Definition is_max (m : Status) (l : list Status) : Prop :=
  In m l /\ forall s, In s l -> order s <= order m.

(** The severities of a mapping, in its iteration order. *)
Definition statuses_of (results : list (string * HealthCheckResult)) : list Status :=
  map (fun e => status (snd e)) results.

(** The pair that bit number [k] of the table contributes. *)
Definition bit_entry (k : nat) : list (Status * string) :=
  match nth_error SMARTCTL_EXIT_BITS k with
  | Some (_, st, message) => [(st, message)]
  | None => []
  end.


(** The two sets of states that the state sub-check tells apart. *)
Definition critical_states : list string := ["degraded"; "maintenance"; "failed"].
Definition warning_states : list string := ["starting"; "unknown"].








(** The text has at most [N] characters. *)
Definition bounded (N : nat) (s : string) : Prop := (String.length s <= N)%nat.

(** Every line of the output is within the limit of [int]. *)
Definition short_lines (out : string) : Prop :=
  Forall (bounded Py.int_max_str_digits) (Py.splitlines out).

(** The value of a line that matches the counter pattern. *)
Definition counter_value (ln : string) : option Z :=
  match Py.re_match counter_pattern ln with
  | Some m =>
      match group m 2 with
      | Ok digits => match Py.int digits with Ok v => Some v | Raise _ => None end
      | Raise _ => None
      end
  | None => None
  end.

(** A line that leaves the three loop variables as they are: blank,
    ignored, or a counter at zero. *)
Definition harmless (rules : IgnoreRules) (ln : string) : Prop :=
  Py.strip ln = "" \/ is_ignored rules (Py.strip ln) = true \/
  counter_value (Py.strip ln) = Some 0.

(** [short_lines], decided. *)
Definition short_linesb (out : string) : bool :=
  forallb (fun ln => Nat.leb (String.length ln) Py.int_max_str_digits) (Py.splitlines out).









(** The digits of the counter that a line of device-stats output carries. *)
Definition stats_digits (ln : string) : option string :=
  match Py.re_match counter_pattern (Py.strip ln) with
  | Some m => match group m 2 with Ok digits => Some digits | Raise _ => None end
  | None => None
  end.

(** The digits of the count that a line of scrub output carries. *)
Definition scrub_digits (ln : string) : option string :=
  match Py.re_search scrub_pattern (Py.rstrip ln) with
  | Some m => match group m 2 with Ok digits => Some digits | Raise _ => None end
  | None => None
  end.

(** The digits, if there are any, are within the limit of [int]. *)
Definition fits (digits : option string) : Prop :=
  match digits with
  | Some d => bounded Py.int_max_str_digits d
  | None => True
  end.

(** No line of the output carries a counter beyond the limit of [int]. *)
Definition counters_fit (out : string) : Prop :=
  Forall (fun ln => fits (stats_digits ln) /\ fits (scrub_digits ln)) (Py.splitlines out).

(** No output of the world does. *)
Definition counters_fit_world (w : World) : Prop :=
  forall n cmd code out err,
    subprocess_run w n cmd = Completed code out err -> counters_fit out.

(** An answer of [run] in the world [w]: what some command left, or the
    answer for a missing executable, whose stdout is empty. *)
Definition world_answer (w : World) (answer : Z * string * string) : Prop :=
  snd (fst answer) = "" \/
  exists n cmd,
    subprocess_run w n cmd = Completed (fst (fst answer)) (snd (fst answer)) (snd answer).






(** The lines of stdout that the log module counts. *)
Definition journal_kept (rules : IgnoreRules) (out : string) : list string :=
  filter (fun ln => negb (is_ignored rules ln))
         (filter Journal.nonblank (Py.splitlines out)).







(** The number of lines that the entries of a mapping bring along. *)
Fixpoint entry_lines (results : list (string * HealthCheckResult)) : nat :=
  match results with
  | [] => 0
  | (_, r) :: rest => (List.length (tooltipLines r) + entry_lines rest)%nat
  end.

(** A character of a scan token: neither a space nor the comment sign. *)
Definition token_char (c : ascii) : bool :=
  (negb (Py.isspace c) && negb (Ascii.eqb c "#"))%bool.

(** A non-empty text of token characters. *)
Definition clean_token (t : string) : Prop :=
  t <> "" /\ Py.all_chars token_char t = true.

(** A device as a scan line can give it. *)
Definition well_formed_device (dev : SmartDevice) : Prop :=
  clean_token (Smart.path dev) /\
  forall t, device_type dev = Some t -> clean_token t.

(** A scan line that names no device: blank, or a comment. *)
Definition comment_or_blank (raw : string) : Prop :=
  Py.strip raw = "" \/ Py.startswith (Py.strip raw) "#" = true.

(** The test of [_extract_health_line] on a stripped line. *)
Definition health_candidate (stripped : string) : bool :=
  (Py.truthy stripped
   && (Py.contains "smart" (Py.lower stripped)
       && (Py.contains "health" (Py.lower stripped)
           || Py.contains "overall" (Py.lower stripped)
           || Py.contains "self-assessment" (Py.lower stripped))))%bool.

(** The severities that the bits bring, OK standing in for none. *)
Definition bit_statuses (exit_messages : list (Status * string)) : list Status :=
  match map fst exit_messages with
  | [] => [OK]
  | l => l
  end.

(** The three keyword lists of the health line, in the order tested. *)
Definition failure_words : list string := ["fail"; "fault"; "corrupt"].
Definition unknown_words : list string := ["unknown"; "n/a"; "not supported"].
Definition passing_words : list string := ["pass"; "ok"; "good"].

(** The severity that the health line brings, if there is a line. *)
Definition health_statuses (health_line : option string) : list Status :=
  match present health_line with
  | Some t =>
      [ if Py.any_in failure_words (Py.lower t) then CRITICAL
        else if Py.any_in unknown_words (Py.lower t) then WARN
        else if Py.any_in passing_words (Py.lower t) then OK
        else WARN ]
  | None => []
  end.

(** What [run] answers at call [n]. *)
Definition run_answer (w : World) (n : nat) (cmd : list string) : Z * string * string :=
  match subprocess_run w n cmd with
  | Completed returncode stdout stderr => (returncode, stdout, stderr)
  | FileNotFoundError => (127, "", "Command not found: " +++ hd "" cmd)
  end.




(** The failed units that the loop of [_failed_units_result] keeps: the
    first token of each non-blank line, unless a rule ignores it. *)
Definition failed_units (rules : IgnoreRules) (lines : list string) : list string :=
  flat_map
    (fun line =>
       match Py.split (Py.strip line) with
       | unit :: _ => if is_ignored rules unit then [] else [unit]
       | [] => []
       end)
    lines.

(** A device-stats line that the loop looks at: not blank, not ignored. *)
Definition considered (rules : IgnoreRules) (ln : string) : bool :=
  (Py.truthy (Py.strip ln) && negb (is_ignored rules (Py.strip ln)))%bool.

(** A considered line that carries a counter other than zero. *)
Definition nonzero_line (rules : IgnoreRules) (ln : string) : bool :=
  (considered rules ln
   && match counter_value (Py.strip ln) with
      | Some v => negb (v =? 0)
      | None => false
      end)%bool.

(** A considered line that the counter pattern does not match. *)
Definition unparsed_line (rules : IgnoreRules) (ln : string) : bool :=
  (considered rules ln
   && match Py.re_match counter_pattern (Py.strip ln) with
      | Some _ => false
      | None => true
      end)%bool.

(** What a line adds to the interesting lines. *)
Definition interesting_of (rules : IgnoreRules) (ln : string) : list string :=
  if nonzero_line rules ln then [Py.strip ln]
  else if unparsed_line rules ln then ["couldn't parse this line: " +++ Py.strip ln]
  else [].

(** The error type and count that a scrub line records, if it records one. *)
Definition scrub_entry (ln : string) : option (string * Z) :=
  match Py.re_search scrub_pattern ln with
  | Some m =>
      match group m 1, group m 2 with
      | Ok error_type, Ok digits =>
          match Py.int digits with
          | Ok count => Some (error_type, count)
          | Raise _ => None
          end
      | _, _ => None
      end
  | None => None
  end.

(** One turn of the loop that fills [error_counts], on lines that [int]
    accepts. *)
Definition record_entry (error_counts : list (string * Z)) (ln : string)
  : list (string * Z) :=
  match scrub_entry ln with
  | Some (error_type, count) => dict_set error_counts error_type count
  | None => error_counts
  end.

(** The line [ln] is the last of [lines] to record the error type [k], and
    records the count [v]. *)
Definition last_record (lines : list string) (k : string) (v : Z) : Prop :=
  exists l1 ln l2,
    lines = l1 ++ ln :: l2 /\ scrub_entry ln = Some (k, v) /\
    forall x, In x l2 -> forall v', scrub_entry x <> Some (k, v').

(** The lines of a scrub output that the loop scans. *)
Definition scrub_lines (rules : IgnoreRules) (out : string) : list string :=
  filter (fun ln => negb (is_ignored rules ln))
         (map Py.rstrip (filter (fun ln => Py.truthy (Py.strip ln)) (Py.splitlines out))).

(** An entry with a count above zero. *)
Definition positive (item : string * Z) : bool := snd item >? 0.

(** The detail line of an entry. *)
Definition scrub_line (item : string * Z) : string :=
  " - " +++ fst item +++ ": " +++ Py.str_of_int (snd item).

(** The order in which [sorted] puts two entries. *)
Definition item_le (a b : string * Z) : Prop := item_leb a b = true.

(** An answer of a root-type probe that can be used: exit code 0 and a
    stdout that is not blank. *)
Definition usable (answer : Z * string * string) : bool :=
  ((fst (fst answer) =? 0) && Py.truthy (Py.strip (snd (fst answer))))%bool.

(** The two probes of the root filesystem type. *)
Definition findmnt_cmd : list string := ["findmnt"; "-n"; "-o"; "FSTYPE"; "/"].
Definition stat_cmd : list string := ["stat"; "-f"; "-c"; "%T"; "/"].

(** *** The ignore file *)

(** A rule line: [module:rest], the module a non-empty run of word
    characters and the rest not empty. *)
Definition rule_line (line module rest : string) : Prop :=
  line = module +++ ":" +++ rest /\ module <> "" /\
  Py.all_chars Py.isword module = true /\ rest <> "".

(** The loop body accepts the line: it is skipped or holds a rule. *)
Definition accepted (re_compile : string -> Utils.CompileOutcome) (known : list string)
    (raw : string) : Prop :=
  exists r, Utils.ignore_line re_compile known 0 raw = Ok r.

(** The rule a line contributes, if any. *)
Definition rule_of (re_compile : string -> Utils.CompileOutcome) (known : list string)
    (raw : string) : option (string * Pattern) :=
  match Utils.ignore_line re_compile known 0 raw with
  | Ok r => r
  | Raise _ => None
  end.

(** The rules of the lines, in file order. *)
Definition rules_of (re_compile : string -> Utils.CompileOutcome) (known : list string)
    (lines : list string) : list (string * Pattern) :=
  flat_map (fun raw => match rule_of re_compile known raw with
                       | Some e => [e]
                       | None => []
                       end) lines.

(** The patterns of the rules of one module, in order. *)
Definition patterns_for (module : string) (entries : list (string * Pattern)) : list Pattern :=
  map snd (filter (fun e => String.eqb (fst e) module) entries).

(** The values stored under a key of an association list. *)
Definition values_of (module : string) (d : list (string * list Pattern)) : list Pattern :=
  flat_map (fun kv => if String.eqb (fst kv) module then snd kv else []) d.

(** One more rule in the dictionary. *)
Definition add_rule (d : list (string * list Pattern)) (e : string * Pattern)
  : list (string * list Pattern) :=
  Utils.dict_append d (fst e) (snd e).

(** A message that starts by naming line [n]. *)
Definition names_line (n : nat) (e : exn) : Prop :=
  exists msg, e = ValueError ("Line " +++ Py.str_of_nat n +++ ": " +++ msg).

(** The line holds a rule for a known module, and [re.compile] answers its
    pattern with the exception [e], which is no [re.error]. *)
Definition compile_raised (re_compile : string -> Utils.CompileOutcome)
    (known : list string) (raw : string) (e : exn) : Prop :=
  exists module rest,
    rule_line (Py.strip raw) module rest /\ Py.mem module known = true /\
    re_compile (Py.strip rest) = Utils.CompileRaises e.

(** *** The aggregated output *)


(** What the bar text shows for one module. *)
Definition label (e : string * HealthCheckResult) : string :=
  fst e +++ ":" +++ Main.value (status (snd e)).

Definition not_ok (e : string * HealthCheckResult) : bool :=
  negb (Status_eqb (status (snd e)) OK).

(** The entries as [main] hands them to [merge]. *)
Definition headed (results : list (string * HealthCheckResult))
  : list (string * HealthCheckResult) :=
  map (fun e => ("# " +++ fst e, snd e)) results.




(** *** Command errors *)

(** A line of a stream as [format_command_error] shows it. *)
Definition detail_line (l : string) : Prop :=
  exists ln, l = "  " +++ ln /\ Py.all_chars Py.dot ln = true.

(** The number of lines a stream contributes: a header and its lines, or
    nothing when the stream is blank. *)
Definition section_size (stream : string) : nat :=
  if Py.truthy (Py.strip stream)
  then S (List.length (Py.splitlines (Py.strip stream)))
  else 0%nat.

(** The section of one stream: its header and its lines, indented. *)
Definition stream_section (header stream : string) : list string :=
  if Py.truthy (Py.strip stream)
  then header :: map (fun ln => "  " +++ ln) (Py.splitlines (Py.strip stream))
  else [].

(* ===================================================================== *)
(** * Verification *)

(** ** The severity order and [worst] *)

Section MaxFrom.

Context {A : Type} (key : A -> Z).

Lemma max_from_in (xs : list A) (best : A) :
  max_from key best xs = best \/ In (max_from key best xs) xs.
Proof.
  revert best; induction xs as [|x r IH]; intros best; simpl.
  - now left.
  - destruct (IH (if key best <? key x then x else best)) as [E | I].
    + rewrite E. destruct (key best <? key x); auto.
    + auto.
Qed.

Lemma max_from_ge_best (xs : list A) (best : A) :
  key best <= key (max_from key best xs).
Proof.
  revert best; induction xs as [|x r IH]; intros best; simpl.
  - lia.
  - specialize (IH (if key best <? key x then x else best)).
    destruct (Z.ltb_spec (key best) (key x)); lia.
Qed.

Lemma max_from_upper (xs : list A) (best x : A) :
  In x xs -> key x <= key (max_from key best xs).
Proof.
  revert best; induction xs as [|y r IH]; intros best; simpl; [tauto|].
  intros [-> | I].
  - pose proof (max_from_ge_best r (if key best <? key x then x else best)) as G.
    destruct (Z.ltb_spec (key best) (key x)); lia.
  - now apply IH.
Qed.

End MaxFrom.

Lemma order_inj (a b : Status) : order a = order b -> a = b.
Proof. destruct a, b; simpl; intros; congruence || lia. Qed.

Lemma is_max_unique (l : list Status) (m m' : Status) :
  is_max m l -> is_max m' l -> m = m'.
Proof.
  intros [I U] [I' U']. apply order_inj.
  pose proof (U _ I'); pose proof (U' _ I); lia.
Qed.

Lemma is_max_perm (l l' : list Status) (m : Status) :
  Permutation l l' -> is_max m l -> is_max m l'.
Proof.
  intros P [I U]; split.
  - eapply Permutation_in; eauto.
  - intros s Hs. apply U. eapply Permutation_in; [symmetry|]; eauto.
Qed.

Lemma worst_nonempty (x : Status) (r : list Status) :
  exists m, worst (x :: r) = Ok m /\ is_max m (x :: r).
Proof.
  exists (max_from order x r); split; [reflexivity|]; split.
  - destruct (max_from_in order r x) as [E | I]; [rewrite E; now left | now right].
  - intros s [<- | I]; [apply max_from_ge_best | now apply max_from_upper].
Qed.

(** C1.  On every non-empty list of severities [worst] returns an element
    of the list that no element exceeds in the order OK < WARN < CRITICAL,
    and every permutation of the list gives the same result. *)
Theorem worst_is_order_independent_max (l : list Status) :
  l <> [] ->
  exists m,
    worst l = Ok m /\ In m l /\ (forall s, In s l -> order s <= order m) /\
    forall l', Permutation l l' -> worst l' = Ok m.
Proof.
  destruct l as [|x r]; [congruence|]; intros _.
  destruct (worst_nonempty x r) as (m & E & Hmax).
  exists m; repeat split; try apply Hmax; auto.
  intros l' P. destruct l' as [|y r'].
  - apply Permutation_sym, Permutation_nil in P; discriminate.
  - destruct (worst_nonempty y r') as (m' & E' & Hmax').
    rewrite E'. f_equal. eapply is_max_unique; eauto using is_max_perm.
Qed.

Lemma worst_is_order_independent_max_witness :
  exists m,
    worst [WARN; CRITICAL; OK] = Ok m /\ In m [WARN; CRITICAL; OK] /\
    (forall s, In s [WARN; CRITICAL; OK] -> order s <= order m) /\
    forall l', Permutation [WARN; CRITICAL; OK] l' -> worst l' = Ok m.
Proof. apply (worst_is_order_independent_max [WARN; CRITICAL; OK]); discriminate. Defined.

(** ** [merge] *)

Lemma merge_fold_nonempty (results : list (string * HealthCheckResult)) (acc : list string) :
  acc <> [] ->
  fold_left merge_step results acc = acc ++ spec_merge_lines false results.
Proof.
  revert acc; induction results as [|[name r] rest IH]; intros acc Hacc; simpl.
  - now rewrite app_nil_r.
  - rewrite IH.
    + destruct acc; [congruence|]. simpl. now rewrite <- !app_assoc.
    + destruct acc; [congruence|]. simpl. discriminate.
Qed.

Lemma merge_fold (results : list (string * HealthCheckResult)) :
  fold_left merge_step results [] = spec_merge_lines true results.
Proof.
  destruct results as [|[name r] rest]; [reflexivity|].
  simpl. rewrite merge_fold_nonempty; [reflexivity | discriminate].
Qed.

(** C2.  On every non-empty ordered mapping [merge] returns the result whose
    severity is [worst] of the input severities and whose lines are, entry
    by entry in iteration order, a blank line (not before the first entry),
    the header [name:], and the entry's lines; a single entry gives its
    header followed by its lines. *)
Theorem merge_is_worst_and_ordered_lines (results : list (string * HealthCheckResult)) :
  results <> [] ->
  (exists st,
     worst (statuses_of results) = Ok st /\
     is_max st (statuses_of results) /\
     merge results = Ok (mkResult st (spec_merge_lines true results))) /\
  (forall name r, results = [(name, r)] ->
     merge results = Ok (mkResult (status r) ((name +++ ":") :: tooltipLines r))).
Proof.
  intros Hne; split.
  - destruct results as [|e rest]; [congruence|].
    destruct (worst_nonempty (status (snd e)) (statuses_of rest)) as (st & E & Hmax).
    exists st; repeat split; try apply Hmax; auto.
    unfold merge. rewrite merge_fold.
    change (map (fun e0 => status (snd e0)) (e :: rest))
      with (status (snd e) :: statuses_of rest).
    now rewrite E.
  - intros name r ->. reflexivity.
Qed.

Lemma merge_is_worst_and_ordered_lines_witness :
  merge [("Units", mkResult WARN ["a"]); ("Btrfs", mkResult CRITICAL ["b"; "c"]);
         ("Disk", mkResult OK [])]
  = Ok (mkResult CRITICAL ["Units:"; "a"; ""; "Btrfs:"; "b"; "c"; ""; "Disk:"]).
Proof.
  destruct (merge_is_worst_and_ordered_lines
              [("Units", mkResult WARN ["a"]); ("Btrfs", mkResult CRITICAL ["b"; "c"]);
               ("Disk", mkResult OK [])]) as [(st & E & _ & Hm) _]; [discriminate|].
  rewrite Hm. vm_compute in E. injection E as <-. reflexivity.
Defined.

(** C10.  [worst] raises on the empty list and on no other, and so does
    [merge] on the empty mapping: neither returns a default severity. *)
Theorem worst_and_merge_raise_on_empty :
  worst [] = Raise (ValueError "max() arg is an empty sequence") /\
  merge [] = Raise (ValueError "max() arg is an empty sequence") /\
  (forall l, (exists e, worst l = Raise e) <-> l = []) /\
  (forall results, (exists e, merge results = Raise e) <-> results = []).
Proof.
  repeat split; try reflexivity.
  - intros [e E]. destruct l; [reflexivity | discriminate].
  - intros ->. eexists; reflexivity.
  - intros [e E]. destruct results as [|x r]; [reflexivity|].
    unfold merge in E; simpl in E; discriminate.
  - intros ->. eexists; reflexivity.
Qed.

(** ** Mount thresholds and the disk verdict *)

Lemma Qle_bool_false (x y : Q) : Qle_bool x y = false <-> (y < x)%Q.
Proof.
  split.
  - intros E. apply Qnot_le_lt. intros L. apply Qle_bool_iff in L. congruence.
  - intros L. destruct (Qle_bool x y) eqn:E; [|reflexivity].
    apply Qle_bool_iff in E. exfalso. eapply Qlt_not_le; eauto.
Qed.

Lemma in_percent_range_iff (x : Q) :
  in_percent_range x = true <-> (0 <= x <= 100)%Q.
Proof.
  unfold in_percent_range. rewrite andb_true_iff, !Qle_bool_iff. tauto.
Qed.

Lemma truthy_iff (s : string) : Py.truthy s = true <-> s <> "".
Proof. destruct s; cbv; split; intros H; congruence. Qed.

Lemma truthy_false_iff (s : string) : Py.truthy s = false <-> s = "".
Proof. destruct s; cbv; split; intros H; congruence. Qed.

Lemma MountThreshold_init_ok (p : string) (w c : Q) :
  MountThreshold_init p w c = Ok (mkMountThreshold p w c) <->
  (p <> "" /\ (0 <= w <= 100)%Q /\ (0 <= c <= 100)%Q /\ (w <= c)%Q).
Proof.
  unfold MountThreshold_init, Qgt_bool.
  rewrite <- truthy_iff, <- !in_percent_range_iff, <- (Qle_bool_iff w c).
  destruct (Py.truthy p), (in_percent_range w), (in_percent_range c), (Qle_bool w c);
    simpl; split; intros H; try discriminate; try tauto;
    decompose [and] H; discriminate.
Qed.

Lemma MountThreshold_init_cases (p : string) (w c : Q) :
  MountThreshold_init p w c = Ok (mkMountThreshold p w c) \/
  exists e, MountThreshold_init p w c = Raise e.
Proof.
  unfold MountThreshold_init.
  destruct (Py.truthy p), (in_percent_range w), (in_percent_range c), (Qgt_bool w c);
    simpl; eauto.
Qed.

Lemma MountThreshold_init_inv (p : string) (w c : Q) (cfg : MountThreshold) :
  MountThreshold_init p w c = Ok cfg ->
  cfg = mkMountThreshold p w c /\
  (p <> "" /\ (0 <= w <= 100)%Q /\ (0 <= c <= 100)%Q /\ (w <= c)%Q).
Proof.
  intros E. destruct (MountThreshold_init_cases p w c) as [E' | [e E']]; [|congruence].
  split; [congruence|]. now apply MountThreshold_init_ok.
Qed.

(** C9.  Construction of a [MountThreshold] raises exactly when the path is
    empty, a threshold lies outside [0, 100], or the warn threshold exceeds
    the critical one; it succeeds on all other inputs, so every constructed
    value has a non-empty path and 0 <= warn <= critical <= 100. *)
Theorem mount_threshold_construction (p : string) (w c : Q) :
  ((exists e, MountThreshold_init p w c = Raise e) <->
   (p = "" \/ ~ (0 <= w <= 100)%Q \/ ~ (0 <= c <= 100)%Q \/ (c < w)%Q)) /\
  (MountThreshold_init p w c = Ok (mkMountThreshold p w c) <->
   (p <> "" /\ (0 <= w <= 100)%Q /\ (0 <= c <= 100)%Q /\ (w <= c)%Q)) /\
  (forall cfg, MountThreshold_init p w c = Ok cfg ->
     cfg = mkMountThreshold p w c /\ Disk.path cfg <> "" /\
     (0 <= warn_percent cfg <= 100)%Q /\ (0 <= critical_percent cfg <= 100)%Q /\
     (warn_percent cfg <= critical_percent cfg)%Q).
Proof.
  pose proof (MountThreshold_init_ok p w c) as Hok.
  split; [|split].
  - split.
    + intros [e E].
      destruct (string_dec p "") as [|Hp]; [now left | right].
      destruct (in_percent_range w) eqn:Ew;
        [|left; rewrite <- in_percent_range_iff; congruence].
      destruct (in_percent_range c) eqn:Ec;
        [|right; left; rewrite <- in_percent_range_iff; congruence].
      right; right. apply Qnot_le_lt. intros L.
      apply in_percent_range_iff in Ew, Ec.
      assert (MountThreshold_init p w c = Ok (mkMountThreshold p w c)) as E'
        by (apply Hok; tauto).
      congruence.
    + intros H.
      destruct (MountThreshold_init_cases p w c) as [E | E]; [|exact E].
      apply Hok in E. destruct E as (Hp & Hw & Hc & L). exfalso.
      destruct H as [H | [H | [H | H]]]; try tauto.
      eapply Qlt_not_le; eauto.
  - exact Hok.
  - intros cfg E. destruct (MountThreshold_init_inv p w c cfg E) as (-> & H).
    simpl. tauto.
Qed.

Lemma mount_threshold_construction_witness :
  mkMountThreshold "/" 80 90 = mkMountThreshold "/" 80 90 /\
  Disk.path (mkMountThreshold "/" 80 90) <> "" /\
  (0 <= 80 <= 100)%Q /\ (0 <= 90 <= 100)%Q /\ (80 <= 90)%Q.
Proof.
  destruct (mount_threshold_construction "/" 80 90) as (_ & _ & H).
  exact (H (mkMountThreshold "/" 80 90) eq_refl).
Defined.

Lemma verdict_cases (u : Q) (cfg : MountThreshold) :
  ((critical_percent cfg <= u)%Q -> verdict u cfg = CRITICAL) /\
  ((warn_percent cfg <= u)%Q -> (u < critical_percent cfg)%Q -> verdict u cfg = WARN) /\
  ((u < warn_percent cfg)%Q -> (u < critical_percent cfg)%Q -> verdict u cfg = OK).
Proof.
  unfold verdict. repeat split.
  - intros L. apply Qle_bool_iff in L. now rewrite L.
  - intros L1 L2. apply Qle_bool_iff in L1. apply Qle_bool_false in L2.
    now rewrite L2, L1.
  - intros L1 L2. apply Qle_bool_false in L1, L2. now rewrite L2, L1.
Qed.

(** C5.  For a constructed threshold and a mountpoint whose reported total
    is positive, the used percentage is (total - free) / total * 100 and the
    per-mount verdict, which is also the module's on this single mount, is
    CRITICAL when the percentage equals (or exceeds) the critical threshold,
    WARN when it equals (or exceeds) the warn threshold and is below the
    critical one, and OK when it is below the warn threshold. *)
Theorem disk_verdict_thresholds_inclusive
    (fround : Q -> Q) (w : World) (n : nat) (rules : IgnoreRules)
    (p : string) (warn crit : Q) (cfg : MountThreshold) (total used free : Z) :
  MountThreshold_init p warn crit = Ok cfg ->
  shutil_disk_usage w n p = Usage total used free ->
  0 < total ->
  let u := used_percent_of fround total free in
  u = fround (fround (inject_Z (total - free)%Z / inject_Z total) * 100)%Q /\
  (exists line,
     Disk.check fround (mkDiskModule rules [cfg] None) w n
     = Ok (mkResult (verdict u cfg) [line], S n)) /\
  ((u == crit)%Q -> verdict u cfg = CRITICAL) /\
  ((crit <= u)%Q -> verdict u cfg = CRITICAL) /\
  ((u == warn)%Q -> (u < crit)%Q -> verdict u cfg = WARN) /\
  ((warn <= u)%Q -> (u < crit)%Q -> verdict u cfg = WARN) /\
  ((u < warn)%Q -> verdict u cfg = OK).
Proof.
  intros Hinit Husage Htotal u.
  destruct (MountThreshold_init_inv p warn crit cfg Hinit) as (-> & _ & _ & _ & Hwc).
  destruct (verdict_cases u (mkMountThreshold p warn crit)) as (V1 & V2 & V3);
    simpl in V1, V2, V3.
  split; [reflexivity|]. split.
  - unfold Disk.check, check_mounts; simpl.
    unfold bind, check_mount, bind, disk_usage; simpl. rewrite Husage.
    destruct (Z.leb_spec total 0) as [|_]; [lia|].
    fold u. destruct (verdict u (mkMountThreshold p warn crit)); simpl;
      eexists; reflexivity.
  - repeat split.
    + intros E. apply V1. rewrite E. apply Qle_refl.
    + exact V1.
    + intros E L. apply V2; [rewrite E; apply Qle_refl | exact L].
    + exact V2.
    + intros L. apply V3; [exact L|]. eapply Qlt_le_trans; eauto.
Qed.

Lemma disk_verdict_thresholds_inclusive_witness :
  verdict (used_percent_of (fun q => q) 1000 50) (mkMountThreshold "/" 80 90) = CRITICAL.
Proof.
  destruct (disk_verdict_thresholds_inclusive (fun q => q)
              (mkWorld (fun _ _ => FileNotFoundError) (fun _ _ => Usage 1000 950 50))
              0%nat (mkIgnoreRules []) "/" 80 90 (mkMountThreshold "/" 80 90) 1000 950 50
              eq_refl eq_refl eq_refl) as (_ & _ & _ & H & _).
  apply H. vm_compute. discriminate.
Defined.

(** ** SMART exit bits *)

Lemma land_pow2_testbit (code k : Z) :
  0 <= k -> negb (Z.land code (2 ^ k) =? 0) = Z.testbit code k.
Proof.
  intros Hk. destruct (Z.testbit code k) eqn:T.
  - apply negb_true_iff, Z.eqb_neq. intros E.
    assert (Z.testbit (Z.land code (2 ^ k)) k = true) as B
      by (rewrite Z.land_spec, T, Z.pow2_bits_eqb, Z.eqb_refl by lia; reflexivity).
    rewrite E, Z.bits_0 in B. discriminate.
  - apply negb_false_iff, Z.eqb_eq, Z.bits_inj'. intros i Hi.
    rewrite Z.land_spec, Z.bits_0, Z.pow2_bits_eqb by lia.
    destruct (Z.eqb_spec k i) as [<- | _]; [now rewrite T | apply andb_false_r].
Qed.

Lemma land_bit_testbit (code bit k : Z) :
  bit = 2 ^ k -> 0 <= k -> negb (Z.land code bit =? 0) = Z.testbit code k.
Proof. intros -> Hk. now apply land_pow2_testbit. Qed.

(** The loop of [_decode_exit_bits] appends, entry by entry, the pair of
    an entry whose bit is set. *)
Lemma decode_fold (code : Z) (table : list (Z * Status * string))
    (lines : list (Status * string)) :
  fold_left
    (fun lines entry =>
       let '(bit, status, message) := entry in
       if negb (Z.land code bit =? 0) then lines ++ [(status, message)] else lines)
    table lines
  = lines ++ flat_map
               (fun entry : Z * Status * string =>
                  if negb (Z.land code (fst (fst entry)) =? 0)
                  then [(snd (fst entry), snd entry)] else [])
               table.
Proof.
  revert lines; induction table as [|[[bit st] message] rest IH]; intros lines; simpl.
  - now rewrite app_nil_r.
  - rewrite IH. destruct (negb (Z.land code bit =? 0)); simpl;
      [now rewrite <- app_assoc | reflexivity].
Qed.

Lemma decode_exit_bits_by_bit (code : Z) :
  _decode_exit_bits code
  = flat_map (fun k => if Z.testbit code (Z.of_nat k) then bit_entry k else []) (seq 0 8).
Proof.
  unfold _decode_exit_bits. rewrite decode_fold.
  unfold SMARTCTL_EXIT_BITS. cbn [flat_map fst snd app].
  rewrite (land_bit_testbit code 1 0), (land_bit_testbit code 2 1),
    (land_bit_testbit code 4 2), (land_bit_testbit code 8 3),
    (land_bit_testbit code 16 4), (land_bit_testbit code 32 5),
    (land_bit_testbit code 64 6), (land_bit_testbit code 128 7)
    by (reflexivity || lia).
  reflexivity.
Qed.

(** C4.  The table has the eight bits 1, 2, 4, ..., 128, with WARN on bits
    1, 2, 4, 128 and CRITICAL on bits 8, 16, 32, 64; for every exit code the
    decoded messages are, bit by bit in table order, the pair of each bit
    that is set and nothing for a bit that is clear; exit code 9 gives one
    WARN and one CRITICAL message, and without a health line the device
    verdict is CRITICAL. *)
Theorem smart_exit_bits_independent :
  map (fun e => fst (fst e)) SMARTCTL_EXIT_BITS
    = map (fun k => 2 ^ Z.of_nat k) (seq 0 8) /\
  map (fun e => snd (fst e)) SMARTCTL_EXIT_BITS
    = [WARN; WARN; WARN; CRITICAL; CRITICAL; CRITICAL; CRITICAL; WARN] /\
  NoDup (map snd SMARTCTL_EXIT_BITS) /\
  (forall code,
     _decode_exit_bits code
     = flat_map (fun k => if Z.testbit code (Z.of_nat k) then bit_entry k else [])
                (seq 0 8)) /\
  _decode_exit_bits 9
    = [ (WARN, "smartctl: command line did not parse");
        (CRITICAL, "SMART overall-health self-assessment reported failure") ] /\
  _status_from_exit_and_health (_decode_exit_bits 9) None = Ok CRITICAL /\
  (forall device out err,
     _extract_health_line out = None -> _extract_health_line err = None ->
     exists lines, check_device_of device (9, out, err) = Ok (CRITICAL, lines)).
Proof.
  split; [reflexivity|]. split; [reflexivity|]. split.
  - simpl. repeat (constructor; [simpl; intuition discriminate|]). constructor.
  - split; [exact decode_exit_bits_by_bit|].
    split; [reflexivity|]. split; [reflexivity|].
    intros device out err Ho He. unfold check_device_of.
    change (9 =? 127) with false. cbv iota. rewrite Ho, He.
    eexists. reflexivity.
Qed.

Lemma smart_exit_bits_independent_witness :
  exists lines,
    check_device_of (mkSmartDevice "/dev/sda" None) (9, "", "no such line")
    = Ok (CRITICAL, lines).
Proof.
  destruct smart_exit_bits_independent as (_ & _ & _ & _ & _ & _ & H).
  apply H; reflexivity.
Defined.

(** ** Text lemmas *)

Lemma length_append (a b : string) :
  String.length (a +++ b) = (String.length a + String.length b)%nat.
Proof. induction a as [|c a IH]; simpl; [reflexivity | now rewrite IH]. Qed.

Lemma splitlines_nonempty (s : string) : s <> "" -> Py.splitlines s <> [].
Proof.
  destruct s as [|c s]; [congruence|]. intros _. unfold Py.splitlines. simpl.
  destruct (Py.is_linebreak c); [discriminate|].
  destruct (Py.splitlines_from false s); discriminate.
Qed.

Lemma index0_splitlines (s : string) :
  s <> "" -> exists first, Py.index0 (Py.splitlines s) = Ok first.
Proof.
  intros H. apply splitlines_nonempty in H.
  destruct (Py.splitlines s) as [|x r]; [congruence|]. now exists x.
Qed.


(** ** The state sub-check of the service-manager module *)

Lemma first_truthy_nonempty (a b : string) : first_truthy a b "unknown" <> "".
Proof.
  unfold first_truthy.
  destruct (Py.truthy a) eqn:Ea; [now apply truthy_iff|].
  destruct (Py.truthy b) eqn:Eb; [now apply truthy_iff | discriminate].
Qed.

(** What the code computes for every answer of the executor: the critical
    states first, then the warning states or a positive exit code. *)
Lemma state_result_classification (user : bool) (code : Z) (out err : string) :
  code <> 127 ->
  exists state line,
    Py.index0 (Py.splitlines (first_truthy (Py.strip out) (Py.strip err) "unknown"))
      = Ok state /\
    state_result_of user (code, out, err)
    = Ok (mkResult
            (if Py.mem (Py.strip state) critical_states then CRITICAL
             else if (Py.mem (Py.strip state) warning_states || (code >? 0))%bool then WARN
             else OK)
            [line]).
Proof.
  intros Hc. unfold state_result_of.
  rewrite (proj2 (Z.eqb_neq code 127) Hc).
  destruct (index0_splitlines _ (first_truthy_nonempty (Py.strip out) (Py.strip err)))
    as [first E].
  rewrite E. simpl. eexists _, _. split; reflexivity.
Qed.

(** C8.  The state sub-check puts the critical states first (also on a
    nonzero exit code) and the warning states next, but it tests the exit
    code with [code > 0]: a negative exit code, which is what a command
    terminated by a signal returns, with a state outside both sets gives OK
    where every nonzero exit code is to give WARN.  Exit code -15 with the
    state [running] is evaluated here, next to a positive exit code and a
    critical state on a nonzero exit code. *)
Theorem state_result_negative_exit_is_ok :
  state_result_of false (-15, "running" +++ Py.NL, "")
    = Ok (mkResult OK ["systemd (): running"]) /\
  state_result_of false (1, "running" +++ Py.NL, "")
    = Ok (mkResult WARN ["systemd (): running"]) /\
  state_result_of false (-15, "degraded" +++ Py.NL, "")
    = Ok (mkResult CRITICAL ["systemd (): degraded"]) /\
  failed_units_result_of (mkIgnoreRules []) false (-15, "", "")
    = Ok (mkResult WARN ["systemctl --failed failed with code -15"]).
Proof. repeat split; reflexivity. Qed.

(** ** The detail lines of a SMART device *)













(** ** The pattern matcher *)

Lemma take_append (a b : string) : Py.take (String.length a) (a +++ b) = a.
Proof. induction a as [|c a IH]; simpl; [now destruct b | now rewrite IH]. Qed.

Lemma take_consumed (a b : string) :
  Py.take (String.length (a +++ b) - String.length b) (a +++ b) = a.
Proof.
  rewrite length_append.
  replace (String.length a + String.length b - String.length b)%nat
    with (String.length a) by lia.
  apply take_append.
Qed.

Lemma greedy_sound {X} (p : ascii -> bool) (k : string -> option X) (s : string) (x : X) :
  Py.greedy p k s = Some x ->
  exists run rest, s = run +++ rest /\ Py.all_chars p run = true /\ k rest = Some x.
Proof.
  induction s as [|c s IH]; simpl; intros H.
  - now exists "", "".
  - destruct (p c) eqn:Pc; [|now exists "", (String c s)].
    destruct (Py.greedy p k s) as [y|] eqn:G.
    + injection H as ->. destruct (IH eq_refl) as (run & rest & -> & A & K).
      exists (String c run), rest. simpl. now rewrite Pc, A.
    + now exists "", (String c s).
Qed.

Section Inversion.

Variables (r : list Py.Item) (s : string) (opens caps : list string) (x : list string).

Lemma rmatch_One (p : ascii -> bool) :
  Py.rmatch (Py.One p :: r) s opens caps = Some x ->
  exists c s', s = String c s' /\ p c = true /\ Py.rmatch r s' opens caps = Some x.
Proof.
  simpl. destruct s as [|c s']; [discriminate|].
  destruct (p c) eqn:Pc; [|discriminate]. intros H. now exists c, s'.
Qed.

Lemma rmatch_Plus (p : ascii -> bool) :
  Py.rmatch (Py.Plus p :: r) s opens caps = Some x ->
  exists run rest,
    s = run +++ rest /\ run <> "" /\ Py.all_chars p run = true /\
    Py.rmatch r rest opens caps = Some x.
Proof.
  simpl. destruct s as [|c s']; [discriminate|].
  destruct (p c) eqn:Pc; [|discriminate]. intros H.
  apply greedy_sound in H. destruct H as (run & rest & -> & A & K).
  exists (String c run), rest. simpl. rewrite Pc, A. repeat split; [discriminate | exact K].
Qed.

Lemma rmatch_Star (p : ascii -> bool) :
  Py.rmatch (Py.Star p :: r) s opens caps = Some x ->
  exists run rest, s = run +++ rest /\ Py.rmatch r rest opens caps = Some x.
Proof.
  simpl. intros H. apply greedy_sound in H.
  destruct H as (run & rest & E & _ & K). now exists run, rest.
Qed.

Lemma rmatch_Opt (p : ascii -> bool) :
  Py.rmatch (Py.Opt p :: r) s opens caps = Some x ->
  exists run rest, s = run +++ rest /\ Py.rmatch r rest opens caps = Some x.
Proof.
  simpl. destruct s as [|c s'] eqn:Es; [now exists "", ""|].
  destruct (p c); [|now exists "", (String c s')].
  destruct (Py.rmatch r s' opens caps) eqn:R; [|now exists "", (String c s')].
  intros H. injection H as ->. now exists (String c ""), s'.
Qed.

Lemma rmatch_GroupEnd :
  Py.rmatch (Py.GroupEnd :: r) s opens caps = Some x ->
  exists o os,
    opens = o :: os /\
    Py.rmatch r s os (Py.take (String.length o - String.length s) o :: caps) = Some x.
Proof. simpl. destruct opens as [|o os]; [discriminate|]. eauto. Qed.

Lemma rmatch_Dollar :
  Py.rmatch (Py.Dollar :: r) s opens caps = Some x -> Py.rmatch r s opens caps = Some x.
Proof.
  simpl. destruct (Py.is_empty s || String.eqb s (String Py.LF ""))%bool;
    [auto | discriminate].
Qed.

End Inversion.

Lemma rmatch_GroupStart (r : list Py.Item) (s : string) (opens caps : list string) :
  Py.rmatch (Py.GroupStart :: r) s opens caps = Py.rmatch r s (s :: opens) caps.
Proof. reflexivity. Qed.

Lemma rmatch_done (s : string) (opens caps x : list string) :
  Py.rmatch [] s opens caps = Some x -> x = rev caps.
Proof. simpl. congruence. Qed.

(** A digit group: the bracketed [\d+] captures a non-empty run of digits. *)
Lemma rmatch_digit_group (r : list Py.Item) (s : string) (caps x : list string) :
  Py.rmatch (Py.GroupStart :: Py.Plus Py.isdigit :: Py.GroupEnd :: r) s [] caps = Some x ->
  exists digits rest,
    digits <> "" /\ Py.all_digits digits = true /\
    Py.rmatch r rest [] (digits :: caps) = Some x.
Proof.
  intros H.
  change (Py.rmatch (Py.Plus Py.isdigit :: Py.GroupEnd :: r) s [s] caps = Some x) in H.
  apply rmatch_Plus in H. destruct H as (run & rest & -> & N & A & H).
  apply rmatch_GroupEnd in H. destruct H as (o & os & E & H).
  injection E as <- <-. rewrite take_consumed in H. eauto.
Qed.

Lemma int_of_digits (digits : string) :
  digits <> "" -> Py.all_digits digits = true ->
  (String.length digits <= Py.int_max_str_digits)%nat ->
  exists v, Py.int digits = Ok v.
Proof.
  intros N A L. unfold Py.int. apply truthy_iff in N. rewrite N, A.
  rewrite (proj2 (Nat.leb_le _ _) L). simpl. eauto.
Qed.

(** *** Groups are no longer than the input *)

Lemma take_length_le (n : nat) (s : string) :
  (String.length (Py.take n s) <= String.length s)%nat.
Proof.
  revert s; induction n as [|n IH]; intros [|c s]; simpl; try lia.
  specialize (IH s). lia.
Qed.

Lemma bounded_rest (N : nat) (run rest : string) :
  bounded N (run +++ rest) -> bounded N rest.
Proof. unfold bounded. rewrite length_append. lia. Qed.

Lemma rmatch_bounded (N : nat) (items : list Py.Item) :
  forall (s : string) (opens caps x : list string),
    bounded N s -> Forall (bounded N) opens -> Forall (bounded N) caps ->
    Py.rmatch items s opens caps = Some x -> Forall (bounded N) x.
Proof.
  induction items as [|item r IH]; intros s opens caps x Hs Ho Hc H.
  - apply rmatch_done in H. subst x. now apply Forall_rev.
  - destruct item.
    + apply rmatch_One in H. destruct H as (c & s' & -> & _ & H).
      apply (IH s' opens caps); auto. unfold bounded in *. simpl in Hs. lia.
    + apply rmatch_Plus in H. destruct H as (run & rest & -> & _ & _ & H).
      apply (IH rest opens caps); eauto using bounded_rest.
    + apply rmatch_Star in H. destruct H as (run & rest & -> & H).
      apply (IH rest opens caps); eauto using bounded_rest.
    + apply rmatch_Opt in H. destruct H as (run & rest & -> & H).
      apply (IH rest opens caps); eauto using bounded_rest.
    + apply (IH s (s :: opens) caps); auto.
    + apply rmatch_GroupEnd in H. destruct H as (o & os & -> & H).
      inversion Ho as [|? ? Hb Hos]; subst.
      apply (IH s os (Py.take (String.length o - String.length s) o :: caps)); auto.
      constructor; [|exact Hc]. unfold bounded in *.
      pose proof (take_length_le (String.length o - String.length s) o). lia.
    + apply rmatch_Dollar in H. now apply (IH s opens caps).
Qed.

Lemma re_match_bounded (items : list Py.Item) (s : string) (m : list string) :
  Py.re_match items s = Some m -> Forall (bounded (String.length s)) m.
Proof.
  intros H. apply (rmatch_bounded _ items s [] []); auto. unfold bounded; lia.
Qed.

(** One step back through a successful match: the head item is inverted
    and [H] becomes the match of the remaining items. *)
Ltac rstep H :=
  first
    [ apply rmatch_digit_group in H; destruct H as (? & ? & ? & ? & H)
    | apply rmatch_One in H; destruct H as (? & ? & _ & _ & H)
    | apply rmatch_Plus in H; destruct H as (? & ? & _ & _ & _ & H)
    | apply rmatch_Star in H; destruct H as (? & ? & _ & H)
    | apply rmatch_Opt in H; destruct H as (? & ? & _ & H)
    | apply rmatch_Dollar in H
    | rewrite rmatch_GroupStart in H
    | apply rmatch_GroupEnd in H;
      let E := fresh "E" in destruct H as (? & ? & E & H); injection E as <- <- ].

(** A match of the counter pattern has two groups, the second a non-empty
    run of digits. *)
Lemma counter_pattern_groups (ln : string) (m : list string) :
  Py.re_match counter_pattern ln = Some m ->
  exists metric digits,
    m = [metric; digits] /\ digits <> "" /\ Py.all_digits digits = true /\
    bounded (String.length ln) digits.
Proof.
  intros H. pose proof (re_match_bounded _ _ _ H) as B. revert H.
  unfold Py.re_match, counter_pattern, Py.lit. intros H.
  repeat rstep H. apply rmatch_done in H. subst m. simpl.
  inversion B as [|? ? _ B']. inversion B' as [|? ? Bd _]. eauto 6.
Qed.

Lemma scrub_pattern_rmatch_groups (ln : string) (m : list string) :
  Py.rmatch scrub_pattern ln [] [] = Some m ->
  exists error_type digits,
    m = [error_type; digits] /\ digits <> "" /\ Py.all_digits digits = true /\
    bounded (String.length ln) digits.
Proof.
  intros H. pose proof (re_match_bounded _ _ _ H) as B. revert H.
  unfold scrub_pattern, Py.lit. intros H.
  repeat rstep H. apply rmatch_done in H. subst m. simpl.
  inversion B as [|? ? _ B']. inversion B' as [|? ? Bd _]. eauto 6.
Qed.

Lemma re_search_sound (items : list Py.Item) (s : string) (m : list string) :
  Py.re_search items s = Some m ->
  exists s', bounded (String.length s) s' /\ Py.rmatch items s' [] [] = Some m.
Proof.
  unfold bounded. induction s as [|c s IH]; simpl.
  - destruct (Py.rmatch items "" [] []) eqn:R; [|discriminate].
    intros H; injection H as ->. exists "". auto.
  - destruct (Py.rmatch items (String c s) [] []) eqn:R.
    + intros H; injection H as ->. exists (String c s). auto.
    + intros H. destruct (IH H) as (s' & L & R'). exists s'. split; [lia | exact R'].
Qed.

(** *** Lines short enough for [int] *)

Lemma lstrip_length_le (s : string) : (String.length (Py.lstrip s) <= String.length s)%nat.
Proof. induction s as [|c s IH]; simpl; [lia|]. destruct (Py.isspace c); simpl; lia. Qed.

Lemma rstrip_length_le (s : string) : (String.length (Py.rstrip s) <= String.length s)%nat.
Proof.
  induction s as [|c s IH]; simpl; [lia|].
  destruct (Py.rstrip s); [destruct (Py.isspace c)|]; simpl in *; lia.
Qed.

Lemma strip_length_le (s : string) : (String.length (Py.strip s) <= String.length s)%nat.
Proof.
  unfold Py.strip. pose proof (rstrip_length_le (Py.lstrip s)).
  pose proof (lstrip_length_le s). lia.
Qed.

(** ** The device-stats sub-check *)

Lemma stats_loop_app (rules : IgnoreRules) (l1 l2 : list string) (acc : Counters) :
  stats_loop rules (l1 ++ l2) acc
  = exc_bind (stats_loop rules l1 acc) (stats_loop rules l2).
Proof.
  revert acc; induction l1 as [|ln rest IH]; intros acc; simpl; [reflexivity|].
  destruct (stats_line rules acc ln); simpl; [apply IH | reflexivity].
Qed.

Lemma stats_line_ignored (rules : IgnoreRules) (acc : Counters) (ln : string) :
  is_ignored rules (Py.strip ln) = true -> stats_line rules acc ln = Ok acc.
Proof.
  intros I. unfold stats_line. rewrite I.
  now destruct (negb (Py.truthy (Py.strip ln))).
Qed.

Lemma stats_line_harmless (rules : IgnoreRules) (acc : Counters) (ln : string) :
  harmless rules ln -> stats_line rules acc ln = Ok acc.
Proof.
  intros [B | [I | V]].
  - unfold stats_line. now rewrite B.
  - now apply stats_line_ignored.
  - unfold stats_line, counter_value in *.
    destruct (negb (Py.truthy (Py.strip ln))); [reflexivity|].
    destruct (is_ignored rules (Py.strip ln)); [reflexivity|].
    destruct (Py.re_match counter_pattern (Py.strip ln)) as [m|] eqn:R; [|discriminate].
    destruct (counter_pattern_groups _ _ R) as (metric & digits & -> & _).
    simpl in *. destruct (Py.int digits) as [v|]; [|discriminate].
    injection V as ->. reflexivity.
Qed.

Lemma stats_loop_harmless (rules : IgnoreRules) (lines : list string) (acc : Counters) :
  (forall ln, In ln lines -> harmless rules ln) -> stats_loop rules lines acc = Ok acc.
Proof.
  induction lines as [|ln rest IH]; intros H; simpl; [reflexivity|].
  rewrite stats_line_harmless by (apply H; now left). simpl.
  apply IH. intros x Hx. apply H. now right.
Qed.

(** C6.  A device-stats line that an ignore pattern matches, whatever
    counter it carries, leaves no trace: with stdout split into
    [before ++ ln :: after], the sub-check returns what it returns on the
    lines [before ++ after] alone (same nonzero count, same lines, same
    verdict); and when each remaining line is blank, ignored or a counter
    at zero, the verdict is OK with a count of 0. *)
Theorem ignored_stats_line_has_no_effect
    (rules : IgnoreRules) (out err : string) (before after : list string) (ln : string) :
  Py.splitlines out = before ++ ln :: after ->
  is_ignored rules (Py.strip ln) = true ->
  device_stats_of rules (0, out, err) = device_stats_lines rules (before ++ after) /\
  ((forall x, In x (before ++ after) -> harmless rules x) ->
   device_stats_of rules (0, out, err)
   = Ok (mkResult OK ["non-zero counters: 0"; "  (none)"])).
Proof.
  intros Hsplit Hign.
  assert (stats_loop rules (before ++ ln :: after) (mkCounters 0 [] false)
          = stats_loop rules (before ++ after) (mkCounters 0 [] false)) as Hloop.
  { rewrite !stats_loop_app.
    destruct (stats_loop rules before (mkCounters 0 [] false)) as [acc|]; [|reflexivity].
    simpl. now rewrite stats_line_ignored. }
  assert (device_stats_of rules (0, out, err) = device_stats_lines rules (before ++ after))
    as Hsame.
  { unfold device_stats_of. simpl. rewrite Hsplit.
    unfold device_stats_lines. now rewrite Hloop. }
  split; [exact Hsame|].
  intros Hrest. rewrite Hsame. unfold device_stats_lines.
  now rewrite stats_loop_harmless.
Qed.

Lemma ignored_stats_line_has_no_effect_witness :
  device_stats_of (mkIgnoreRules [literal_pattern "read_io"])
    (0, "[/dev/sda].read_io_errs 3" +++ Py.NL +++ "[/dev/sda].write_io_errs 0" +++ Py.NL, "")
  = Ok (mkResult OK ["non-zero counters: 0"; "  (none)"]).
Proof.
  apply (ignored_stats_line_has_no_effect (mkIgnoreRules [literal_pattern "read_io"])
           _ "" [] ["[/dev/sda].write_io_errs 0"] "[/dev/sda].read_io_errs 3").
  - reflexivity.
  - reflexivity.
  - intros x [<- | []]. right; right. reflexivity.
Defined.

(** Without the ignore rule the same output is CRITICAL with one counter. *)
Example stats_line_counts_when_not_ignored :
  device_stats_of (mkIgnoreRules [])
    (0, "[/dev/sda].read_io_errs 3" +++ Py.NL +++ "[/dev/sda].write_io_errs 0" +++ Py.NL, "")
  = Ok (mkResult CRITICAL ["non-zero counters: 1"; "  [/dev/sda].read_io_errs 3"]).
Proof. reflexivity. Qed.

(** ** Checks return: no module raises *)

Lemma short_linesb_sound (out : string) : short_linesb out = true -> short_lines out.
Proof.
  unfold short_linesb, short_lines. rewrite forallb_forall, Forall_forall.
  intros H ln Hin. apply Nat.leb_le, H, Hin.
Qed.




(** [run] on arguments without NUL: the answer the world gives. *)
Lemma run_spec (w : World) (n : nat) (c0 : string) (args : list string) :
  existsb Py.has_nul (c0 :: args) = false ->
  Utils.run (c0 :: args) w n = Ok (run_answer w n (c0 :: args), S n).
Proof.
  intros N. unfold Utils.run, run_answer. rewrite N.
  now destruct (subprocess_run w n (c0 :: args)).
Qed.


Lemma run_answer_world (w : World) (n : nat) (cmd : list string) :
  world_answer w (run_answer w n cmd).
Proof.
  unfold run_answer, world_answer.
  destruct (subprocess_run w n cmd) as [code out err|] eqn:E; cbn [fst snd]; eauto.
Qed.



Lemma worst_total (l : list Status) : l <> [] -> exists st, worst l = Ok st.
Proof. destruct l as [|x r]; [congruence|]. intros _. now exists (max_from order x r). Qed.

Lemma merge_total (results : list (string * HealthCheckResult)) :
  results <> [] -> exists r, merge results = Ok r.
Proof.
  intros H. unfold merge.
  destruct (worst_total (map (fun e => status (snd e)) results)) as [st E].
  - destruct results; [congruence | discriminate].
  - rewrite E. simpl. eauto.
Qed.

(** *** Blank text *)

Lemma rstrip_all_space (s : string) :
  Py.all_chars Py.isspace (Py.rstrip s) = true -> Py.rstrip s = "".
Proof.
  induction s as [|c s IH]; simpl; [reflexivity|].
  destruct (Py.rstrip s) as [|a r] eqn:R.
  - destruct (Py.isspace c) eqn:Sc; [reflexivity|]. simpl. now rewrite Sc.
  - simpl. intros H. apply andb_true_iff in H. destruct H as [_ H].
    simpl in IH. specialize (IH H). discriminate.
Qed.

Lemma split_nil_all_space (s : string) :
  Py.split s = [] -> Py.all_chars Py.isspace s = true.
Proof.
  induction s as [|c s IH]; simpl; [reflexivity|].
  destruct (Py.isspace c) eqn:Sc; [simpl; exact IH|].
  destruct s as [|c' s']; [discriminate|].
  destruct (Py.isspace c'); [discriminate|].
  destruct (Py.split (String c' s')); discriminate.
Qed.

Lemma index0_split_strip (s : string) :
  Py.strip s <> "" -> exists token, Py.index0 (Py.split (Py.strip s)) = Ok token.
Proof.
  intros H. destruct (Py.split (Py.strip s)) as [|t ts] eqn:E; [|simpl; eauto].
  exfalso. apply H. apply split_nil_all_space in E. now apply rstrip_all_space.
Qed.

(** *** The sub-checks *)

Lemma state_result_of_total (user : bool) (answer : Z * string * string) :
  exists r, state_result_of user answer = Ok r.
Proof.
  destruct answer as [[code out] err].
  destruct (Z.eq_dec code 127) as [-> | Hc]; [now eexists|].
  destruct (state_result_classification user code out err Hc) as (state & line & _ & E).
  rewrite E. eauto.
Qed.

Lemma collect_units_total (rules : IgnoreRules) (lines units : list string) :
  exists us, collect_units rules lines units = Ok us.
Proof.
  revert units; induction lines as [|line rest IH]; intros units; simpl; [eauto|].
  destruct (Py.truthy (Py.strip line)) eqn:T; simpl; [|apply IH].
  apply truthy_iff in T. destruct (index0_split_strip line T) as [unit E].
  rewrite E. simpl. destruct (negb (is_ignored rules unit)); apply IH.
Qed.

Lemma failed_units_result_of_total (rules : IgnoreRules) (user : bool)
    (answer : Z * string * string) :
  exists r, failed_units_result_of rules user answer = Ok r.
Proof.
  destruct answer as [[code out] err]. unfold failed_units_result_of.
  destruct (code =? 127); [eauto|].
  destruct (negb (code =? 0)); [eauto|].
  destruct (collect_units_total rules (Py.splitlines out) []) as [us E].
  rewrite E. simpl. destruct us; eauto.
Qed.



(** *** Counters within the limit of [int] *)

Lemma stats_line_fits (rules : IgnoreRules) (acc : Counters) (ln : string) :
  fits (stats_digits ln) -> exists acc', stats_line rules acc ln = Ok acc'.
Proof.
  unfold fits, stats_digits, stats_line. intros F.
  destruct (negb (Py.truthy (Py.strip ln))); [eauto|].
  destruct (is_ignored rules (Py.strip ln)); [eauto|].
  destruct (Py.re_match counter_pattern (Py.strip ln)) as [m|] eqn:R; [|eauto].
  destruct (counter_pattern_groups _ _ R) as (metric & digits & -> & N & A & _).
  cbn [group Nat.sub nth_error exc_bind] in *.
  destruct (int_of_digits digits N A F) as [v V]. rewrite V. cbn [exc_bind].
  destruct (negb (v =? 0)); eauto.
Qed.

Lemma stats_loop_fits (rules : IgnoreRules) (lines : list string) (acc : Counters) :
  Forall (fun ln => fits (stats_digits ln)) lines ->
  exists acc', stats_loop rules lines acc = Ok acc'.
Proof.
  intros H. revert acc; induction H as [|ln rest Hln _ IH]; intros acc; simpl; [eauto|].
  destruct (stats_line_fits rules acc ln Hln) as [acc' E]. rewrite E. simpl. apply IH.
Qed.

Lemma counters_fit_stats (out : string) :
  counters_fit out -> Forall (fun ln => fits (stats_digits ln)) (Py.splitlines out).
Proof. apply Forall_impl. now intros ln [H _]. Qed.

Lemma counters_fit_scrub (out : string) :
  counters_fit out -> Forall (fun ln => fits (scrub_digits ln)) (Py.splitlines out).
Proof. apply Forall_impl. now intros ln [_ H]. Qed.

Lemma device_stats_of_fits (rules : IgnoreRules) (code : Z) (out err : string) :
  counters_fit out -> exists r, device_stats_of rules (code, out, err) = Ok r.
Proof.
  intros Hs. unfold device_stats_of, device_stats_lines.
  destruct (code =? 127); [eauto|].
  destruct (negb (code =? 0)); [eauto|].
  destruct (stats_loop_fits rules (Py.splitlines out) (mkCounters 0 [] false)
              (counters_fit_stats out Hs)) as [acc E].
  rewrite E. simpl. eauto.
Qed.

Lemma scan_errors_fits (lines : list string) (counts : list (string * Z)) :
  Forall (fun ln => match Py.re_search scrub_pattern ln with
                    | Some m => forall digits, group m 2 = Ok digits ->
                                               bounded Py.int_max_str_digits digits
                    | None => True
                    end) lines ->
  exists counts', scan_errors lines counts = Ok counts'.
Proof.
  intros H. revert counts; induction H as [|ln rest Hln _ IH]; intros counts; simpl;
    [eauto|].
  destruct (Py.re_search scrub_pattern ln) as [m|] eqn:R; [|apply IH].
  apply re_search_sound in R. destruct R as (s' & _ & R).
  destruct (scrub_pattern_rmatch_groups _ _ R) as (ty & digits & -> & N & A & _).
  destruct (int_of_digits digits N A (Hln digits eq_refl)) as [v V].
  simpl. rewrite V. simpl. apply IH.
Qed.

Lemma scrub_status_of_fits (rules : IgnoreRules) (code : Z) (out err : string) :
  counters_fit out -> exists r, scrub_status_of rules (code, out, err) = Ok r.
Proof.
  intros Hs. unfold scrub_status_of.
  destruct (code =? 127); [eauto|].
  destruct (negb (code =? 0)); [eauto|].
  match goal with |- context [scan_errors ?l []] =>
    destruct (scan_errors_fits l []) as [counts E] end.
  - apply Forall_forall. intros ln Hin. apply filter_In in Hin. destruct Hin as [Hin _].
    apply in_map_iff in Hin. destruct Hin as (x & <- & Hx).
    apply filter_In in Hx. destruct Hx as [Hx _].
    pose proof (counters_fit_scrub out Hs) as F. rewrite Forall_forall in F.
    specialize (F x Hx). unfold fits, scrub_digits in F.
    destruct (Py.re_search scrub_pattern (Py.rstrip x)) as [m|]; [|exact I].
    intros digits G. now rewrite G in F.
  - rewrite E. simpl. eauto.
Qed.

(** Lines within the limit carry counters within the limit. *)
Lemma short_lines_fit (out : string) : short_lines out -> counters_fit out.
Proof.
  unfold short_lines, counters_fit. apply Forall_impl. intros ln B.
  unfold fits, stats_digits, scrub_digits, bounded in *. split.
  - destruct (Py.re_match counter_pattern (Py.strip ln)) as [m|] eqn:R; [|exact I].
    destruct (counter_pattern_groups _ _ R) as (metric & digits & -> & _ & _ & Bd).
    cbn [group Nat.sub nth_error]. unfold bounded in Bd.
    pose proof (strip_length_le ln). lia.
  - destruct (Py.re_search scrub_pattern (Py.rstrip ln)) as [m|] eqn:R; [|exact I].
    apply re_search_sound in R. destruct R as (s' & Hs' & R).
    destruct (scrub_pattern_rmatch_groups _ _ R) as (ty & digits & -> & _ & _ & Bd).
    cbn [group Nat.sub nth_error]. unfold bounded in *.
    pose proof (rstrip_length_le ln). lia.
Qed.

Lemma world_answer_fits (w : World) (answer : Z * string * string) :
  counters_fit_world w -> world_answer w answer -> counters_fit (snd (fst answer)).
Proof.
  intros Hw [E | (n & cmd & E)]; [rewrite E; constructor | exact (Hw _ _ _ _ _ E)].
Qed.

(** *** The modules *)









(** *** The disk module, mount by mount *)











(** *** Failure modes *)

















(** *** The claim on all five modules *)





(* ===================================================================== *)
(** * Further properties of the code *)

(** ** Severities and merged results *)

Lemma worst_ok_max (l : list Status) (m : Status) :
  worst l = Ok m -> l <> [] /\ is_max m l.
Proof.
  destruct l as [|x r]; [discriminate|]. intros E. split; [discriminate|].
  destruct (worst_nonempty x r) as (m' & E' & H). congruence.
Qed.

(** X1.  The worst of a non-empty list is CRITICAL exactly when the list
    holds a CRITICAL, OK exactly when every element is OK, and WARN exactly
    when it holds a WARN and no CRITICAL. *)
Theorem worst_by_content (l : list Status) :
  l <> [] ->
  (worst l = Ok CRITICAL <-> In CRITICAL l) /\
  (worst l = Ok OK <-> forall s, In s l -> s = OK) /\
  (worst l = Ok WARN <-> In WARN l /\ ~ In CRITICAL l).
Proof.
  intros Hne. destruct (worst_total l Hne) as [m E].
  destruct (worst_ok_max l m E) as (_ & Hin & Hup).
  assert (forall m', worst l = Ok m' <-> m = m') as Hm
    by (intros m'; rewrite E; split; congruence).
  rewrite !Hm. split; [|split]; split.
  - now intros <-.
  - intros H. apply Hup in H. destruct m; simpl in H; (reflexivity || lia).
  - intros -> s Hs. apply Hup in Hs. destruct s; simpl in Hs; (reflexivity || lia).
  - intros H. now apply H.
  - intros ->. split; [exact Hin|]. intros H. apply Hup in H. simpl in H. lia.
  - intros [Hw Hc]. pose proof (Hup _ Hw) as L.
    destruct m; simpl in L; [lia | reflexivity | contradiction].
Qed.

Lemma worst_by_content_witness :
  worst [OK; WARN; OK] = Ok WARN <-> In WARN [OK; WARN; OK] /\ ~ In CRITICAL [OK; WARN; OK].
Proof. apply (worst_by_content [OK; WARN; OK]). discriminate. Defined.

Lemma is_max_app (l1 l2 : list Status) (a b m : Status) :
  is_max a l1 -> is_max b l2 -> is_max m [a; b] -> is_max m (l1 ++ l2).
Proof.
  intros [Ia Ua] [Ib Ub] [Im Um]. split.
  - apply in_or_app. destruct Im as [<- | [<- | []]]; auto.
  - intros s Hs. apply in_app_or in Hs. destruct Hs as [Hs | Hs].
    + specialize (Ua _ Hs). specialize (Um a (or_introl eq_refl)). lia.
    + specialize (Ub _ Hs). specialize (Um b (or_intror (or_introl eq_refl))). lia.
Qed.

(** X2.  Severities reduce in stages: the worst of two non-empty lists taken
    together is the worst of their two worsts, so a merge of merged
    sub-results has the severity of all sub-results at once. *)
Theorem worst_of_worsts (l1 l2 : list Status) :
  l1 <> [] -> l2 <> [] ->
  exists a b,
    worst l1 = Ok a /\ worst l2 = Ok b /\ worst (l1 ++ l2) = worst [a; b].
Proof.
  intros H1 H2.
  destruct (worst_total l1 H1) as [a Ea]. destruct (worst_total l2 H2) as [b Eb].
  exists a, b. repeat split; auto.
  destruct (worst_total [a; b]) as [m Em]; [discriminate|].
  destruct (worst_total (l1 ++ l2)) as [m' Em'];
    [destruct l1; [congruence | discriminate]|].
  rewrite Em, Em'. f_equal.
  apply (is_max_unique (l1 ++ l2)); [apply (worst_ok_max _ _ Em')|].
  eapply is_max_app; [apply (worst_ok_max _ _ Ea) | apply (worst_ok_max _ _ Eb)
                     | apply (worst_ok_max _ _ Em)].
Qed.

Lemma worst_of_worsts_witness :
  exists a b,
    worst [OK; WARN] = Ok a /\ worst [CRITICAL] = Ok b /\
    worst ([OK; WARN] ++ [CRITICAL]) = worst [a; b].
Proof. apply (worst_of_worsts [OK; WARN] [CRITICAL]); discriminate. Defined.

Lemma spec_merge_lines_length (results : list (string * HealthCheckResult)) :
  List.length (spec_merge_lines false results)
  = (entry_lines results + 2 * List.length results)%nat.
Proof.
  induction results as [|[name r] rest IH]; [reflexivity|].
  cbn [spec_merge_lines entry_lines List.length].
  rewrite !length_app, IH. simpl. lia.
Qed.

(** X3.  A merge of [n >= 1] entries is OK exactly when every entry is OK,
    and it has every input line plus [n] headers and [n - 1] separators. *)
Theorem merge_status_and_size (results : list (string * HealthCheckResult)) :
  results <> [] ->
  exists r,
    merge results = Ok r /\
    (status r = OK <-> forall e, In e results -> status (snd e) = OK) /\
    List.length (tooltipLines r)
    = (entry_lines results + 2 * List.length results - 1)%nat.
Proof.
  intros Hne. destruct (merge_total results Hne) as [r E]. exists r.
  split; [exact E|]. unfold merge in E. rewrite merge_fold in E.
  destruct (worst (map (fun e => status (snd e)) results)) as [st|] eqn:W;
    [|discriminate].
  simpl in E. injection E as <-. simpl. split.
  - destruct (worst_ok_max _ _ W) as (_ & Hin & Hup). split.
    + intros -> e He.
      assert (order (status (snd e)) <= order OK) as L
        by (apply Hup, in_map_iff; exists e; auto).
      destruct (status (snd e)); simpl in L; (reflexivity || lia).
    + intros H. apply in_map_iff in Hin. destruct Hin as (e & <- & He). now apply H.
  - destruct results as [|[name r] rest]; [congruence|].
    cbn [spec_merge_lines entry_lines List.length].
    rewrite !length_app, spec_merge_lines_length. simpl. lia.
Qed.

Lemma merge_status_and_size_witness :
  exists r,
    merge [("a", mkResult OK ["x"; "y"]); ("b", mkResult WARN [])] = Ok r /\
    (status r = OK <->
     forall e, In e [("a", mkResult OK ["x"; "y"]); ("b", mkResult WARN [])] ->
               status (snd e) = OK) /\
    List.length (tooltipLines r) = 5%nat.
Proof.
  apply (merge_status_and_size [("a", mkResult OK ["x"; "y"]); ("b", mkResult WARN [])]).
  discriminate.
Defined.

(** ** SMART: scan output, health line, verdict *)

Lemma all_chars_and (p q : ascii -> bool) (s : string) :
  Py.all_chars p s = true -> Py.all_chars q s = true ->
  Py.all_chars (fun c => (p c && q c)%bool) s = true.
Proof.
  induction s as [|c s IH]; simpl; [reflexivity|].
  rewrite !andb_true_iff. intros [-> H1] [-> H2]. simpl. auto.
Qed.

Lemma all_chars_lstrip (q : ascii -> bool) (s : string) :
  Py.all_chars q s = true -> Py.all_chars q (Py.lstrip s) = true.
Proof.
  induction s as [|c s IH]; simpl; [reflexivity|].
  intros H. destruct (Py.isspace c); [|exact H].
  apply andb_true_iff in H. now apply IH.
Qed.

Lemma all_chars_rstrip (q : ascii -> bool) (s : string) :
  Py.all_chars q s = true -> Py.all_chars q (Py.rstrip s) = true.
Proof.
  induction s as [|c s IH]; simpl; [reflexivity|].
  intros H. apply andb_true_iff in H. destruct H as [Hc Hs]. specialize (IH Hs).
  destruct (Py.rstrip s) as [|a r].
  - destruct (Py.isspace c); simpl; [reflexivity | now rewrite Hc].
  - simpl in *. now rewrite Hc, IH.
Qed.

Lemma all_chars_strip (q : ascii -> bool) (s : string) :
  Py.all_chars q s = true -> Py.all_chars q (Py.strip s) = true.
Proof. intros H. now apply all_chars_rstrip, all_chars_lstrip. Qed.

Lemma split_tokens_keep (q : ascii -> bool) (s : string) :
  Py.all_chars q s = true -> Forall (fun t => Py.all_chars q t = true) (Py.split s).
Proof.
  induction s as [|c s IH]; simpl; [constructor|].
  intros H. apply andb_true_iff in H. destruct H as [Hc Hs]. specialize (IH Hs).
  destruct (Py.isspace c); [exact IH|].
  destruct s as [|c' s']; [repeat constructor; simpl; now rewrite Hc|].
  destruct (Py.isspace c');
    [constructor; [simpl; now rewrite Hc | exact IH]|].
  destruct (Py.split (String c' s')) as [|t ts];
    [repeat constructor; simpl; now rewrite Hc|].
  inversion IH as [|? ? Ht Hts]; subst.
  constructor; [simpl; now rewrite Hc, Ht | exact Hts].
Qed.

Lemma split_tokens_nonspace (s : string) :
  Forall (fun t => t <> "" /\ Py.all_chars Py.nonspace t = true) (Py.split s).
Proof.
  induction s as [|c s IH]; simpl; [constructor|].
  destruct (Py.isspace c) eqn:Sc; [exact IH|].
  assert (Py.nonspace c = true) as Nc by (unfold Py.nonspace; now rewrite Sc).
  destruct s as [|c' s'];
    [repeat constructor; [discriminate | simpl; now rewrite Nc]|].
  destruct (Py.isspace c');
    [constructor; [split; [discriminate | simpl; now rewrite Nc] | exact IH]|].
  destruct (Py.split (String c' s')) as [|t ts];
    [repeat constructor; [discriminate | simpl; now rewrite Nc]|].
  inversion IH as [|? ? [_ Ht] Hts]; subst.
  constructor; [split; [discriminate | simpl; now rewrite Nc, Ht] | exact Hts].
Qed.

Lemma before_char_clean (sep : ascii) (s : string) :
  Py.all_chars (fun c => negb (Ascii.eqb c sep)) (Py.before_char sep s) = true.
Proof.
  induction s as [|c s IH]; simpl; [reflexivity|].
  destruct (Ascii.eqb c sep) eqn:E; simpl; [reflexivity | now rewrite E, IH].
Qed.

Lemma contains_char_false (c : ascii) (s : string) :
  Py.contains (String c "") s = false ->
  Py.all_chars (fun x => negb (Ascii.eqb x c)) s = true.
Proof.
  induction s as [|a s IH]; simpl; [reflexivity|].
  intros H. apply orb_false_iff in H. destruct H as [Hp Hc].
  rewrite (IH Hc), andb_true_r.
  destruct (Ascii.eqb_spec a c) as [-> | _]; [|reflexivity].
  destruct (ascii_dec c c) as [_ | N]; [|now elim N].
  now destruct s.
Qed.

Lemma split_tokens_clean (line : string) :
  Py.all_chars (fun c => negb (Ascii.eqb c "#")) line = true ->
  Forall clean_token (Py.split line).
Proof.
  intros H. pose proof (split_tokens_keep _ _ H) as K.
  pose proof (split_tokens_nonspace line) as N.
  induction (Py.split line) as [|t ts IH]; [constructor|].
  inversion K as [|? ? Kt Kts]; inversion N as [|? ? [Nt At] Nts]; subst.
  constructor; [|now apply IH]. split; [exact Nt|].
  unfold token_char. now apply all_chars_and.
Qed.

Lemma scan_line_spec (devices : list SmartDevice) (raw : string) :
  exists found,
    scan_line devices raw = devices ++ found /\
    (List.length found <= 1)%nat /\
    Forall well_formed_device found /\
    (comment_or_blank raw -> found = []).
Proof.
  unfold scan_line, comment_or_blank.
  destruct (Py.truthy (Py.strip raw)) eqn:T; simpl.
  2:{ exists []. rewrite app_nil_r. repeat split; auto. }
  destruct (Py.startswith (Py.strip raw) "#") eqn:S; simpl.
  { exists []. rewrite app_nil_r. repeat split; auto. }
  assert (forall P : Prop, Py.strip raw = "" \/ false = true -> P) as Hno.
  { intros P [E | E]; [|discriminate]. apply truthy_iff in T. contradiction. }
  set (line := if Py.contains "#" (Py.strip raw)
               then Py.strip (Py.before_char "#" (Py.strip raw)) else Py.strip raw).
  assert (Py.all_chars (fun c => negb (Ascii.eqb c "#")) line = true) as Hclean.
  { subst line. destruct (Py.contains "#" (Py.strip raw)) eqn:C.
    - apply all_chars_strip, before_char_clean.
    - now apply contains_char_false. }
  destruct (Py.truthy line); simpl.
  2:{ exists []. rewrite app_nil_r. repeat split; auto. }
  pose proof (split_tokens_clean line Hclean) as Htok.
  destruct (Py.split line) as [|p rest].
  { exists []. rewrite app_nil_r. repeat split; auto. }
  inversion Htok as [|? ? Hp Hrest]; subst.
  eexists [_]. split; [reflexivity|]. split; [simpl; lia|]. split; [|apply Hno].
  constructor; [|constructor]. split; [exact Hp|]. simpl.
  destruct rest as [|t1 [|t2 more]]; try discriminate.
  destruct (String.eqb t1 "-d"); [|discriminate].
  intros t E. injection E as <-.
  inversion Hrest as [|? ? _ H2]; inversion H2; subst. assumption.
Qed.

Lemma scan_lines_spec (lines : list string) (devices : list SmartDevice) :
  exists found,
    fold_left scan_line lines devices = devices ++ found /\
    (List.length found <= List.length lines)%nat /\
    Forall well_formed_device found /\
    (Forall comment_or_blank lines -> found = []).
Proof.
  revert devices; induction lines as [|raw rest IH]; intros devices; simpl.
  - exists []. rewrite app_nil_r. repeat split; auto.
  - destruct (scan_line_spec devices raw) as (f1 & E1 & L1 & W1 & C1). rewrite E1.
    destruct (IH (devices ++ f1)) as (f2 & E2 & L2 & W2 & C2). rewrite E2.
    exists (f1 ++ f2). rewrite app_assoc. split; [reflexivity|].
    split; [rewrite length_app; lia|]. split; [now apply Forall_app|].
    intros H. inversion H; subst. rewrite C1, C2; auto.
Qed.

(** X4.  Every device parsed from the scan output has a non-empty path
    without whitespace or comment sign, and so has its type when it carries
    one; a line gives at most one device; text of blank and comment lines
    alone gives none. *)
Theorem parse_scan_output_well_formed (output : string) :
  Forall well_formed_device (parse_scan_output output) /\
  (List.length (parse_scan_output output) <= List.length (Py.splitlines output))%nat /\
  (Forall comment_or_blank (Py.splitlines output) -> parse_scan_output output = []).
Proof.
  unfold parse_scan_output.
  destruct (scan_lines_spec (Py.splitlines output) []) as (found & E & L & W & C).
  rewrite E. simpl. auto.
Qed.

Lemma extract_from_lines_some (lines : list string) (h : string) :
  extract_from_lines lines = Some h <->
  exists l1 line l2,
    lines = l1 ++ line :: l2 /\ h = Py.strip line /\ health_candidate h = true /\
    Forall (fun x => health_candidate (Py.strip x) = false) l1.
Proof.
  induction lines as [|x rest IH]; simpl.
  - split; [discriminate|]. intros (l1 & line & l2 & E & _). now destruct l1.
  - unfold health_candidate in *.
    destruct (Py.truthy (Py.strip x)) eqn:T; simpl.
    + destruct (Py.contains "smart" (Py.lower (Py.strip x))
                && (Py.contains "health" (Py.lower (Py.strip x))
                    || Py.contains "overall" (Py.lower (Py.strip x))
                    || Py.contains "self-assessment" (Py.lower (Py.strip x))))%bool eqn:C.
      * split.
        -- intros E. injection E as <-. exists [], x, rest.
           rewrite T, C. repeat split; constructor.
        -- intros (l1 & line & l2 & E & -> & Hc & Hl1). destruct l1 as [|y l1].
           ++ simpl in E. injection E as -> _. reflexivity.
           ++ simpl in E. injection E as -> _. inversion Hl1 as [|? ? Hy _]; subst.
              rewrite T, C in Hy. discriminate.
      * rewrite IH. split.
        -- intros (l1 & line & l2 & -> & Hh & Hc & Hl1).
           exists (x :: l1), line, l2. repeat split; auto.
           constructor; [now rewrite T, C | exact Hl1].
        -- intros (l1 & line & l2 & E & -> & Hc & Hl1). destruct l1 as [|y l1].
           ++ simpl in E. injection E as -> _. rewrite T, C in Hc. discriminate.
           ++ simpl in E. injection E as -> ->. inversion Hl1; subst.
              exists l1, line, l2. auto.
    + rewrite IH. split.
      * intros (l1 & line & l2 & -> & Hh & Hc & Hl1).
        exists (x :: l1), line, l2. repeat split; auto.
        constructor; [now rewrite T | exact Hl1].
      * intros (l1 & line & l2 & E & -> & Hc & Hl1). destruct l1 as [|y l1].
        -- simpl in E. injection E as -> _. rewrite T in Hc. discriminate.
        -- simpl in E. injection E as -> ->. inversion Hl1; subst.
           exists l1, line, l2. auto.
Qed.

Lemma extract_from_lines_none (lines : list string) :
  extract_from_lines lines = None <->
  Forall (fun x => health_candidate (Py.strip x) = false) lines.
Proof.
  induction lines as [|x rest IH]; simpl; [split; [constructor | reflexivity]|].
  unfold health_candidate in *.
  destruct (Py.truthy (Py.strip x)) eqn:T; simpl.
  - destruct (Py.contains "smart" (Py.lower (Py.strip x))
              && (Py.contains "health" (Py.lower (Py.strip x))
                  || Py.contains "overall" (Py.lower (Py.strip x))
                  || Py.contains "self-assessment" (Py.lower (Py.strip x))))%bool eqn:C.
    + split; [discriminate|]. intros H. inversion H as [|? ? Hx _]; subst.
      rewrite T, C in Hx. discriminate.
    + rewrite IH. split; [intros H; constructor; [now rewrite T, C | exact H]|].
      intros H. now inversion H.
  - rewrite IH. split; [intros H; constructor; [now rewrite T | exact H]|].
    intros H. now inversion H.
Qed.

(** X5.  The health line is the first line of the text that, stripped, is
    not empty and holds "smart" together with "health", "overall" or
    "self-assessment" in any case; it is returned stripped, and there is
    none exactly when no line qualifies. *)
Theorem extract_health_line_is_first_candidate (text : string) :
  (forall h,
     _extract_health_line text = Some h <->
     exists l1 line l2,
       Py.splitlines text = l1 ++ line :: l2 /\ h = Py.strip line /\
       health_candidate h = true /\
       Forall (fun x => health_candidate (Py.strip x) = false) l1) /\
  (_extract_health_line text = None <->
   Forall (fun x => health_candidate (Py.strip x) = false) (Py.splitlines text)).
Proof.
  split; [intros h; apply extract_from_lines_some | apply extract_from_lines_none].
Qed.

Lemma status_from_as_worst (msgs : list (Status * string)) (h : option string) :
  _status_from_exit_and_health msgs h = worst (bit_statuses msgs ++ health_statuses h).
Proof.
  unfold _status_from_exit_and_health, health_statuses, bit_statuses,
    failure_words, unknown_words, passing_words.
  destruct (present h) as [t|]; [|now rewrite app_nil_r].
  destruct (Py.any_in ["fail"; "fault"; "corrupt"] (Py.lower t)); [reflexivity|].
  destruct (Py.any_in ["unknown"; "n/a"; "not supported"] (Py.lower t)); [reflexivity|].
  destruct (Py.any_in ["pass"; "ok"; "good"] (Py.lower t)); reflexivity.
Qed.

Lemma bit_statuses_in (msgs : list (Status * string)) (m : Status * string) :
  In m msgs -> In (fst m) (bit_statuses msgs).
Proof.
  intros H. unfold bit_statuses.
  assert (In (fst m) (map fst msgs)) as I by now apply in_map.
  destruct (map fst msgs); [contradiction | exact I].
Qed.

(** X6.  The verdict of a device is never below the severity of a fired
    bit.  A health line with a failure word makes it CRITICAL whatever else
    the line or the exit code says; a health line without failure word that
    has an unknown word or no passing word makes it at least WARN; and with
    no health line, or one that only passes, the verdict is the worst of the
    bits (OK when none fired). *)
Theorem smart_verdict_bounds (msgs : list (Status * string)) (h : option string) :
  exists st,
    _status_from_exit_and_health msgs h = Ok st /\
    (forall m, In m msgs -> order (fst m) <= order st) /\
    (forall t, present h = Some t ->
       Py.any_in failure_words (Py.lower t) = true -> st = CRITICAL) /\
    (forall t, present h = Some t ->
       Py.any_in failure_words (Py.lower t) = false ->
       Py.any_in unknown_words (Py.lower t) = true \/
       Py.any_in passing_words (Py.lower t) = false ->
       st <> OK) /\
    ((present h = None \/
      exists t, present h = Some t /\
                Py.any_in failure_words (Py.lower t) = false /\
                Py.any_in unknown_words (Py.lower t) = false /\
                Py.any_in passing_words (Py.lower t) = true) ->
     is_max st (bit_statuses msgs)).
Proof.
  rewrite status_from_as_worst.
  destruct (worst_total (bit_statuses msgs ++ health_statuses h)) as [st E].
  { unfold bit_statuses. destruct (map fst msgs); discriminate. }
  exists st. split; [exact E|].
  destruct (worst_ok_max _ _ E) as (_ & Hin & Hup).
  split; [|split; [|split]].
  - intros m Hm. apply Hup, in_or_app. left. now apply bit_statuses_in.
  - intros t Ht F.
    assert (order CRITICAL <= order st) as L.
    { apply Hup, in_or_app. right. unfold health_statuses. rewrite Ht, F. now left. }
    destruct st; simpl in L; (reflexivity || lia).
  - intros t Ht F U.
    assert (order WARN <= order st) as L.
    { apply Hup, in_or_app. right. unfold health_statuses. rewrite Ht, F.
      destruct U as [U | P]; [rewrite U; now left|].
      destruct (Py.any_in unknown_words (Py.lower t)); rewrite ?P; now left. }
    intros ->. simpl in L. lia.
  - intros Hcase.
    assert (health_statuses h = [] \/ health_statuses h = [OK]) as Hh.
    { unfold health_statuses.
      destruct Hcase as [-> | (t & -> & -> & -> & ->)]; auto. }
    assert (In OK (bit_statuses msgs) \/ (exists s, In s (bit_statuses msgs))) as _
      by (right; unfold bit_statuses; destruct (map fst msgs); eexists; now left).
    destruct Hh as [Hh | Hh]; rewrite Hh in *.
    + rewrite app_nil_r in *. now split.
    + split.
      * apply in_app_or in Hin. destruct Hin as [Hin | [<- | []]]; [exact Hin|].
        unfold bit_statuses in *. destruct (map fst msgs) as [|s l] eqn:M; [now left|].
        assert (order s <= order OK) as L by (apply Hup; now left).
        destruct s; simpl in L; [now left | lia | lia].
      * intros s Hs. apply Hup, in_or_app. now left.
Qed.





(** ** The log module and the failed units: what the detail shows *)

Lemma last_n_split {A} (n : nat) (l : list A) :
  exists hidden,
    l = hidden ++ Py.last_n n l /\
    List.length (Py.last_n n l) = Nat.min n (List.length l) /\
    List.length hidden = (List.length l - n)%nat.
Proof.
  unfold Py.last_n. exists (firstn (List.length l - n) l).
  rewrite firstn_skipn, length_skipn, length_firstn. repeat split; lia.
Qed.

(** X8.  When the log module finds kept lines (non-blank, not ignored), it
    answers CRITICAL with the count, and shows the newest lines only: the
    kept lines split into hidden older ones and at most 15 shown ones, in
    their order, and a closing line counts the hidden ones exactly when
    there are some. *)
Theorem journal_shows_most_recent
    (rules : IgnoreRules) (code : Z) (out err : string) :
  code <> 127 -> Py.strip out <> "" -> journal_kept rules out <> [] ->
  exists hidden shown,
    journal_kept rules out = hidden ++ shown /\
    List.length shown = Nat.min 15 (List.length (journal_kept rules out)) /\
    Journal.check_of rules (code, out, err)
    = Ok (mkResult CRITICAL
            (["Journal errors (err..emerg): "
                +++ Py.str_of_nat (List.length (journal_kept rules out));
              ""; "Most recent:"]
             ++ map (fun ln => "  " +++ ln) shown
             ++ match hidden with
                | [] => []
                | _ :: _ => ["  … (+" +++ Py.str_of_nat (List.length hidden) +++ " more)"]
                end)).
Proof.
  intros Hc Hb Hk. unfold Journal.check_of.
  rewrite (proj2 (Z.eqb_neq code 127) Hc).
  apply truthy_iff in Hb. rewrite Hb, andb_false_r. fold (journal_kept rules out).
  set (kept := journal_kept rules out) in *.
  destruct (last_n_split Journal.max_tooltip_lines kept) as (hidden & Es & Ls & Lh).
  exists hidden, (Py.last_n Journal.max_tooltip_lines kept).
  split; [exact Es|]. split; [exact Ls|].
  assert (Nat.eqb (List.length kept) 0 = false) as ->
    by (destruct kept; [congruence | reflexivity]).
  destruct (Py.last_n Journal.max_tooltip_lines kept) as [|x recent] eqn:R.
  { exfalso. simpl in Ls. unfold Journal.max_tooltip_lines in Ls.
    destruct kept; [congruence | simpl in Ls; lia]. }
  rewrite <- R in *. unfold Journal.max_tooltip_lines in *.
  destruct (Nat.ltb_spec (List.length (Py.last_n 15 kept)) (List.length kept)) as [L | L].
  - destruct hidden as [|h hs]; [simpl in Lh; lia|].
    rewrite Ls. replace (List.length kept - Nat.min 15 (List.length kept))%nat
      with (List.length (h :: hs)) by lia.
    now rewrite <- !app_assoc.
  - destruct hidden as [|h hs]; [now rewrite app_nil_r | simpl in Lh; lia].
Qed.

Lemma journal_shows_most_recent_witness :
  exists hidden shown,
    journal_kept (mkIgnoreRules [literal_pattern "noise"])
      ("a" +++ Py.NL +++ "noise" +++ Py.NL +++ "b" +++ Py.NL) = hidden ++ shown /\
    List.length shown = 2%nat.
Proof.
  destruct (journal_shows_most_recent (mkIgnoreRules [literal_pattern "noise"]) 0
              ("a" +++ Py.NL +++ "noise" +++ Py.NL +++ "b" +++ Py.NL) "")
    as (hidden & shown & E & L & _); try discriminate.
  exists hidden, shown. split; [exact E | exact L].
Defined.

Lemma collect_units_spec (rules : IgnoreRules) (lines units : list string) :
  collect_units rules lines units = Ok (units ++ failed_units rules lines).
Proof.
  revert units; induction lines as [|line rest IH]; intros units;
    cbn [collect_units failed_units flat_map].
  - now rewrite app_nil_r.
  - fold (failed_units rules rest).
    destruct (Py.truthy (Py.strip line)) eqn:T; cbn [negb].
    + apply truthy_iff in T. destruct (index0_split_strip line T) as [unit E].
      destruct (Py.split (Py.strip line)) as [|u us]; [discriminate E|].
      injection E as ->. cbn [Py.index0 exc_bind].
      destruct (is_ignored rules unit); cbn [negb]; rewrite IH;
        [reflexivity | now rewrite <- app_assoc].
    + rewrite IH. apply truthy_false_iff in T. rewrite T. reflexivity.
Qed.

Lemma failed_units_clean (rules : IgnoreRules) (lines : list string) :
  Forall (fun u => is_ignored rules u = false /\ u <> "" /\
                   Py.all_chars Py.nonspace u = true)
         (failed_units rules lines).
Proof.
  induction lines as [|line rest IH]; cbn [failed_units flat_map]; [constructor|].
  fold (failed_units rules rest). apply Forall_app. split; [|exact IH].
  pose proof (split_tokens_nonspace (Py.strip line)) as N.
  destruct (Py.split (Py.strip line)) as [|u us]; [constructor|].
  destruct (is_ignored rules u) eqn:I; [constructor|].
  inversion N as [|? ? [Hu Hc] _]; subst. repeat constructor; auto.
Qed.

(** X9.  On exit code 0 the failed-units sub-check keeps the first word of
    every non-blank line unless a rule ignores it: it is CRITICAL exactly
    when a unit is kept, no listed unit is ignored, empty or holds a space,
    and it names at most 10 units, with one more line for the rest when
    there are more than 10. *)
Theorem failed_units_listed (rules : IgnoreRules) (user : bool) (out err : string) :
  let units := failed_units rules (Py.splitlines out) in
  Forall (fun u => is_ignored rules u = false /\ u <> "" /\
                   Py.all_chars Py.nonspace u = true) units /\
  exists lines,
    failed_units_result_of rules user (0, out, err)
    = Ok (mkResult (if Py.is_nil units then OK else CRITICAL) lines) /\
    List.length lines
    = (if Py.is_nil units then 1
       else 1 + Nat.min 10 (List.length units)
            + (if Nat.ltb 10 (List.length units) then 1 else 0))%nat /\
    (forall u, In u (firstn 10 units) -> In ("  • " +++ u) lines).
Proof.
  intros units. split; [apply failed_units_clean|].
  unfold failed_units_result_of. cbn [Z.eqb negb].
  rewrite collect_units_spec. cbn [app exc_bind]. fold units. clearbody units.
  destruct units as [|u us].
  - eexists. repeat split. intros u [].
  - set (units := u :: us). eexists. split; [reflexivity|].
    unfold max_tooltip_units. cbn [Py.is_nil]. split.
    + destruct (Nat.ltb 10 (List.length units));
        rewrite ?length_app; cbn [List.length]; rewrite ?length_app, length_map,
        length_firstn; simpl; lia.
    + intros x Hx.
      assert (In ("  • " +++ x) (map (fun u0 => "  • " +++ u0) (firstn 10 units)))
        as Hin by (apply in_map_iff; eauto).
      destruct (Nat.ltb 10 (List.length units)); right;
        [apply in_or_app; now left | exact Hin].
Qed.

(** ** The filesystem module: counters, scrub errors, root type *)

Lemma stats_line_step (rules : IgnoreRules) (acc : Counters) (ln : string) :
  fits (stats_digits ln) ->
  stats_line rules acc ln
  = Ok (mkCounters (nonzero acc + (if nonzero_line rules ln then 1 else 0))
          (interesting acc ++ interesting_of rules ln)
          (parse_err acc || unparsed_line rules ln)).
Proof.
  intros Hln. destruct acc as [nz int pe].
  unfold fits, stats_digits in Hln.
  unfold stats_line, interesting_of, nonzero_line, unparsed_line, considered,
    counter_value. cbn [nonzero interesting parse_err].
  destruct (Py.truthy (Py.strip ln)); cbn [negb andb];
    [|now rewrite Nat.add_0_r, app_nil_r, orb_false_r].
  destruct (is_ignored rules (Py.strip ln)); cbn [negb andb];
    [now rewrite Nat.add_0_r, app_nil_r, orb_false_r|].
  destruct (Py.re_match counter_pattern (Py.strip ln)) as [m|] eqn:R;
    [|now rewrite Nat.add_0_r, orb_true_r].
  destruct (counter_pattern_groups _ _ R) as (metric & digits & -> & N & A & B).
  cbn [group Nat.sub nth_error] in Hln.
  destruct (int_of_digits digits N A Hln) as [v V].
  cbn [group Nat.sub nth_error exc_bind]. rewrite V. cbn [exc_bind].
  destruct (negb (v =? 0)); [now rewrite orb_false_r|].
  now rewrite Nat.add_0_r, app_nil_r, orb_false_r.
Qed.

Lemma stats_loop_counts (rules : IgnoreRules) (lines : list string) (acc : Counters) :
  Forall (fun ln => fits (stats_digits ln)) lines ->
  stats_loop rules lines acc
  = Ok (mkCounters (nonzero acc + List.length (filter (nonzero_line rules) lines))
          (interesting acc ++ flat_map (interesting_of rules) lines)
          (parse_err acc || existsb (unparsed_line rules) lines)).
Proof.
  intros H. revert acc; induction H as [|ln rest Hln _ IH]; intros acc;
    cbn [stats_loop filter flat_map existsb List.length].
  - destruct acc. cbn. now rewrite Nat.add_0_r, app_nil_r, orb_false_r.
  - rewrite (stats_line_step rules acc ln Hln). cbn [exc_bind]. rewrite IH.
    cbn [nonzero interesting parse_err]. f_equal. f_equal.
    + destruct (nonzero_line rules ln); cbn [List.length]; lia.
    + now rewrite <- app_assoc.
    + now rewrite orb_assoc.
Qed.

Lemma interesting_length (rules : IgnoreRules) (lines : list string) :
  (List.length (filter (nonzero_line rules) lines)
   <= List.length (flat_map (interesting_of rules) lines))%nat.
Proof.
  induction lines as [|ln rest IH]; cbn [filter flat_map]; [lia|].
  rewrite length_app. unfold interesting_of at 1.
  destruct (nonzero_line rules ln); cbn [List.length]; lia.
Qed.

(** X10.  On exit code 0, for ASCII output in which no counter exceeds the
    limit of [int], the device-stats sub-check counts exactly the lines
    that are not blank, not ignored and carry a counter other than zero.
    It is CRITICAL when that count is positive, WARN when it is zero and a
    considered line does not parse, OK otherwise.  The detail opens with
    the count, goes on with the first 12 of the nonzero-counter and
    unparsed lines, indented, and closes with the line "(none)" exactly
    when the count is zero: 13 further lines at most, 12 when the count is
    positive. *)
Theorem device_stats_counts_nonzero_lines (rules : IgnoreRules) (out err : string) :
  Py.all_chars Py.isascii out = true ->
  counters_fit out ->
  let lines := Py.splitlines out in
  let count := List.length (filter (nonzero_line rules) lines) in
  let details :=
    map (fun ln => "  " +++ ln) (firstn 12 (flat_map (interesting_of rules) lines))
    ++ (if Nat.eqb count 0 then ["  (none)"] else []) in
  device_stats_of rules (0, out, err)
  = Ok (mkResult (if Nat.ltb 0 count then CRITICAL
                  else if existsb (unparsed_line rules) lines then WARN
                  else OK)
          (("non-zero counters: " +++ Py.str_of_nat count) :: details)) /\
  List.length details
  = (Nat.min 12 (List.length (flat_map (interesting_of rules) lines))
     + (if Nat.eqb count 0 then 1 else 0))%nat /\
  (count = 0%nat -> existsb (unparsed_line rules) lines = false ->
   details = ["  (none)"]).
Proof.
  intros _ Hs lines count details. unfold device_stats_of, device_stats_lines.
  cbn [Z.eqb negb]. fold lines.
  rewrite (stats_loop_counts rules lines _ (counters_fit_stats out Hs)).
  cbn [exc_bind nonzero interesting parse_err Nat.add app orb]. fold count.
  split; [|split].
  - unfold details, max_tooltip_lines.
    destruct (Nat.eqb count 0); [reflexivity | now rewrite app_nil_r].
  - unfold details. rewrite length_app, length_map, length_firstn.
    now destruct (Nat.eqb count 0).
  - intros Hz Hu. unfold details. rewrite Hz. cbn [Nat.eqb].
    assert (flat_map (interesting_of rules) lines = []) as ->; [|reflexivity].
    assert (forall l, filter (nonzero_line rules) l = [] ->
                      existsb (unparsed_line rules) l = false ->
                      flat_map (interesting_of rules) l = []) as Hnil.
    { induction l as [|x l IH]; cbn [filter existsb flat_map]; [reflexivity|].
      unfold interesting_of at 1. destruct (nonzero_line rules x); [discriminate|].
      intros Hf He. apply orb_false_iff in He. destruct He as [-> He]. now apply IH. }
    apply Hnil; [|exact Hu]. now apply length_zero_iff_nil.
Qed.

Lemma device_stats_counts_nonzero_lines_witness :
  device_stats_of (mkIgnoreRules [])
    (0, "[/dev/sda].read_io_errs 3" +++ Py.NL +++ "garbage" +++ Py.NL, "")
  = Ok (mkResult CRITICAL
          ["non-zero counters: 1"; "  [/dev/sda].read_io_errs 3";
           "  couldn't parse this line: garbage"]).
Proof.
  apply (device_stats_counts_nonzero_lines (mkIgnoreRules [])
           ("[/dev/sda].read_io_errs 3" +++ Py.NL +++ "garbage" +++ Py.NL) "").
  - reflexivity.
  - apply short_lines_fit, short_linesb_sound. reflexivity.
Defined.

Lemma scrub_entry_bounded (ln : string) :
  bounded Py.int_max_str_digits ln ->
  match Py.re_search scrub_pattern ln with
  | Some m =>
      exists k digits v,
        m = [k; digits] /\ Py.int digits = Ok v /\ scrub_entry ln = Some (k, v)
  | None => scrub_entry ln = None
  end.
Proof.
  intros Hln. unfold scrub_entry.
  destruct (Py.re_search scrub_pattern ln) as [m|] eqn:R; [|reflexivity].
  apply re_search_sound in R. destruct R as (s' & Hs' & R).
  destruct (scrub_pattern_rmatch_groups _ _ R) as (k & digits & -> & N & A & B).
  destruct (int_of_digits digits N A) as [v V]; [unfold bounded in *; lia|].
  exists k, digits, v. cbn [group Nat.sub nth_error]. now rewrite V.
Qed.

Lemma scan_errors_fold (lines : list string) (counts : list (string * Z)) :
  Forall (bounded Py.int_max_str_digits) lines ->
  scan_errors lines counts = Ok (fold_left record_entry lines counts).
Proof.
  intros H. revert counts; induction H as [|ln rest Hln _ IH]; intros counts;
    cbn [scan_errors fold_left]; [reflexivity|].
  pose proof (scrub_entry_bounded ln Hln) as S. unfold record_entry at 2.
  destruct (Py.re_search scrub_pattern ln) as [m|].
  - destruct S as (k & digits & v & -> & V & ->).
    cbn [group Nat.sub nth_error exc_bind]. rewrite V. cbn [exc_bind]. apply IH.
  - rewrite S. apply IH.
Qed.

Lemma dict_set_keys (d : list (string * Z)) (k : string) (v : Z) (k' : string) :
  In k' (map fst (dict_set d k v)) <-> k' = k \/ In k' (map fst d).
Proof.
  induction d as [|[a b] r IH]; cbn [dict_set map In fst].
  - intuition.
  - destruct (String.eqb_spec a k) as [-> | Hne]; cbn [map In fst];
      [intuition congruence|].
    rewrite IH. tauto.
Qed.

Lemma dict_set_NoDup (d : list (string * Z)) (k : string) (v : Z) :
  NoDup (map fst d) -> NoDup (map fst (dict_set d k v)).
Proof.
  induction d as [|[a b] r IH]; cbn [dict_set map fst].
  - intros _. repeat constructor. intros [].
  - intros H. inversion H as [|? ? Hnot Hr]; subst.
    destruct (String.eqb_spec a k) as [-> | Hne]; cbn [map fst]; [exact H|].
    constructor; [|now apply IH].
    rewrite dict_set_keys. intros [-> | Hin]; [now apply Hne | contradiction].
Qed.

Lemma dict_set_in (d : list (string * Z)) (k0 : string) (v0 : Z) (k : string) (v : Z) :
  NoDup (map fst d) ->
  (In (k, v) (dict_set d k0 v0) <-> (k = k0 /\ v = v0) \/ (k <> k0 /\ In (k, v) d)).
Proof.
  induction d as [|[a b] r IH]; cbn [dict_set map fst In].
  - intros _. split.
    + intros [E | []]. injection E as <- <-. now left.
    + intros [[-> ->] | [_ []]]. now left.
  - intros H. inversion H as [|? ? Hnot Hr]; subst.
    destruct (String.eqb_spec a k0) as [-> | Hne]; cbn [In].
    + split.
      * intros [E | Hin]; [injection E as <- <-; now left|].
        right. split; [|now right]. intros ->. apply Hnot.
        apply in_map_iff. now exists (k0, v).
      * intros [[-> ->] | [Hk [E | Hin]]]; [now left | | now right].
        injection E as -> _. now elim Hk.
    + rewrite (IH Hr). split.
      * intros [E | [[-> ->] | [Hk Hin]]]; [|now left | right; auto].
        injection E as <- <-. right. split; [exact Hne | now left].
      * intros [[-> ->] | [Hk [E | Hin]]]; [right; now left | now left | right; right; auto].
Qed.

Lemma app_last_split {A} (l l1 l2 : list A) (a x : A) :
  l ++ [a] = l1 ++ x :: l2 ->
  (l2 = [] /\ l = l1 /\ a = x) \/ (exists l2', l2 = l2' ++ [a] /\ l = l1 ++ x :: l2').
Proof.
  intros E. destruct l2 as [|y l2]; [left | right].
  - apply app_inj_tail in E. destruct E; auto.
  - destruct (@exists_last _ (y :: l2)) as (l2' & b & E'); [discriminate|].
    rewrite E' in *. change (l1 ++ x :: l2' ++ [b]) with (l1 ++ (x :: l2') ++ [b]) in E.
    rewrite app_assoc in E. apply app_inj_tail in E. destruct E as [-> ->]. eauto.
Qed.

Lemma last_record_snoc (l : list string) (ln : string) (k : string) (v : Z) :
  last_record (l ++ [ln]) k v <->
  match scrub_entry ln with
  | Some (k0, v0) => (k = k0 /\ v = v0) \/ (k <> k0 /\ last_record l k v)
  | None => last_record l k v
  end.
Proof.
  unfold last_record. split.
  - intros (l1 & x & l2 & E & Hx & Hl2).
    apply app_last_split in E. destruct E as [(-> & -> & ->) | (l2' & -> & ->)].
    + rewrite Hx. now left.
    + assert (forall v', scrub_entry ln <> Some (k, v')) as Hln
        by (apply Hl2, in_or_app; right; now left).
      assert (exists l1' x' l2'', l1 ++ x :: l2' = l1' ++ x' :: l2'' /\
                scrub_entry x' = Some (k, v) /\
                forall y, In y l2'' -> forall v', scrub_entry y <> Some (k, v')) as R.
      { exists l1, x, l2'. repeat split; auto.
        intros y Hy. apply Hl2, in_or_app. now left. }
      destruct (scrub_entry ln) as [[k0 v0]|]; [|exact R].
      right. split; [|exact R]. intros ->. now apply (Hln v0).
  - intros H.
    assert ((exists l1 x l2, l = l1 ++ x :: l2 /\ scrub_entry x = Some (k, v) /\
               forall y, In y l2 -> forall v', scrub_entry y <> Some (k, v')) ->
            (forall v', scrub_entry ln <> Some (k, v')) ->
            exists l1 x l2, l ++ [ln] = l1 ++ x :: l2 /\ scrub_entry x = Some (k, v) /\
               forall y, In y l2 -> forall v', scrub_entry y <> Some (k, v')) as Keep.
    { intros (l1 & x & l2 & -> & Hx & Hl2) Hln.
      exists l1, x, (l2 ++ [ln]). rewrite <- app_assoc. repeat split; auto.
      intros y Hy. apply in_app_or in Hy. destruct Hy as [Hy | [<- | []]]; auto. }
    destruct (scrub_entry ln) as [[k0 v0]|] eqn:S.
    + destruct H as [[-> ->] | [Hk R]].
      * exists l, ln, []. repeat split; auto.
      * apply Keep; [exact R|]. intros v' E. injection E as -> _. now apply Hk.
    + apply Keep; [exact H | discriminate].
Qed.

Lemma digits_value_nonneg (s : string) (acc : Z) :
  0 <= acc -> Py.all_chars Py.isdigit s = true -> 0 <= Py.digits_value acc s.
Proof.
  revert acc; induction s as [|c s IH]; intros acc Ha;
    cbn [Py.digits_value Py.all_chars]; [auto|].
  intros H. apply andb_true_iff in H. destruct H as [Hc Hs].
  apply IH; [|exact Hs]. unfold Py.isdigit, Py.char_in in Hc.
  apply andb_true_iff in Hc. destruct Hc as [Hc _]. apply Nat.leb_le in Hc. lia.
Qed.

Lemma scrub_entry_nonneg (ln k : string) (v : Z) :
  scrub_entry ln = Some (k, v) -> 0 <= v.
Proof.
  unfold scrub_entry. destruct (Py.re_search scrub_pattern ln); [|discriminate].
  destruct (group l 1); [|discriminate]. destruct (group l 2) as [d|]; [|discriminate].
  unfold Py.int. destruct (Py.truthy d && Py.all_digits d)%bool eqn:T; [|discriminate].
  destruct (Nat.leb _ _); [|discriminate]. intros E. injection E as _ <-.
  apply andb_true_iff in T. now apply digits_value_nonneg.
Qed.

Lemma record_entries_spec (lines : list string) :
  NoDup (map fst (fold_left record_entry lines [])) /\
  forall k v, In (k, v) (fold_left record_entry lines []) <-> last_record lines k v.
Proof.
  induction lines as [|ln l IH] using rev_ind.
  - split; [constructor|]. intros k v. split; [intros []|].
    intros (l1 & x & l2 & E & _). now destruct l1.
  - destruct IH as [Hnd Hin]. rewrite fold_left_app. cbn [fold_left].
    unfold record_entry at 1 3. split.
    + destruct (scrub_entry ln) as [[k0 v0]|]; [now apply dict_set_NoDup | exact Hnd].
    + intros k v. rewrite last_record_snoc.
      destruct (scrub_entry ln) as [[k0 v0]|]; [|apply Hin].
      rewrite (dict_set_in _ k0 v0 k v Hnd), Hin. reflexivity.
Qed.

(** X11.  The scrub loop keeps one count per error type, the one of the
    last line that records the type: over lines short enough for [int] it
    returns a table without repeated types in which a type has a count
    exactly when that count is what the last line recording the type says;
    no count is negative. *)
Theorem scrub_last_record_wins (lines : list string) :
  Forall (bounded Py.int_max_str_digits) lines ->
  exists counts,
    scan_errors lines [] = Ok counts /\
    NoDup (map fst counts) /\
    (forall k v, In (k, v) counts <-> last_record lines k v) /\
    (forall k v, In (k, v) counts -> 0 <= v).
Proof.
  intros H. exists (fold_left record_entry lines []).
  destruct (record_entries_spec lines) as [Hnd Hin].
  repeat split; try apply Hin; auto using scan_errors_fold.
  intros k v Hkv. apply Hin in Hkv. destruct Hkv as (l1 & ln & l2 & _ & E & _).
  eapply scrub_entry_nonneg; eauto.
Qed.

Lemma scrub_last_record_wins_witness :
  exists counts,
    scan_errors ["csum_errors: 2"; "read_errors: 0"; "csum_errors: 5"] [] = Ok counts /\
    NoDup (map fst counts).
Proof.
  destruct (scrub_last_record_wins ["csum_errors: 2"; "read_errors: 0"; "csum_errors: 5"])
    as (counts & E & N & _).
  - repeat constructor; apply Nat.leb_le; reflexivity.
  - exists counts. split; [exact E | exact N].
Defined.

Lemma fold_left_add (l : list Z) (a : Z) :
  fold_left Z.add l a = a + fold_right Z.add 0 l.
Proof.
  revert a; induction l as [|x r IH]; intros a; simpl; [lia|]. rewrite IH. lia.
Qed.

Lemma total_nonneg (counts : list (string * Z)) :
  Forall (fun item => 0 <= snd item) counts -> 0 <= fold_right Z.add 0 (map snd counts).
Proof. induction 1 as [|x r Hx _ IH]; simpl; lia. Qed.

Lemma total_positive (counts : list (string * Z)) :
  Forall (fun item => 0 <= snd item) counts ->
  (fold_left Z.add (map snd counts) 0 >? 0) = existsb positive counts.
Proof.
  intros H. rewrite fold_left_add, Z.add_0_l.
  induction H as [|x r Hx Hr IH]; [reflexivity|].
  cbn [map fold_right existsb]. unfold positive at 1.
  pose proof (total_nonneg r Hr) as Hs.
  destruct (Z.gtb_spec (snd x) 0) as [Pv | Pv]; cbn [orb].
  - apply Z.gtb_lt. lia.
  - rewrite <- IH. replace (snd x) with 0 by lia. reflexivity.
Qed.

Lemma item_leb_total (a b : string * Z) : item_leb a b = false -> item_leb b a = true.
Proof.
  unfold item_leb. rewrite (String.compare_antisym (fst b) (fst a)).
  destruct (String.compare (fst a) (fst b)); cbn [CompOpp]; try discriminate; auto.
  intros H. apply Z.leb_gt in H. apply Z.leb_le. lia.
Qed.

Lemma insert_sorted_perm (x : string * Z) (l : list (string * Z)) :
  Permutation (insert_sorted x l) (x :: l).
Proof.
  induction l as [|y r IH]; cbn [insert_sorted]; [reflexivity|].
  destruct (item_leb x y); [reflexivity|].
  rewrite IH. apply perm_swap.
Qed.

Lemma insert_sorted_sorted (x : string * Z) (l : list (string * Z)) :
  Sorted item_le l -> Sorted item_le (insert_sorted x l).
Proof.
  induction l as [|y r IH]; cbn [insert_sorted]; intros H.
  - repeat constructor.
  - destruct (item_leb x y) eqn:L.
    + constructor; [exact H | now constructor].
    + inversion H as [|? ? Hr Hd]; subst. constructor; [now apply IH|].
      apply item_leb_total in L.
      destruct r as [|z r']; cbn [insert_sorted]; [now constructor|].
      destruct (item_leb x z); constructor; auto. now inversion Hd.
Qed.

Lemma sorted_spec (l : list (string * Z)) :
  Permutation (sorted l) l /\ Sorted item_le (sorted l).
Proof.
  unfold sorted. induction l as [|x r [P S]]; cbn [fold_right].
  - split; constructor.
  - split; [now rewrite insert_sorted_perm, P | now apply insert_sorted_sorted].
Qed.

Lemma scrub_lines_bounded (rules : IgnoreRules) (out : string) :
  short_lines out -> Forall (bounded Py.int_max_str_digits) (scrub_lines rules out).
Proof.
  intros Hs. apply Forall_forall. intros ln Hin.
  apply filter_In in Hin. destruct Hin as [Hin _].
  apply in_map_iff in Hin. destruct Hin as (x & <- & Hx).
  apply filter_In in Hx. destruct Hx as [Hx _].
  unfold short_lines in Hs. rewrite Forall_forall in Hs. specialize (Hs _ Hx).
  unfold bounded in *. pose proof (rstrip_length_le x). lia.
Qed.

(** X12.  On exit code 0 with lines short enough for [int], the scrub
    sub-check is CRITICAL exactly when a recorded count is above zero, WARN
    when nothing was recorded, OK otherwise.  Its detail gives the total
    and then the entries above zero in the order of the sorted table, which
    holds the recorded entries in ascending order of error type. *)
Theorem scrub_verdict_and_details (rules : IgnoreRules) (out err : string) :
  short_lines out ->
  exists counts,
    scan_errors (scrub_lines rules out) [] = Ok counts /\
    Permutation (sorted counts) counts /\
    Sorted item_le (sorted counts) /\
    scrub_status_of rules (0, out, err)
    = Ok (mkResult
            (if existsb positive counts then CRITICAL
             else if Py.is_nil counts then WARN else OK)
            (if Py.is_nil counts then ["unable to parse scrub output"]
             else ("scrub errors: " +++ Py.str_of_int (fold_left Z.add (map snd counts) 0))
                  :: map scrub_line (filter positive (sorted counts)))).
Proof.
  intros Hs. pose proof (scrub_lines_bounded rules out Hs) as Hb.
  exists (fold_left record_entry (scrub_lines rules out) []).
  set (counts := fold_left record_entry (scrub_lines rules out) []).
  split; [now apply scan_errors_fold|].
  destruct (sorted_spec counts) as [P S]. split; [exact P|]. split; [exact S|].
  unfold scrub_status_of. cbn [Z.eqb negb]. fold (scrub_lines rules out).
  rewrite (scan_errors_fold _ _ Hb). fold counts. cbn [exc_bind].
  rewrite total_positive.
  - destruct counts; reflexivity.
  - apply Forall_forall. intros [k v] Hkv.
    apply (proj2 (record_entries_spec (scrub_lines rules out))) in Hkv.
    destruct Hkv as (l1 & ln & l2 & _ & E & _). eapply scrub_entry_nonneg; eauto.
Qed.

Lemma scrub_verdict_and_details_witness :
  scrub_status_of (mkIgnoreRules [])
    (0, "  read_errors: 0" +++ Py.NL +++ "  csum_errors: 2" +++ Py.NL
        +++ "  a_error:1" +++ Py.NL, "")
  = Ok (mkResult CRITICAL ["scrub errors: 3"; " - a_error: 1"; " - csum_errors: 2"]).
Proof.
  destruct (scrub_verdict_and_details (mkIgnoreRules [])
              ("  read_errors: 0" +++ Py.NL +++ "  csum_errors: 2" +++ Py.NL
               +++ "  a_error:1" +++ Py.NL) "") as (counts & E & _ & _ & R).
  - apply short_linesb_sound. reflexivity.
  - rewrite R. vm_compute in E. injection E as <-. reflexivity.
Defined.

Lemma run_then_lift {A} (c0 : string) (args : list string)
    (f : Z * string * string -> Exc A) (w : World) (k : nat) :
  existsb Py.has_nul (c0 :: args) = false ->
  bind (Utils.run (c0 :: args)) (fun answer => lift (f answer)) w k
  = match f (run_answer w k (c0 :: args)) with
    | Ok a => Ok (a, S k)
    | Raise e => Raise e
    end.
Proof. intros N. unfold bind. rewrite run_spec by exact N. reflexivity. Qed.

Lemma detect_root_fstype_spec (w : World) (n : nat) :
  detect_root_fstype w n
  = Ok (if usable (run_answer w n findmnt_cmd)
        then (Py.strip (snd (fst (run_answer w n findmnt_cmd))), S n)
        else if usable (run_answer w (S n) stat_cmd)
        then (Py.strip (snd (fst (run_answer w (S n) stat_cmd))), S (S n))
        else ("unknown", S (S n))).
Proof.
  unfold detect_root_fstype, usable, findmnt_cmd, stat_cmd.
  unfold bind at 1. rewrite run_spec by reflexivity.
  destruct (run_answer w n ["findmnt"; "-n"; "-o"; "FSTYPE"; "/"]) as [[c1 o1] e1].
  cbn [fst snd]. destruct ((c1 =? 0) && Py.truthy (Py.strip o1))%bool; [reflexivity|].
  unfold bind at 1. rewrite run_spec by reflexivity.
  destruct (run_answer w (S n) ["stat"; "-f"; "-c"; "%T"; "/"]) as [[c2 o2] e2].
  cbn [fst snd]. destruct ((c2 =? 0) && Py.truthy (Py.strip o2))%bool; reflexivity.
Qed.

(** X13.  The root filesystem type is the stripped stdout of the first
    probe when that probe exits 0 with a stdout that is not blank; otherwise
    the second probe runs and the type is its stripped stdout under the same
    condition, and "unknown" when neither probe can be used; it is never
    the empty text.  When the type is not "btrfs" the check ends there with
    WARN and one line naming the type, and no btrfs command has run; when it
    is, and no counter exceeds the limit of [int], the device-stats and the
    scrub command follow, one call each, and the check returns the merge of
    their two results. *)
Theorem btrfs_root_type_gate (rules : IgnoreRules) (w : World) (n : nat) :
  exists fstype n',
    detect_root_fstype w n = Ok (fstype, n') /\
    fstype <> "" /\
    (usable (run_answer w n findmnt_cmd) = true ->
     n' = S n /\ fstype = Py.strip (snd (fst (run_answer w n findmnt_cmd)))) /\
    (usable (run_answer w n findmnt_cmd) = false ->
     n' = S (S n) /\
     (usable (run_answer w (S n) stat_cmd) = true ->
      fstype = Py.strip (snd (fst (run_answer w (S n) stat_cmd)))) /\
     (usable (run_answer w (S n) stat_cmd) = false -> fstype = "unknown")) /\
    (fstype <> "btrfs" ->
     Btrfs.check rules w n
     = Ok (mkResult WARN ["(root is '" +++ fstype +++ "', not btrfs. check your config)"],
           n')) /\
    (fstype = "btrfs" -> counters_fit_world w ->
     exists stats scrub r,
       device_stats_of rules (run_answer w n' ["btrfs"; "device"; "stats"; "/"])
         = Ok stats /\
       scrub_status_of rules (run_answer w (S n') ["btrfs"; "scrub"; "status"; "-R"; "/"])
         = Ok scrub /\
       merge [("## Device stats", stats); ("## Scrub", scrub)] = Ok r /\
       Btrfs.check rules w n = Ok (r, S (S n'))).
Proof.
  pose proof (detect_root_fstype_spec w n) as D.
  assert (forall a, usable a = true -> Py.strip (snd (fst a)) <> "") as Hu.
  { intros a H. unfold usable in H. apply andb_true_iff in H. now apply truthy_iff. }
  set (a1 := run_answer w n findmnt_cmd) in *.
  set (a2 := run_answer w (S n) stat_cmd) in *.
  assert (exists fstype n', detect_root_fstype w n = Ok (fstype, n') /\ fstype <> "" /\
            (usable a1 = true -> n' = S n /\ fstype = Py.strip (snd (fst a1))) /\
            (usable a1 = false ->
             n' = S (S n) /\
             (usable a2 = true -> fstype = Py.strip (snd (fst a2))) /\
             (usable a2 = false -> fstype = "unknown")))
    as (fstype & n' & E & Hne & H1 & H2).
  { destruct (usable a1) eqn:U1.
    - eexists _, _. split; [exact D|]. repeat split; auto; discriminate.
    - destruct (usable a2) eqn:U2; eexists _, _; (split; [exact D|]);
        repeat split; auto; discriminate. }
  exists fstype, n'. split; [exact E|]. split; [exact Hne|]. split; [exact H1|].
  split; [exact H2|]. split.
  - intros Hb. unfold Btrfs.check. unfold bind at 1. rewrite E.
    apply String.eqb_neq in Hb. now rewrite Hb.
  - intros -> Hw.
    destruct (device_stats_of_fits rules
                (fst (fst (run_answer w n' ["btrfs"; "device"; "stats"; "/"])))
                (snd (fst (run_answer w n' ["btrfs"; "device"; "stats"; "/"])))
                (snd (run_answer w n' ["btrfs"; "device"; "stats"; "/"])))
      as [r1 R1]; [apply (world_answer_fits w _ Hw), run_answer_world|].
    destruct (scrub_status_of_fits rules
                (fst (fst (run_answer w (S n') ["btrfs"; "scrub"; "status"; "-R"; "/"])))
                (snd (fst (run_answer w (S n') ["btrfs"; "scrub"; "status"; "-R"; "/"])))
                (snd (run_answer w (S n') ["btrfs"; "scrub"; "status"; "-R"; "/"])))
      as [r2 R2]; [apply (world_answer_fits w _ Hw), run_answer_world|].
    rewrite <- !surjective_pairing in R1, R2.
    destruct (merge_total [("## Device stats", r1); ("## Scrub", r2)]) as [r M];
      [discriminate|].
    exists r1, r2, r. split; [exact R1|]. split; [exact R2|]. split; [exact M|].
    unfold Btrfs.check. unfold bind at 1. rewrite E.
    change (negb ("btrfs" =? "btrfs")%string) with false. cbn iota.
    unfold device_stats, scrub_status. unfold bind at 1.
    rewrite run_then_lift by reflexivity. rewrite R1.
    unfold bind at 1. rewrite run_then_lift by reflexivity. rewrite R2.
    unfold lift. now rewrite M.
Qed.




(** X15.  The verdict of a mount never drops as the used percentage grows;
    and for thresholds with warn <= critical it is OK exactly below the warn
    threshold and CRITICAL exactly from the critical threshold on. *)
Theorem verdict_monotone (cfg : MountThreshold) (u u' : Q) :
  (u <= u')%Q ->
  order (verdict u cfg) <= order (verdict u' cfg) /\
  ((warn_percent cfg <= critical_percent cfg)%Q ->
   (verdict u cfg = OK <-> (u < warn_percent cfg)%Q) /\
   (verdict u cfg = CRITICAL <-> (critical_percent cfg <= u)%Q)).
Proof.
  intros Hu. unfold verdict. split.
  - destruct (Qle_bool (critical_percent cfg) u) eqn:C.
    + apply Qle_bool_iff in C.
      assert (Qle_bool (critical_percent cfg) u' = true) as ->
        by (apply Qle_bool_iff; eapply Qle_trans; eauto).
      simpl. lia.
    + destruct (Qle_bool (warn_percent cfg) u) eqn:W.
      * apply Qle_bool_iff in W.
        assert (Qle_bool (warn_percent cfg) u' = true) as ->
          by (apply Qle_bool_iff; eapply Qle_trans; eauto).
        destruct (Qle_bool (critical_percent cfg) u'); simpl; lia.
      * destruct (Qle_bool (critical_percent cfg) u'), (Qle_bool (warn_percent cfg) u');
          simpl; lia.
  - intros Hwc. destruct (Qle_bool (critical_percent cfg) u) eqn:C.
    + apply Qle_bool_iff in C. split; split; try discriminate; auto.
      intros L. exfalso. apply (Qlt_not_le _ _ L). eapply Qle_trans; eauto.
    + apply Qle_bool_false in C. destruct (Qle_bool (warn_percent cfg) u) eqn:W.
      * apply Qle_bool_iff in W. split; split; try discriminate.
        -- intros L. exfalso. now apply (Qlt_not_le _ _ L).
        -- intros L. exfalso. now apply (Qlt_not_le _ _ C).
      * apply Qle_bool_false in W. split; split; auto; try discriminate.
        intros L. exfalso. now apply (Qlt_not_le _ _ C).
Qed.

Lemma verdict_monotone_witness :
  order (verdict 85 (mkMountThreshold "/" 80 90))
  <= order (verdict 95 (mkMountThreshold "/" 80 90)).
Proof.
  apply (verdict_monotone (mkMountThreshold "/" 80 90) 85 95). vm_compute. discriminate.
Defined.

(** ** The ignore file *)

Lemma isword_nonspace (c : ascii) : Py.isword c = true -> Py.isspace c = false.
Proof. destruct c as [[] [] [] [] [] [] [] []]; vm_compute; congruence. Qed.

Lemma all_chars_app (p : ascii -> bool) (a b : string) :
  Py.all_chars p (a +++ b) = (Py.all_chars p a && Py.all_chars p b)%bool.
Proof. induction a as [|c a IH]; simpl; [reflexivity|]. now rewrite IH, andb_assoc. Qed.

Lemma rstrip_nonspace (s : string) :
  Py.all_chars Py.nonspace s = true -> Py.rstrip s = s.
Proof.
  induction s as [|c s IH]; simpl; [reflexivity|].
  intros H. apply andb_true_iff in H. destruct H as [Hc Hs]. rewrite (IH Hs).
  unfold Py.nonspace in Hc. apply negb_true_iff in Hc. rewrite Hc. now destruct s.
Qed.

Lemma strip_word (s : string) : Py.all_chars Py.isword s = true -> Py.strip s = s.
Proof.
  intros H. unfold Py.strip.
  assert (Py.all_chars Py.nonspace s = true) as N.
  { clear -H. induction s as [|c s IH]; simpl in *; [reflexivity|].
    apply andb_true_iff in H. destruct H as [Hc Hs].
    unfold Py.nonspace at 1. now rewrite (isword_nonspace c Hc), IH. }
  assert (Py.lstrip s = s) as ->.
  { destruct s as [|c s]; [reflexivity|]. simpl in *.
    apply andb_true_iff in N. destruct N as [Hc _].
    unfold Py.nonspace in Hc. apply negb_true_iff in Hc. now rewrite Hc. }
  now apply rstrip_nonspace.
Qed.

(** Stripped text does not end in a space. *)
Lemma rstrip_last (s t : string) (c : ascii) :
  Py.rstrip s = t +++ String c "" -> Py.isspace c = false.
Proof.
  revert t; induction s as [|a s IH]; intros t; simpl.
  - destruct t; discriminate.
  - destruct (Py.rstrip s) as [|b r] eqn:R.
    + destruct (Py.isspace a) eqn:Sa.
      * destruct t; discriminate.
      * destruct t as [|x t]; simpl; intros E.
        -- injection E as ->. exact Sa.
        -- injection E as _ E. destruct t; discriminate.
    + destruct t as [|x t]; simpl; intros E; [discriminate|].
      injection E as _ E. now apply (IH t).
Qed.

Lemma strip_not_newline_end (s t : string) : Py.strip s <> t +++ Py.NL.
Proof. intros E. apply rstrip_last in E. discriminate. Qed.

(** *** The rule pattern, both ways *)

Lemma greedy_run {X} (p : ascii -> bool) (k : string -> option X) (run rest : string) (x : X) :
  Py.all_chars p run = true -> k rest = Some x ->
  (forall c r, rest = String c r -> p c = false) ->
  Py.greedy p k (run +++ rest) = Some x.
Proof.
  intros A K Hrest. induction run as [|c run IH].
  - cbn [String.append]. destruct rest as [|c r]; [exact K|].
    cbn [Py.greedy]. now rewrite (Hrest c r eq_refl).
  - cbn [String.append Py.greedy Py.all_chars] in *.
    apply andb_true_iff in A. destruct A as [-> A]. now rewrite (IH A).
Qed.

Lemma append_empty_r (s : string) : s +++ "" = s.
Proof. induction s as [|c s IH]; simpl; [reflexivity | now rewrite IH]. Qed.

Lemma append_assoc (a b c : string) : (a +++ b) +++ c = a +++ b +++ c.
Proof. induction a as [|x a IH]; simpl; [reflexivity | now rewrite IH]. Qed.

Lemma take_all (s : string) : Py.take (String.length s - 0) s = s.
Proof.
  rewrite Nat.sub_0_r. induction s as [|c s IH]; simpl; [reflexivity | now rewrite IH].
Qed.

Lemma rmatch_Plus_run (p : ascii -> bool) (r : list Py.Item) (run rest : string)
    (opens caps x : list string) :
  run <> "" -> Py.all_chars p run = true ->
  (forall c r', rest = String c r' -> p c = false) ->
  Py.rmatch r rest opens caps = Some x ->
  Py.rmatch (Py.Plus p :: r) (run +++ rest) opens caps = Some x.
Proof.
  intros N A Hrest K. destruct run as [|c run]; [congruence|].
  cbn [Py.all_chars] in A. apply andb_true_iff in A. destruct A as [Hc A].
  cbn [Py.rmatch String.append]. rewrite Hc.
  now apply (greedy_run p (fun t => Py.rmatch r t opens caps)).
Qed.

Lemma rmatch_GroupEnd_eq (r : list Py.Item) (s o : string) (os caps : list string) :
  Py.rmatch (Py.GroupEnd :: r) s (o :: os) caps
  = Py.rmatch r s os (Py.take (String.length o - String.length s) o :: caps).
Proof. reflexivity. Qed.

Lemma rmatch_One_eq (p : ascii -> bool) (r : list Py.Item) (c : ascii) (s : string)
    (opens caps : list string) :
  p c = true ->
  Py.rmatch (Py.One p :: r) (String c s) opens caps = Py.rmatch r s opens caps.
Proof. intros H. cbn [Py.rmatch]. now rewrite H. Qed.

Lemma rule_pattern_complete (module rest : string) :
  module <> "" -> Py.all_chars Py.isword module = true ->
  rest <> "" -> Py.all_chars Py.dot rest = true ->
  Py.re_match Utils.rule_pattern (module +++ ":" +++ rest) = Some [module; rest].
Proof.
  intros Nm Am Nr Ar. unfold Py.re_match, Utils.rule_pattern, Py.lit.
  rewrite rmatch_GroupStart.
  apply rmatch_Plus_run; [exact Nm | exact Am | |].
  { intros c r' E. cbn [String.append] in E. injection E as <- _. reflexivity. }
  rewrite rmatch_GroupEnd_eq, take_consumed.
  cbn [String.append]. rewrite rmatch_One_eq by apply Ascii.eqb_refl.
  rewrite rmatch_GroupStart.
  rewrite <- (append_empty_r rest) at 1.
  apply rmatch_Plus_run; [exact Nr | exact Ar | discriminate |].
  rewrite rmatch_GroupEnd_eq, take_all. reflexivity.
Qed.

Lemma rule_pattern_sound (line : string) (m : list string) :
  Py.re_match Utils.rule_pattern line = Some m ->
  exists module rest tail,
    m = [module; rest] /\ line = module +++ ":" +++ rest +++ tail /\
    module <> "" /\ Py.all_chars Py.isword module = true /\ rest <> "" /\
    (tail = "" \/ tail = Py.NL).
Proof.
  unfold Py.re_match, Utils.rule_pattern, Py.lit. intros H.
  rewrite rmatch_GroupStart in H.
  apply rmatch_Plus in H. destruct H as (module & s1 & -> & Nm & Am & H).
  apply rmatch_GroupEnd in H. destruct H as (o & os & E & H). injection E as <- <-.
  rewrite take_consumed in H.
  apply rmatch_One in H. destruct H as (c & s2 & -> & Hc & H).
  apply Ascii.eqb_eq in Hc. subst c.
  rewrite rmatch_GroupStart in H.
  apply rmatch_Plus in H. destruct H as (rest & tail & -> & Nr & _ & H).
  apply rmatch_GroupEnd in H. destruct H as (o & os & E & H). injection E as <- <-.
  rewrite take_consumed in H.
  assert (tail = "" \/ tail = Py.NL) as Ht.
  { revert H. cbn [Py.rmatch].
    destruct (Py.is_empty tail) eqn:Et.
    - intros _. left. now destruct tail.
    - simpl. destruct (String.eqb tail (String Py.LF "")) eqn:En; [|discriminate].
      intros _. right. now apply String.eqb_eq in En. }
  apply rmatch_Dollar in H. apply rmatch_done in H. subst m.
  exists module, rest, tail. simpl. repeat split; auto.
Qed.
Lemma splitlines_from_no_newline (s : string) :
  forall after_cr,
    Forall (fun ln => Py.all_chars Py.dot ln = true) (Py.splitlines_from after_cr s).
Proof.
  induction s as [|c s IH]; intros after_cr; cbn [Py.splitlines_from]; [constructor|].
  destruct (after_cr && Ascii.eqb c Py.LF)%bool; [apply IH|].
  destruct (Py.is_linebreak c) eqn:L; [constructor; [reflexivity | apply IH]|].
  assert (Py.dot c = true) as D.
  { unfold Py.dot. destruct (Ascii.eqb c Py.LF) eqn:E; [|reflexivity].
    apply Ascii.eqb_eq in E. subst c. discriminate. }
  specialize (IH false). destruct (Py.splitlines_from false s) as [|l ls].
  - repeat constructor. cbn [Py.all_chars]. now rewrite D.
  - inversion IH; subst. constructor; [|assumption]. cbn [Py.all_chars]. now rewrite D.
Qed.

Lemma splitlines_no_newline (text raw : string) :
  In raw (Py.splitlines text) -> Py.all_chars Py.dot raw = true.
Proof.
  intros I. pose proof (splitlines_from_no_newline text false) as F.
  rewrite Forall_forall in F. now apply F.
Qed.

(** *** One line *)

Lemma ignore_line_skip (rc : string -> Utils.CompileOutcome) (known : list string) (n : nat)
    (raw : string) :
  Utils.ignore_line rc known n raw = Ok None <-> comment_or_blank raw.
Proof.
  unfold Utils.ignore_line, comment_or_blank.
  destruct (Py.truthy (Py.strip raw)) eqn:T; cbn [negb orb].
  - apply truthy_iff in T.
    destruct (Py.startswith (Py.strip raw) "#") eqn:S.
    + split; auto.
    + split; [|intros [E | E]; congruence].
      destruct (Py.re_match Utils.rule_pattern (Py.strip raw)) as [m|]; [|discriminate].
      destruct (Utils.match_group m 1); [|discriminate].
      destruct (Utils.match_group m 2); [|discriminate].
      cbn [exc_bind].
      destruct (negb (Py.mem (Py.strip a) known)); [discriminate|].
      destruct (rc (Py.strip a0)); discriminate.
  - apply truthy_false_iff in T. split; auto.
Qed.

Lemma word_not_comment (c : ascii) (s : string) :
  Py.isword c = true -> Py.startswith (String c s) "#" = false.
Proof.
  intros H. unfold Py.startswith. cbn [String.prefix].
  destruct (ascii_dec "#" c) as [<- | _]; [discriminate | reflexivity].
Qed.

Lemma ignore_line_rule (rc : string -> Utils.CompileOutcome) (known : list string) (n : nat)
    (raw module : string) (compiled : Pattern) :
  Utils.ignore_line rc known n raw = Ok (Some (module, compiled)) ->
  exists rest,
    rule_line (Py.strip raw) module rest /\ Py.mem module known = true /\
    rc (Py.strip rest) = Utils.Compiled compiled.
Proof.
  unfold Utils.ignore_line.
  destruct (negb (Py.truthy (Py.strip raw)) || Py.startswith (Py.strip raw) "#")%bool;
    [discriminate|].
  destruct (Py.re_match Utils.rule_pattern (Py.strip raw)) as [m|] eqn:R; [|discriminate].
  destruct (rule_pattern_sound _ _ R) as (g1 & g2 & tail & -> & E & N1 & A1 & N2 & Ht).
  cbn [Utils.match_group Nat.sub nth_error exc_bind].
  rewrite (strip_word g1 A1).
  destruct (Py.mem g1 known) eqn:K; cbn [negb]; [|discriminate].
  destruct (rc (Py.strip g2)) as [c|t|x] eqn:C; [|discriminate|discriminate].
  intros H. injection H as <- <-.
  destruct Ht as [-> | ->].
  - rewrite append_empty_r in E. exists g2. repeat split; auto.
  - exfalso. apply (strip_not_newline_end raw (g1 +++ ":" +++ g2)).
    rewrite E. now rewrite !append_assoc.
Qed.

Lemma ignore_line_rule_conv (rc : string -> Utils.CompileOutcome) (known : list string) (n : nat)
    (raw module rest : string) (compiled : Pattern) :
  Py.all_chars Py.dot raw = true ->
  rule_line (Py.strip raw) module rest -> Py.mem module known = true ->
  rc (Py.strip rest) = Utils.Compiled compiled ->
  Utils.ignore_line rc known n raw = Ok (Some (module, compiled)).
Proof.
  intros D (E & Nm & Am & Nr) K C. unfold Utils.ignore_line.
  apply (all_chars_strip Py.dot) in D. rewrite E in *.
  rewrite all_chars_app in D. apply andb_true_iff in D. destruct D as [_ D].
  cbn [String.append Py.all_chars] in D. apply andb_true_iff in D. destruct D as [_ D].
  assert (Py.truthy (module +++ ":" +++ rest) = true) as ->
    by (apply truthy_iff; destruct module; [congruence | discriminate]).
  assert (Py.startswith (module +++ ":" +++ rest) "#" = false) as ->.
  { destruct module as [|c module]; [congruence|]. cbn [Py.all_chars] in Am.
    apply andb_true_iff in Am. apply word_not_comment, Am. }
  cbn [negb orb]. rewrite (rule_pattern_complete module rest Nm Am Nr D).
  cbn [Utils.match_group Nat.sub nth_error exc_bind].
  rewrite (strip_word module Am), K, C. reflexivity.
Qed.

Lemma ignore_line_raise (rc : string -> Utils.CompileOutcome) (known : list string) (n : nat)
    (raw : string) (e : exn) :
  Utils.ignore_line rc known n raw = Raise e ->
  names_line n e \/ compile_raised rc known raw e.
Proof.
  unfold Utils.ignore_line, names_line, compile_raised.
  destruct (negb (Py.truthy (Py.strip raw)) || Py.startswith (Py.strip raw) "#")%bool;
    [discriminate|].
  destruct (Py.re_match Utils.rule_pattern (Py.strip raw)) as [m|] eqn:R.
  - destruct (rule_pattern_sound _ _ R) as (g1 & g2 & tail & -> & E & N1 & A1 & N2 & Ht).
    cbn [Utils.match_group Nat.sub nth_error exc_bind].
    rewrite (strip_word g1 A1).
    destruct (Py.mem g1 known) eqn:K; cbn [negb].
    + destruct (rc (Py.strip g2)) as [c|t|x] eqn:C; [discriminate| |].
      * intros H; injection H as <-. left. eexists. reflexivity.
      * intros H; injection H as <-. right. exists g1, g2.
        destruct Ht as [-> | ->].
        -- rewrite append_empty_r in E. repeat split; auto.
        -- exfalso. apply (strip_not_newline_end raw (g1 +++ ":" +++ g2)).
           rewrite E. now rewrite !append_assoc.
    + intros H; injection H as <-. left. eexists. reflexivity.
  - intros H; injection H as <-. left. eexists. reflexivity.
Qed.

(** An exception of [re.compile] that is no [re.error] comes out as it is. *)
Lemma ignore_line_compile_raises (rc : string -> Utils.CompileOutcome) (known : list string)
    (n : nat) (raw : string) (e : exn) :
  Py.all_chars Py.dot raw = true ->
  compile_raised rc known raw e -> Utils.ignore_line rc known n raw = Raise e.
Proof.
  intros D (module & rest & (E & Nm & Am & Nr) & K & C). unfold Utils.ignore_line.
  apply (all_chars_strip Py.dot) in D. rewrite E in *.
  rewrite all_chars_app in D. apply andb_true_iff in D. destruct D as [_ D].
  cbn [String.append Py.all_chars] in D. apply andb_true_iff in D. destruct D as [_ D].
  assert (Py.truthy (module +++ ":" +++ rest) = true) as ->
    by (apply truthy_iff; destruct module; [congruence | discriminate]).
  assert (Py.startswith (module +++ ":" +++ rest) "#" = false) as ->.
  { destruct module as [|c module]; [congruence|]. cbn [Py.all_chars] in Am.
    apply andb_true_iff in Am. apply word_not_comment, Am. }
  cbn [negb orb]. rewrite (rule_pattern_complete module rest Nm Am Nr D).
  cbn [Utils.match_group Nat.sub nth_error exc_bind].
  rewrite (strip_word module Am), K, C. reflexivity.
Qed.

(** The line number matters to the message only. *)
Lemma ignore_line_number (rc : string -> Utils.CompileOutcome) (known : list string)
    (n n' : nat) (raw : string) :
  match Utils.ignore_line rc known n raw with
  | Ok r => Utils.ignore_line rc known n' raw = Ok r
  | Raise _ => exists e, Utils.ignore_line rc known n' raw = Raise e
  end.
Proof.
  unfold Utils.ignore_line.
  destruct (negb (Py.truthy (Py.strip raw)) || Py.startswith (Py.strip raw) "#")%bool;
    [reflexivity|].
  destruct (Py.re_match Utils.rule_pattern (Py.strip raw)) as [m|]; [|eauto].
  destruct (Utils.match_group m 1); cbn [exc_bind]; [|eauto].
  destruct (Utils.match_group m 2); cbn [exc_bind]; [|eauto].
  destruct (negb (Py.mem (Py.strip a) known)); [eauto|].
  destruct (rc (Py.strip a0)); [reflexivity | eauto | eauto].
Qed.

Lemma accepted_at (rc : string -> Utils.CompileOutcome) (known : list string) (n : nat)
    (raw : string) :
  accepted rc known raw <-> exists r, Utils.ignore_line rc known n raw = Ok r.
Proof.
  unfold accepted. split; intros [r E].
  - pose proof (ignore_line_number rc known 0 n raw) as H. rewrite E in H. eauto.
  - pose proof (ignore_line_number rc known n 0 raw) as H. rewrite E in H. eauto.
Qed.

Lemma rule_of_at (rc : string -> Utils.CompileOutcome) (known : list string) (n : nat)
    (raw : string) (r : option (string * Pattern)) :
  Utils.ignore_line rc known n raw = Ok r -> rule_of rc known raw = r.
Proof.
  intros E. unfold rule_of.
  pose proof (ignore_line_number rc known n 0 raw) as H. rewrite E in H. now rewrite H.
Qed.

(** *** The loop and the dictionary *)

Lemma ignore_loop_spec (rc : string -> Utils.CompileOutcome) (known : list string)
    (lines : list string) :
  forall (n : nat) (d : list (string * list Pattern)),
    match Utils.ignore_loop rc known lines n d with
    | Ok d' =>
        Forall (accepted rc known) lines /\
        d' = fold_left add_rule (rules_of rc known lines) d
    | Raise e =>
        exists before raw after,
          lines = before ++ raw :: after /\ Forall (accepted rc known) before /\
          Utils.ignore_line rc known (n + List.length before) raw = Raise e
    end.
Proof.
  induction lines as [|raw rest IH]; intros n d; cbn [Utils.ignore_loop].
  - split; [constructor | reflexivity].
  - destruct (Utils.ignore_line rc known n raw) as [r|e] eqn:E; cbn [exc_bind].
    + assert (accepted rc known raw) as Ha by (apply (accepted_at rc known n); eauto).
      pose proof (rule_of_at rc known n raw r E) as Hr.
      assert (forall d0,
                match Utils.ignore_loop rc known rest (S n) d0 with
                | Ok d' =>
                    Forall (accepted rc known) (raw :: rest) /\
                    d' = fold_left add_rule (rules_of rc known rest) d0
                | Raise e =>
                    exists before raw' after,
                      raw :: rest = before ++ raw' :: after /\
                      Forall (accepted rc known) before /\
                      Utils.ignore_line rc known (n + List.length before) raw' = Raise e
                end) as Step.
      { intros d0. specialize (IH (S n) d0).
        destruct (Utils.ignore_loop rc known rest (S n) d0) as [d'|e'].
        - destruct IH as [F ->]. split; [now constructor | reflexivity].
        - destruct IH as (before & raw' & after & -> & F & R).
          exists (raw :: before), raw', after. cbn [List.length app].
          rewrite Nat.add_succ_r. repeat split; [now constructor | exact R]. }
      unfold rules_of. cbn [flat_map]. fold (rules_of rc known rest). rewrite Hr.
      destruct r as [[module compiled]|]; cbn [app fold_left]; apply Step.
    + exists [], raw, rest. cbn [List.length app]. rewrite Nat.add_0_r.
      repeat split; [constructor | exact E].
Qed.

Lemma dict_append_keys (d : list (string * list Pattern)) (k : string) (v : Pattern) :
  map fst (Utils.dict_append d k v)
  = if Py.mem k (map fst d) then map fst d else map fst d ++ [k].
Proof.
  induction d as [|[k' vs] r IH]; cbn [Utils.dict_append map fst Py.mem existsb];
    [reflexivity|].
  unfold Py.mem in *. rewrite (String.eqb_sym k k').
  destruct (String.eqb k' k); cbn [orb map fst]; [reflexivity|].
  rewrite IH. now destruct (existsb (String.eqb k) (map fst r)).
Qed.

Lemma mem_In (x : string) (xs : list string) : Py.mem x xs = true <-> In x xs.
Proof.
  unfold Py.mem. rewrite existsb_exists. split.
  - intros (y & I & E). apply String.eqb_eq in E. now subst.
  - intros I. exists x. split; [exact I | apply String.eqb_refl].
Qed.

Lemma dict_append_NoDup (d : list (string * list Pattern)) (k : string) (v : Pattern) :
  NoDup (map fst d) -> NoDup (map fst (Utils.dict_append d k v)).
Proof.
  intros H. rewrite dict_append_keys. destruct (Py.mem k (map fst d)) eqn:M; [exact H|].
  apply NoDup_app; [exact H | repeat constructor; auto | ].
  intros x Hx [<- | []]. apply mem_In in Hx. congruence.
Qed.

Lemma dict_append_values (d : list (string * list Pattern)) (k : string) (v : Pattern)
    (m : string) :
  NoDup (map fst d) ->
  values_of m (Utils.dict_append d k v)
  = values_of m d ++ (if String.eqb k m then [v] else []).
Proof.
  unfold values_of. induction d as [|[k' vs] r IH]; intros N;
    cbn [Utils.dict_append flat_map fst snd map] in *.
  - now rewrite app_nil_r.
  - inversion N as [|? ? Hk Hr]; subst.
    destruct (String.eqb k' k) eqn:E.
    + apply String.eqb_eq in E. subst k'. cbn [flat_map fst snd].
      destruct (String.eqb k m) eqn:Em.
      * apply String.eqb_eq in Em. subst m.
        assert (flat_map (fun kv : string * list Pattern =>
                            if String.eqb (fst kv) k then snd kv else []) r = []) as ->.
        { clear -Hk. induction r as [|[k2 v2] r IH]; cbn [flat_map fst snd map] in *;
            [reflexivity|].
          destruct (String.eqb k2 k) eqn:E2.
          - apply String.eqb_eq in E2. subst. exfalso. apply Hk. now left.
          - apply IH. intros I. apply Hk. now right. }
        now rewrite !app_nil_r.
      * now rewrite !app_nil_r.
    + cbn [flat_map fst snd]. rewrite (IH Hr). now rewrite app_assoc.
Qed.

Lemma dict_append_nonempty_values (d : list (string * list Pattern)) (k : string)
    (v : Pattern) :
  Forall (fun kv => snd kv <> []) d ->
  Forall (fun kv => snd kv <> []) (Utils.dict_append d k v).
Proof.
  induction d as [|[k' vs] r IH]; intros F; cbn [Utils.dict_append].
  - repeat constructor. discriminate.
  - inversion F as [|? ? Hv Hr]; subst.
    destruct (String.eqb k' k); constructor; auto.
    cbn [snd] in *. destruct vs; discriminate.
Qed.

(** The dictionary after the loop: distinct keys, no empty entry, and under
    each key the patterns of that module in order. *)
Lemma add_rules_spec (entries : list (string * Pattern)) :
  forall d : list (string * list Pattern),
    NoDup (map fst d) -> Forall (fun kv => snd kv <> []) d ->
    let d' := fold_left add_rule entries d in
    NoDup (map fst d') /\ Forall (fun kv => snd kv <> []) d' /\
    forall m, values_of m d' = values_of m d ++ patterns_for m entries.
Proof.
  induction entries as [|[k v] rest IH]; intros d N F; cbn [fold_left].
  - repeat split; auto. intros m. unfold patterns_for. cbn. now rewrite app_nil_r.
  - unfold add_rule at 2 4 6. cbn [fst snd].
    destruct (IH (Utils.dict_append d k v) (dict_append_NoDup d k v N)
                (dict_append_nonempty_values d k v F)) as (N' & F' & V').
    repeat split; auto.
    intros m. rewrite V', (dict_append_values d k v m N), <- app_assoc. f_equal.
    unfold patterns_for. cbn [filter fst].
    destruct (String.eqb k m); reflexivity.
Qed.

Lemma values_of_lookup (d : list (string * list Pattern)) (m : string) (vs : list Pattern) :
  NoDup (map fst d) -> In (m, vs) d -> values_of m d = vs.
Proof.
  unfold values_of. induction d as [|[k v] r IH]; intros N I; [destruct I|].
  cbn [flat_map fst snd map] in *. inversion N as [|? ? Hk Hr]; subst.
  destruct I as [E | I].
  - injection E as -> ->. rewrite String.eqb_refl.
    assert (flat_map (fun kv : string * list Pattern =>
                        if String.eqb (fst kv) m then snd kv else []) r = []) as ->.
    { clear -Hk. induction r as [|[k2 v2] r IH]; cbn [flat_map fst snd map] in *;
        [reflexivity|].
      destruct (String.eqb k2 m) eqn:E2.
      - apply String.eqb_eq in E2. subst. exfalso. apply Hk. now left.
      - apply IH. intros I. apply Hk. now right. }
    apply app_nil_r.
  - destruct (String.eqb k m) eqn:E.
    + apply String.eqb_eq in E. subst k. exfalso. apply Hk.
      apply (in_map fst) in I. exact I.
    + now apply IH.
Qed.

Lemma values_of_absent (d : list (string * list Pattern)) (m : string) :
  Forall (fun kv => snd kv <> []) d ->
  (In m (map fst d) <-> values_of m d <> []).
Proof.
  unfold values_of. induction d as [|[k v] r IH]; intros F; cbn [flat_map fst snd map].
  - split; [intros [] | congruence].
  - inversion F as [|? ? Hv Hr]; subst. cbn [snd] in Hv.
    destruct (String.eqb k m) eqn:E.
    + apply String.eqb_eq in E. subst. split; [|now left].
      intros _ H. apply app_eq_nil in H. now destruct H.
    + apply String.eqb_neq in E. cbn [app]. rewrite <- (IH Hr).
      split; [intros [H | H]; [congruence | exact H] | now right].
Qed.

Lemma rules_of_known (rc : string -> Utils.CompileOutcome) (known : list string)
    (lines : list string) (m : string) :
  patterns_for m (rules_of rc known lines) <> [] -> In m known.
Proof.
  unfold patterns_for, rules_of. induction lines as [|raw rest IH]; cbn [flat_map];
    [cbn; congruence|].
  rewrite filter_app, map_app. intros H.
  destruct (rule_of rc known raw) as [[k c]|] eqn:R; [|exact (IH H)].
  cbn [filter fst] in H. destruct (String.eqb k m) eqn:E; [|exact (IH H)].
  apply String.eqb_eq in E. subst k. unfold rule_of in R.
  destruct (Utils.ignore_line rc known 0 raw) as [r|] eqn:L; [|discriminate]. subst r.
  destruct (ignore_line_rule _ _ _ _ _ _ L) as (_ & _ & K & _). now apply mem_In.
Qed.
Lemma add_rules_nil (entries : list (string * Pattern)) (d : list (string * list Pattern)) :
  fold_left add_rule entries d = [] -> entries = [] /\ d = [].
Proof.
  revert d; induction entries as [|e rest IH]; intros d; cbn [fold_left]; [auto|].
  intros H. destruct (IH _ H) as [_ E]. unfold add_rule in E.
  destruct d as [|[k vs] r]; cbn [Utils.dict_append] in E; [discriminate|].
  destruct (String.eqb k (fst e)); discriminate.
Qed.

Lemma rules_of_nil (rc : string -> Utils.CompileOutcome) (known : list string)
    (lines : list string) :
  Forall (accepted rc known) lines ->
  (rules_of rc known lines = [] <-> Forall comment_or_blank lines).
Proof.
  unfold rules_of. induction 1 as [|raw rest [r E] F IH]; cbn [flat_map].
  - split; auto.
  - unfold rule_of at 1. rewrite E. destruct r as [[k c]|].
    + split; [discriminate|]. intros H. inversion H as [|? ? Hc _]; subst.
      apply (ignore_line_skip rc known 0) in Hc. congruence.
    + cbn [app]. rewrite IH. split.
      * intros H. constructor; [|exact H]. now apply (ignore_line_skip rc known 0).
      * intros H. now inversion H.
Qed.

Lemma comment_accepted (rc : string -> Utils.CompileOutcome) (known : list string)
    (lines : list string) :
  Forall comment_or_blank lines -> Forall (accepted rc known) lines.
Proof.
  apply Forall_impl. intros raw H. exists None. now apply ignore_line_skip.
Qed.

(** The loop returns exactly when every line is accepted. *)
Lemma ignore_loop_returns (rc : string -> Utils.CompileOutcome) (known : list string)
    (lines : list string) (n : nat) (d : list (string * list Pattern)) :
  Forall (accepted rc known) lines ->
  Utils.ignore_loop rc known lines n d = Ok (fold_left add_rule (rules_of rc known lines) d).
Proof.
  intros F. pose proof (ignore_loop_spec rc known lines n d) as S.
  destruct (Utils.ignore_loop rc known lines n d) as [d'|e].
  - destruct S as [_ ->]. reflexivity.
  - destruct S as (before & raw & after & -> & _ & R). exfalso.
    apply Forall_app in F. destruct F as [_ F]. inversion F as [|? ? Ha _]; subst.
    apply (accepted_at rc known (n + List.length before)) in Ha.
    destruct Ha as [r E]. congruence.
Qed.

Lemma first_rejected_unique {A} (P : A -> Prop) (l b1 : list A) (x1 : A) (a1 b2 : list A)
    (x2 : A) (a2 : list A) :
  l = b1 ++ x1 :: a1 -> l = b2 ++ x2 :: a2 -> Forall P b1 -> Forall P b2 ->
  ~ P x1 -> ~ P x2 -> b1 = b2 /\ x1 = x2.
Proof.
  intros -> E F1 F2 N1 N2. revert b2 E F2.
  induction b1 as [|y b1 IH]; intros [|z b2] E F2; cbn [app] in E.
  - injection E as -> _. auto.
  - injection E as -> _. inversion F2; subst. contradiction.
  - injection E as -> _. inversion F1; subst. contradiction.
  - injection E as -> E. inversion F1; inversion F2; subst.
    destruct (IH ltac:(assumption) b2 E ltac:(assumption)) as [-> ->]. auto.
Qed.

(** X16.  On every line of the ignore file the loop body of
    [parse_ignore_file] skips exactly the blank lines and the comments, and
    yields a module and a compiled pattern exactly for a stripped line
    [module:rest] whose module is a non-empty run of word characters in the
    known list and whose stripped rest compiles.  On any other line it
    raises: a ValueError whose message starts with the line number, or, when
    [re.compile] raises an exception that is no [re.error] on the pattern
    of a rule for a known module, that exception as it is. *)
Theorem ignore_line_by_shape (rc : string -> Utils.CompileOutcome) (known : list string)
    (n : nat) (text raw : string) :
  In raw (Py.splitlines text) ->
  (Utils.ignore_line rc known n raw = Ok None <-> comment_or_blank raw) /\
  (forall module compiled,
     Utils.ignore_line rc known n raw = Ok (Some (module, compiled)) <->
     exists rest,
       rule_line (Py.strip raw) module rest /\ Py.mem module known = true /\
       rc (Py.strip rest) = Utils.Compiled compiled) /\
  (forall e,
     Utils.ignore_line rc known n raw = Raise e ->
     names_line n e \/ compile_raised rc known raw e) /\
  (forall e,
     compile_raised rc known raw e -> Utils.ignore_line rc known n raw = Raise e).
Proof.
  intros I. apply splitlines_no_newline in I.
  split; [apply ignore_line_skip | split; [|split]].
  - intros module compiled. split; [apply ignore_line_rule|].
    intros (rest & R & K & C). now apply (ignore_line_rule_conv rc known n raw module rest).
  - intros e. apply ignore_line_raise.
  - intros e. now apply ignore_line_compile_raises.
Qed.

Lemma ignore_line_by_shape_witness :
  Utils.ignore_line (fun s => Utils.Compiled (literal_pattern s)) ["unit"; "disk"] 2
    "  unit: foo.service  "
  = Ok (Some ("unit", literal_pattern "foo.service")).
Proof.
  apply (ignore_line_by_shape (fun s => Utils.Compiled (literal_pattern s)) ["unit"; "disk"] 2
           ("# rules" +++ Py.NL +++ "  unit: foo.service  " +++ Py.NL)
           "  unit: foo.service  ").
  - right. left. reflexivity.
  - exists " foo.service". repeat split; discriminate.
Defined.

Lemma parse_ignore_file_ok_spec (rc : string -> Utils.CompileOutcome) (text : string)
    (known : list string) (d : list (string * IgnoreRules)) :
  Utils.parse_ignore_file rc (Some text) known = Ok d ->
  NoDup (map fst d) /\
  (forall m,
     In m (map fst d) <-> patterns_for m (rules_of rc known (Py.splitlines text)) <> []) /\
  (forall m r,
     In (m, r) d ->
     In m known /\ patterns r = patterns_for m (rules_of rc known (Py.splitlines text))).
Proof.
  unfold Utils.parse_ignore_file. intros H.
  set (rules := rules_of rc known (Py.splitlines text)).
  pose proof (ignore_loop_spec rc known (Py.splitlines text) 1 []) as S.
  destruct (Utils.ignore_loop rc known (Py.splitlines text) 1 []) as [d0|e];
    cbn [exc_bind] in H; [|discriminate].
  injection H as <-. destruct S as [_ E]. fold rules in E.
  destruct (add_rules_spec rules [] (NoDup_nil _) (Forall_nil _)) as (N & F & V).
  rewrite <- E in N, F, V.
  assert (forall m, values_of m d0 = patterns_for m rules) as V'
    by (intros m; rewrite V; reflexivity).
  clear V.
  assert (map fst (map (fun entry : string * list Pattern =>
                          (fst entry, mkIgnoreRules (snd entry))) d0) = map fst d0) as K
    by (rewrite map_map; reflexivity).
  rewrite K. split; [exact N | split].
  - intros m. rewrite <- V'. now apply values_of_absent.
  - intros m r I. apply in_map_iff in I. destruct I as ([k vs] & Ekv & I).
    cbn [fst snd] in Ekv. injection Ekv as -> <-. cbn [patterns].
    pose proof (values_of_lookup d0 m vs N I) as L. rewrite V' in L.
    split; [|now symmetry].
    apply (rules_of_known rc known (Py.splitlines text)). fold rules. rewrite L.
    rewrite Forall_forall in F. exact (F _ I).
Qed.


Lemma dict_get_opt_spec (d : list (string * IgnoreRules)) (m : string) :
  match Main.dict_get_opt d m with
  | Some r => In (m, r) d
  | None => ~ In m (map fst d)
  end.
Proof.
  induction d as [|[k v] r IH]; cbn [Main.dict_get_opt map fst]; [intros []|].
  destruct (String.eqb k m) eqn:E.
  - apply String.eqb_eq in E. subst. now left.
  - apply String.eqb_neq in E. destruct (Main.dict_get_opt r m).
    + now right.
    + intros [H | H]; [congruence | contradiction].
Qed.

(** X17.  When [parse_ignore_file] returns, the keys of the dictionary are
    distinct known modules, a module is a key exactly when some line holds a
    rule for it, and the rule set under a key holds the compiled patterns of
    that module's lines, all of them and in file order.  Hence the rule set
    that [main] hands to a module ignores a text exactly when the pattern of
    one of that module's lines matches it. *)
Theorem parse_ignore_file_groups_rules (rc : string -> Utils.CompileOutcome) (text : string)
    (known : list string) (d : list (string * IgnoreRules)) :
  Utils.parse_ignore_file rc (Some text) known = Ok d ->
  NoDup (map fst d) /\
  (forall m,
     In m (map fst d) <-> patterns_for m (rules_of rc known (Py.splitlines text)) <> []) /\
  (forall m r,
     In (m, r) d ->
     In m known /\ patterns r = patterns_for m (rules_of rc known (Py.splitlines text))) /\
  (forall m t,
     is_ignored (init_ignore_rules (Main.dict_get_opt d m)) t = true <->
     exists c,
       In c (patterns_for m (rules_of rc known (Py.splitlines text))) /\
       search c t = true).
Proof.
  intros H. destruct (parse_ignore_file_ok_spec rc text known d H) as (N & K & V).
  repeat split; try assumption; try apply (V m r); try assumption.
  - destruct (K m) as [K1 _]; auto.
  - destruct (K m) as [_ K2]; auto.
  - intros I. pose proof (dict_get_opt_spec d m) as G.
    destruct (Main.dict_get_opt d m) as [r|]; cbn [init_ignore_rules] in I.
    + destruct (V m r G) as [_ <-]. unfold is_ignored in I.
      apply existsb_exists in I. exact I.
    + discriminate.
  - intros (c & I & Sc). pose proof (dict_get_opt_spec d m) as G.
    destruct (Main.dict_get_opt d m) as [r|]; cbn [init_ignore_rules].
    + destruct (V m r G) as [_ E]. unfold is_ignored. rewrite E.
      apply existsb_exists. eauto.
    + exfalso. apply G, K. intros E. rewrite E in I. destruct I.
Qed.

Lemma parse_ignore_file_groups_rules_witness :
  is_ignored
    (init_ignore_rules
       (Main.dict_get_opt
          [("unit", mkIgnoreRules [literal_pattern "foo"; literal_pattern "bar"]);
           ("disk", mkIgnoreRules [literal_pattern "/mnt"])] "unit"))
    "bar.service" = true.
Proof.
  apply (parse_ignore_file_groups_rules (fun s => Utils.Compiled (literal_pattern s))
           ("unit:foo" +++ Py.NL +++ "# note" +++ Py.NL +++ "disk: /mnt" +++ Py.NL
            +++ "unit:bar")
           ["unit"; "journal"; "btrfs"; "disk"]
           [("unit", mkIgnoreRules [literal_pattern "foo"; literal_pattern "bar"]);
            ("disk", mkIgnoreRules [literal_pattern "/mnt"])]
           eq_refl).
  exists (literal_pattern "bar"). split; [right; left; reflexivity | reflexivity].
Defined.

(** X18.  [parse_ignore_file] returns exactly when every line of the file is
    accepted; otherwise it raises the error of the first line that is not:
    a ValueError whose message starts with that line's number, counted
    from 1, or the exception of [re.compile] on that line's pattern when
    that is no [re.error]. *)
Theorem parse_ignore_file_first_error (rc : string -> Utils.CompileOutcome) (text : string)
    (known : list string) :
  ((exists d, Utils.parse_ignore_file rc (Some text) known = Ok d) <->
   Forall (accepted rc known) (Py.splitlines text)) /\
  (forall e,
     Utils.parse_ignore_file rc (Some text) known = Raise e <->
     exists before raw after,
       Py.splitlines text = before ++ raw :: after /\
       Forall (accepted rc known) before /\
       Utils.ignore_line rc known (S (List.length before)) raw = Raise e) /\
  (forall e,
     Utils.parse_ignore_file rc (Some text) known = Raise e ->
     exists k raw,
       (1 <= k)%nat /\ nth_error (Py.splitlines text) (k - 1) = Some raw /\
       (names_line k e \/ compile_raised rc known raw e)).
Proof.
  unfold Utils.parse_ignore_file.
  pose proof (ignore_loop_spec rc known (Py.splitlines text) 1 []) as Sp.
  assert (forall e,
            Utils.ignore_loop rc known (Py.splitlines text) 1 [] = Raise e <->
            exists before raw after,
              Py.splitlines text = before ++ raw :: after /\
              Forall (accepted rc known) before /\
              Utils.ignore_line rc known (S (List.length before)) raw = Raise e) as R.
  { intros e. split.
    - intros E. rewrite E in Sp. exact Sp.
    - intros (before & raw & after & El & F & L).
      destruct (Utils.ignore_loop rc known (Py.splitlines text) 1 []) as [d'|e'] eqn:E.
      + exfalso. destruct Sp as [Fa _]. rewrite El in Fa.
        apply Forall_app in Fa. destruct Fa as [_ Fa]. inversion Fa as [|? ? Ha _]; subst.
        apply (accepted_at rc known (S (List.length before))) in Ha.
        destruct Ha as [r Er]. congruence.
      + destruct Sp as (b2 & raw2 & a2 & El2 & F2 & L2). cbn [Nat.add] in L2.
        destruct (first_rejected_unique (accepted rc known) (Py.splitlines text)
                    before raw after b2 raw2 a2) as [-> ->]; auto.
        * intros Ha. apply (accepted_at rc known (S (List.length before))) in Ha.
          destruct Ha as [r Er]. congruence.
        * intros Ha. apply (accepted_at rc known (S (List.length b2))) in Ha.
          destruct Ha as [r Er]. congruence.
        * congruence. }
  split; [|split].
  - split.
    + intros [d H].
      destruct (Utils.ignore_loop rc known (Py.splitlines text) 1 []) as [d0|e];
        [apply Sp | discriminate].
    + intros F. rewrite (ignore_loop_returns rc known _ 1 [] F). cbn [exc_bind]. eauto.
  - intros e. rewrite <- R.
    destruct (Utils.ignore_loop rc known (Py.splitlines text) 1 []) as [d0|e0];
      cbn [exc_bind]; split; intros H; try discriminate; injection H as ->; reflexivity.
  - intros e H.
    assert (Utils.ignore_loop rc known (Py.splitlines text) 1 [] = Raise e) as E.
    { destruct (Utils.ignore_loop rc known (Py.splitlines text) 1 []); cbn [exc_bind] in H;
        [discriminate | injection H as ->; reflexivity]. }
    apply R in E. destruct E as (before & raw & after & El & _ & L).
    exists (S (List.length before)), raw. split; [lia|]. split.
    + rewrite El. cbn [Nat.sub]. rewrite Nat.sub_0_r, nth_error_app2 by lia.
      now rewrite Nat.sub_diag.
    + now apply (ignore_line_raise rc known _ raw).
Qed.
(** X19.  [parse_ignore_file] returns the empty dictionary exactly when the
    file is missing or every line of it is blank or a comment. *)
Theorem parse_ignore_file_no_rules (rc : string -> Utils.CompileOutcome) (file : option string)
    (known : list string) :
  Utils.parse_ignore_file rc file known = Ok [] <->
  file = None \/
  exists text, file = Some text /\ Forall comment_or_blank (Py.splitlines text).
Proof.
  destruct file as [text|]; cbn [Utils.parse_ignore_file]; [|split; auto].
  split.
  - intros H. right. exists text. split; [reflexivity|].
    pose proof (ignore_loop_spec rc known (Py.splitlines text) 1 []) as Sp.
    destruct (Utils.ignore_loop rc known (Py.splitlines text) 1 []) as [d0|e];
      cbn [exc_bind] in H; [|discriminate].
    injection H as H. apply map_eq_nil in H. subst d0. destruct Sp as [F E].
    symmetry in E. apply add_rules_nil in E. destruct E as [E _].
    now apply (rules_of_nil rc known).
  - intros [H | (t & E & F)]; [discriminate|]. injection E as <-.
    pose proof (comment_accepted rc known _ F) as Fa.
    rewrite (ignore_loop_returns rc known _ 1 [] Fa).
    rewrite (proj2 (rules_of_nil rc known _ Fa) F). reflexivity.
Qed.

(** ** The aggregated output *)

Lemma value_injective (a b : Status) : Main.value a = Main.value b -> a = b.
Proof. destruct a, b; simpl; congruence. Qed.

Lemma statuses_headed (results : list (string * HealthCheckResult)) :
  map (fun e => status (snd e)) (headed results) = statuses_of results.
Proof. unfold headed, statuses_of. rewrite map_map. reflexivity. Qed.

Lemma make_payload_spec (results : list (string * HealthCheckResult)) :
  results <> [] ->
  exists st,
    worst (statuses_of results) = Ok st /\ is_max st (statuses_of results) /\
    Main.make_payload results
    = Ok (Main.mkPayload
            (if Status_eqb st OK then "✓"
             else "⚠ " +++ String.concat " " (map label (filter not_ok results)))
            (String.concat Py.NL (spec_merge_lines true (headed results)))
            (Main.value st)).
Proof.
  intros N. destruct (worst_total (statuses_of results)) as [st W].
  { destruct results; [congruence | discriminate]. }
  exists st. split; [exact W | split; [apply (worst_ok_max _ _ W)|]].
  unfold Main.make_payload, merge. fold (headed results).
  rewrite statuses_headed, W. cbn [exc_bind status tooltipLines].
  rewrite merge_fold. reflexivity.
Qed.

(** X20.  For a non-empty set of module results [main] builds a payload whose
    class is the value of the worst status; the text is the check mark
    exactly when every module is OK, exactly when the class is [ok];
    otherwise the text is the warning sign followed by [name:status] of the
    modules that are not OK, in order; the class is [critical] exactly when
    some module is CRITICAL; the tooltip joins the merged lines, each
    module under the header [# name:]. *)
Theorem payload_by_statuses (results : list (string * HealthCheckResult)) :
  results <> [] ->
  exists p,
    Main.make_payload results = Ok p /\
    (exists st, is_max st (statuses_of results) /\ Main.class p = Main.value st) /\
    (Main.text p = "✓" <-> forall e, In e results -> status (snd e) = OK) /\
    (Main.class p = "ok" <-> Main.text p = "✓") /\
    (Main.class p = "critical" <->
     exists e, In e results /\ status (snd e) = CRITICAL) /\
    (Main.text p <> "✓" ->
     Main.text p = "⚠ " +++ String.concat " " (map label (filter not_ok results))) /\
    Main.tooltip p = String.concat Py.NL (spec_merge_lines true (headed results)).
Proof.
  intros N. destruct (make_payload_spec results N) as (st & W & [Hin Hup] & E).
  eexists. split; [exact E|]. cbn [Main.text Main.class Main.tooltip].
  assert (st = OK <-> forall e, In e results -> status (snd e) = OK) as Hok.
  { split.
    - intros -> e I.
      assert (order (status (snd e)) <= order OK) as L
        by (apply Hup; unfold statuses_of; now apply (in_map (fun e => status (snd e)))).
      destruct (status (snd e)); simpl in L; [reflexivity | lia | lia].
    - intros H. unfold statuses_of in Hin. apply in_map_iff in Hin.
      destruct Hin as (e & <- & I). now apply H. }
  assert ((if Status_eqb st OK then "✓"
           else "⚠ " +++ String.concat " " (map label (filter not_ok results))) = "✓"
          <-> st = OK) as Ht.
  { destruct st; cbn [Status_eqb]; split; intros H; try reflexivity; discriminate. }
  split; [exists st; split; [split; assumption | reflexivity]|].
  repeat split.
  - intros H. now apply Hok, Ht.
  - intros H. now apply Ht, Hok.
  - intros H. apply Ht. now apply (value_injective st OK).
  - intros H. apply Ht in H. now subst.
  - intros H. apply (value_injective st CRITICAL) in H. subst st.
    unfold statuses_of in Hin. apply in_map_iff in Hin.
    destruct Hin as (e & Es & I). eauto.
  - intros (e & I & Es). f_equal.
    assert (order CRITICAL <= order st) as L.
    { apply Hup. unfold statuses_of. rewrite <- Es.
      now apply (in_map (fun e => status (snd e))). }
    destruct st; simpl in L; try lia. reflexivity.
  - intros H. destruct (Status_eqb st OK); [congruence | reflexivity].
Qed.

Lemma payload_by_statuses_witness :
  exists p,
    Main.make_payload [("Units", mkResult OK ["fine"]); ("Disk", mkResult WARN ["full"])]
    = Ok p /\
    Main.text p = "⚠ Disk:warn" /\ Main.class p = "warn".
Proof.
  destruct (payload_by_statuses
              [("Units", mkResult OK ["fine"]); ("Disk", mkResult WARN ["full"])])
    as (p & E & _); [discriminate|].
  exists p. split; [exact E|].
  vm_compute in E. injection E as <-. split; reflexivity.
Defined.

(** *** The program *)










(** ** The service-manager check and command errors *)

(** X22.  The service-manager check always runs its four queries, in the
    order system state, user state, system failed units, user failed
    units, whatever the earlier ones answered; it returns the merge of the
    four results under their headers, whose status is the worst of the
    four. *)
Theorem systemd_check_four_queries (rules : IgnoreRules) (w : World) (n : nat) :
  exists s0 s1 f0 f1 r,
    state_result_of false (run_answer w n (systemctl false ["is-system-running"]))
      = Ok s0 /\
    state_result_of true (run_answer w (n + 1) (systemctl true ["is-system-running"]))
      = Ok s1 /\
    failed_units_result_of rules false
      (run_answer w (n + 2) (systemctl false ["--failed"; "--no-legend"; "--plain"]))
      = Ok f0 /\
    failed_units_result_of rules true
      (run_answer w (n + 3) (systemctl true ["--failed"; "--no-legend"; "--plain"]))
      = Ok f1 /\
    Systemd.check rules w n = Ok (r, (n + 4)%nat) /\
    merge [("## System state", s0); ("## User state", s1);
           ("## Failed (system)", f0); ("## Failed (user)", f1)] = Ok r /\
    is_max (status r) [status s0; status s1; status f0; status f1].
Proof.
  destruct (state_result_of_total false
              (run_answer w n (systemctl false ["is-system-running"]))) as [s0 E0].
  destruct (state_result_of_total true
              (run_answer w (n + 1) (systemctl true ["is-system-running"]))) as [s1 E1].
  destruct (failed_units_result_of_total rules false
              (run_answer w (n + 2) (systemctl false ["--failed"; "--no-legend"; "--plain"])))
    as [f0 E2].
  destruct (failed_units_result_of_total rules true
              (run_answer w (n + 3) (systemctl true ["--failed"; "--no-legend"; "--plain"])))
    as [f1 E3].
  destruct (merge_total [("## System state", s0); ("## User state", s1);
                         ("## Failed (system)", f0); ("## Failed (user)", f1)])
    as [r Em]; [discriminate|].
  exists s0, s1, f0, f1, r. repeat split; try assumption.
  - unfold Systemd.check, _state_result, _failed_units_result.
    replace (n + 1)%nat with (S n) in E1 by lia.
    replace (n + 2)%nat with (S (S n)) in E2 by lia.
    replace (n + 3)%nat with (S (S (S n))) in E3 by lia.
    replace (n + 4)%nat with (S (S (S (S n)))) by lia.
    unfold systemctl in *. cbn [app] in *.
    unfold bind at 1. unfold bind at 1. rewrite run_spec by reflexivity.
    unfold lift at 1. rewrite E0.
    unfold bind at 1. unfold bind at 1. rewrite run_spec by reflexivity.
    unfold lift at 1. rewrite E1.
    unfold bind at 1. unfold bind at 1. rewrite run_spec by reflexivity.
    unfold lift at 1. rewrite E2.
    unfold bind at 1. unfold bind at 1. rewrite run_spec by reflexivity.
    unfold lift at 1. rewrite E3.
    unfold lift. now rewrite Em.
  - unfold merge in Em. cbn [map snd] in Em.
    destruct (worst [status s0; status s1; status f0; status f1]) as [st|] eqn:W;
      cbn [exc_bind] in Em; [|discriminate].
    injection Em as <-. cbn [status]. apply (worst_ok_max _ _ W).
  - unfold merge in Em. cbn [map snd] in Em.
    destruct (worst [status s0; status s1; status f0; status f1]) as [st|] eqn:W;
      cbn [exc_bind] in Em; [|discriminate].
    injection Em as <-. cbn [status]. apply (worst_ok_max _ _ W).
Qed.

Lemma indent_not_header (ls : list string) (h : string) :
  h = "stderr:" \/ h = "stdout:" -> ~ In h (map (fun ln => "  " +++ ln) ls).
Proof.
  intros H I. apply in_map_iff in I. destruct I as (x & E & _).
  cbn [String.append] in E. destruct H; subst h; discriminate.
Qed.

Lemma indent_detail (s : string) :
  Forall (fun l => l = "stderr:" \/ l = "stdout:" \/ detail_line l)
    (map (fun ln => "  " +++ ln) (Py.splitlines s)).
Proof.
  apply Forall_forall. intros l I. apply in_map_iff in I. destruct I as (ln & <- & I).
  right. right. exists ln. split; [reflexivity | now apply (splitlines_no_newline s)].
Qed.

Lemma format_command_error_eq (name : string) (code : Z) (out err : string) :
  Utils.format_command_error name code out err
  = (name +++ " failed with code " +++ Py.str_of_int code)
      :: stream_section "stderr:" err ++ stream_section "stdout:" out.
Proof.
  unfold Utils.format_command_error, stream_section.
  destruct (Py.truthy (Py.strip err)), (Py.truthy (Py.strip out)); cbn [app];
    rewrite <- ?app_assoc, ?app_nil_r; reflexivity.
Qed.

Lemma stream_section_spec (header stream : string) :
  header = "stderr:" \/ header = "stdout:" ->
  Forall (fun l => l = "stderr:" \/ l = "stdout:" \/ detail_line l)
    (stream_section header stream) /\
  (forall h,
     h = "stderr:" \/ h = "stdout:" ->
     (In h (stream_section header stream) <-> h = header /\ Py.strip stream <> "")) /\
  List.length (stream_section header stream) = section_size stream.
Proof.
  intros Hh. unfold stream_section, section_size.
  destruct (Py.truthy (Py.strip stream)) eqn:T.
  - apply truthy_iff in T. split; [|split].
    + constructor; [tauto | apply indent_detail].
    + intros h H. split.
      * intros [<- | I]; [auto|]. now apply indent_not_header in I.
      * intros [-> _]. now left.
    + cbn [List.length]. now rewrite length_map.
  - apply truthy_false_iff in T. split; [constructor | split; [|reflexivity]].
    intros h _. split; [intros [] | intros [_ N]; contradiction].
Qed.

(** X23.  The lines of a command error are the line naming the command and
    its exit code, then the section of stderr, then the section of stdout.
    The section of a stream is empty when the stream is blank; otherwise it
    is the header ([stderr:] or [stdout:]) followed by the lines of the
    stripped stream, in order, each indented by two spaces.  So each header
    appears exactly when its stream has text other than white space, and
    no other line is a header. *)
Theorem format_command_error_sections (name : string) (code : Z) (out err : string) :
  let shown := fun stream => map (fun ln => "  " +++ ln) (Py.splitlines (Py.strip stream)) in
  let errs := if Py.truthy (Py.strip err) then "stderr:" :: shown err else [] in
  let outs := if Py.truthy (Py.strip out) then "stdout:" :: shown out else [] in
  Utils.format_command_error name code out err
  = (name +++ " failed with code " +++ Py.str_of_int code) :: errs ++ outs /\
  (In "stderr:" (errs ++ outs) <-> Py.strip err <> "") /\
  (In "stdout:" (errs ++ outs) <-> Py.strip out <> "") /\
  ~ In "stderr:" (shown err ++ shown out) /\ ~ In "stdout:" (shown err ++ shown out) /\
  List.length errs = section_size err /\ List.length outs = section_size out.
Proof.
  intros shown errs outs.
  change errs with (stream_section "stderr:" err).
  change outs with (stream_section "stdout:" out).
  destruct (stream_section_spec "stderr:" err) as (Fe & Ie & Le); [now left|].
  destruct (stream_section_spec "stdout:" out) as (Fo & Io & Lo); [now right|].
  split; [apply format_command_error_eq|].
  rewrite !in_app_iff.
  rewrite (Ie "stderr:"), (Io "stderr:"), (Ie "stdout:"), (Io "stdout:") by tauto.
  pose proof (indent_not_header (Py.splitlines (Py.strip err))) as Ne.
  pose proof (indent_not_header (Py.splitlines (Py.strip out))) as No.
  split; [split; [intros [[_ H] | [H _]]; [exact H | discriminate H] | now left]|].
  split; [split; [intros [[H _] | [_ H]]; [discriminate H | exact H] | now right]|].
  split; [intros [H | H]; [apply (Ne "stderr:") | apply (No "stderr:")]; auto|].
  split; [intros [H | H]; [apply (Ne "stdout:") | apply (No "stdout:")]; auto|].
  split; assumption.
Qed.
